(** * Chat with Page: routing, retrieval, escalation and model fallback

    A shallow embedding of the context-management engine of the
    extension (src/content/content.js and src/popup/main.js) and of the
    session store it shares with the background worker
    (src/background/background.js), together with the properties its
    specification states about it and further properties read off the
    code.

    JavaScript numbers are IEEE 754 binary64 values; they are modelled by
    the primitive floats of the standard library, whose operations are
    the same correctly rounded ones.  The token estimate [length / 4] is
    an exact quotient of a string length, and is modelled as a rational. *)

From Stdlib Require Import Reals Lra Qreals.
From Stdlib Require Import ZArith QArith Qround List String Ascii Bool Lia Lqa.
From Stdlib Require Import Floats Sorted Permutation.
From Stdlib Require Import Decimal DecimalString DecimalZ.
Import ListNotations.

Set Implicit Arguments.

(* ================================================================== *)
(** * Part I: the model                                                 *)
(* ================================================================== *)

(** ** JavaScript values used by the engine *)

Module JS.

(** Truthiness of a string: only the empty string is falsy. *)
Definition truthy (s : string) : bool :=
  match s with
  | EmptyString => false
  | String _ _ => true
  end.

(** Truthiness of a value that may be [null]/[undefined] or a string. *)
Definition truthyOpt (o : option string) : bool :=
  match o with
  | Some s => truthy s
  | None => false
  end.

(** [String.prototype.includes]. *)
Fixpoint includes (needle hay : string) : bool :=
  if prefix needle hay then true
  else match hay with
       | EmptyString => false
       | String _ rest => includes needle rest
       end.

(** [String.prototype.substring (0, n)]. *)
Fixpoint take (n : nat) (s : string) : string :=
  match n, s with
  | O, _ => EmptyString
  | _, EmptyString => EmptyString
  | S n', String c rest => String c (take n' rest)
  end.

(** [Array.prototype.join]. *)
Fixpoint join (sep : string) (parts : list string) : string :=
  match parts with
  | [] => EmptyString
  | [p] => p
  | p :: rest => p ++ sep ++ join sep rest
  end.

(** [Array.prototype.slice (-n)]: the last [n] elements. *)
Definition lastN {A : Type} (n : nat) (l : list A) : list A :=
  skipn (List.length l - n) l.

End JS.

(** ** The embedding index (vectorStore) *)

Definition Vec := list float.

(** A stored embedding that is not an array (missing or malformed) is
    [None]. *)
Record VectorStore : Type := mkVectorStore {
  chunks : list string;
  embeddings : list (option Vec)
}.

(** ** Router and processing cache ([processPageContent]) *)

Module Router.

(** [const estimatedTokens = markdown.length / 4]. *)
Definition estimatedTokens (length : Z) : Q :=
  inject_Z length / 4.

Inductive Badge : Type := BadgeStuffing | BadgeHybrid | BadgeRag.

Inductive ChainKind : Type := ChainStuffing | ChainHybrid | ChainRAG.

Inductive SizeClass : Type := Compact | Standard.

(** The mode globals of the session. *)
Record Mode : Type := mkMode {
  isLongDocument : bool;
  useSummaryMode : bool;
  useHybridMode : bool;
  documentSummary : option string;
  vectorStore : option VectorStore;
  badge : option Badge;
  chain : option ChainKind
}.

Definition initialMode : Mode :=
  mkMode false false false None None None None.

(** The object written by [saveProcessingCache]; the cached
    [vectorStore] object holds [chunks] and [embeddings], either of
    which may be absent in a damaged entry. *)
Record CachedStore : Type := mkCachedStore {
  cachedChunks : option (list string);
  cachedEmbeddings : option (list (option Vec))
}.

Record CacheEntry : Type := mkCacheEntry {
  cacheSummary : option string;
  cacheVectorStore : option CachedStore;
  cacheTimestamp : Z;
  cacheUrl : string
}.

(** The session store, keyed by [processing_<tabId>_<url>]. *)
Definition Storage := list (string * CacheEntry).

Definition cacheKey (tabId url : string) : string :=
  "processing_" ++ tabId ++ "_" ++ url.

Fixpoint storageGet (st : Storage) (key : string) : option CacheEntry :=
  match st with
  | [] => None
  | (k, v) :: rest => if String.eqb k key then Some v else storageGet rest key
  end.

Definition storageSet (st : Storage) (key : string) (v : CacheEntry)
  : Storage :=
  (key, v) :: st.

(** [saveProcessingCache]: nothing is written without a tab id and a
    URL. *)
Definition saveProcessingCache (st : Storage) (tabId url : option string)
    (summary : option string) (vs : CachedStore) (now : Z) : Storage :=
  match tabId, url with
  | Some t, Some u =>
      if JS.truthy t && JS.truthy u
      then storageSet st (cacheKey t u) (mkCacheEntry summary (Some vs) now u)
      else st
  | _, _ => st
  end.

(** [loadProcessingCache]: a hit needs the stored URL to be the asked
    one. *)
Definition loadProcessingCache (st : Storage) (tabId url : option string)
  : option CacheEntry :=
  match tabId, url with
  | Some t, Some u =>
      if JS.truthy t && JS.truthy u
      then match storageGet st (cacheKey t u) with
           | Some cached =>
               if String.eqb (cacheUrl cached) u then Some cached else None
           | None => None
           end
      else None
  | _, _ => None
  end.

(** The warm path is taken when [cached && cached.vectorStore]. *)
Definition isWarm (cached : option CacheEntry) : bool :=
  match cached with
  | Some c => match cacheVectorStore c with Some _ => true | None => false end
  | None => false
  end.

(** Restoring the cached artifacts into the globals: the summary is
    [cached.summary || null]; the vector store is rebuilt only when the
    cached object has both arrays, and otherwise keeps its previous
    value. *)
Definition restoreSummary (c : CacheEntry) : option string :=
  match cacheSummary c with
  | Some s => if JS.truthy s then Some s else None
  | None => None
  end.

Definition restoreVectorStore (prev : option VectorStore) (c : CacheEntry)
  : option VectorStore :=
  match cacheVectorStore c with
  | Some cs =>
      match cachedChunks cs, cachedEmbeddings cs with
      | Some ch, Some em => Some (mkVectorStore ch em)
      | _, _ => prev
      end
  | None => prev
  end.

(** The warm path of [processPageContent]: "Determine mode based on
    what was cached". *)
Definition warmPath (t : Q) (prev : Mode) (c : CacheEntry) : Mode :=
  let summary := restoreSummary c in
  let store := restoreVectorStore (vectorStore prev) c in
  if Qlt_le_dec t 10000 then
    mkMode false false false summary store
           (Some BadgeStuffing) (Some ChainStuffing)
  else if JS.truthyOpt summary
            && match store with Some _ => true | None => false end then
    mkMode false false true summary store
           (Some BadgeHybrid) (Some ChainHybrid)
  else match store with
       | Some _ =>
           mkMode true false false summary store
                  (Some BadgeRag) (Some ChainRAG)
       | None =>
           mkMode false false false summary store
                  (Some BadgeStuffing) (Some ChainStuffing)
       end.

(** The routing decision a mode stands for. *)
Inductive Decision : Type := DDirect | DHybrid | DPureRetrieval.

Definition decisionOf (m : Mode) : Decision :=
  if useHybridMode m then DHybrid
  else if isLongDocument m then DPureRetrieval
  else DDirect.

Section ColdPath.

(** The provider calls made while processing.  [generateSummary]
    leaves [documentSummary] at the model's answer, or at [null] when
    the call fails; [setupRAGPipeline] leaves [vectorStore] at the
    built index, or at [null] when it fails.  The 20k-30k branch runs
    the pipeline a second time when the first attempt did not give
    both artifacts. *)
Variable generateSummary : string -> SizeClass -> option string.
Variable setupRAGPipeline : string -> option VectorStore.
Variable setupRAGPipelineAgain : string -> option VectorStore.

Definition hasStore (o : option VectorStore) : bool :=
  match o with Some _ => true | None => false end.

(** The cold path; the second component is the cache write, if any. *)
Definition coldPath (markdown : string) (t : Q) (prev : Mode)
  : Mode * option (option string * VectorStore) :=
  if Qlt_le_dec t 10000 then
    (mkMode false false false None None
            (Some BadgeStuffing) (Some ChainStuffing), None)
  else if Qlt_le_dec t 20000 then
    let summary := generateSummary markdown Compact in
    let store := setupRAGPipeline markdown in
    match store with
    | Some vs =>
        if JS.truthyOpt summary then
          (mkMode false false true summary store
                  (Some BadgeHybrid) (Some ChainHybrid),
           Some (summary, vs))
        else
          (mkMode false false false summary store
                  (Some BadgeStuffing) (Some ChainStuffing), None)
    | None =>
        (mkMode false false false summary store
                (Some BadgeStuffing) (Some ChainStuffing), None)
    end
  else if Qlt_le_dec t 30000 then
    let summary := generateSummary markdown Standard in
    let store := setupRAGPipeline markdown in
    if JS.truthyOpt summary && hasStore store then
      (mkMode false false true summary store
              (Some BadgeHybrid) (Some ChainHybrid),
       match store with
       | Some vs => Some (summary, vs)
       | None => None
       end)
    else
      let store' := setupRAGPipelineAgain markdown in
      (mkMode false false false summary store'
              (Some BadgeRag) (Some ChainRAG),
       match store' with
       | Some vs => Some (None, vs)
       | None => None
       end)
  else
    let store := setupRAGPipeline markdown in
    (mkMode (hasStore store) false false None store
            (Some BadgeRag) (Some ChainRAG),
     match store with
     | Some vs => Some (None, vs)
     | None => None
     end).

(** [processPageContent]: nothing is done without page text;
    [cached] is what [loadProcessingCache] returned. *)
Definition processPageContent (pageText : option string) (prev : Mode)
    (cached : option CacheEntry) : Mode :=
  match pageText with
  | None => prev
  | Some markdown =>
      if negb (JS.truthy markdown) then prev
      else
        let t := estimatedTokens (Z.of_nat (String.length markdown)) in
        match cached with
        | Some c => if isWarm cached then warmPath t prev c
                    else fst (coldPath markdown t prev)
        | None => fst (coldPath markdown t prev)
        end
  end.

End ColdPath.

End Router.

(** ** Numbers: reading a float as the rational it denotes *)

Module Num.

(** The exact value of a finite float; [None] for NaN and the
    infinities. *)
Definition valueOf (x : float) : option Q :=
  match Prim2SF x with
  | S754_zero _ => Some 0%Q
  | S754_finite s m e =>
      let mag := (inject_Z (Zpos m) * Qpower 2 e)%Q in
      Some (if s then Qopp mag else mag)
  | S754_infinity _ => None
  | S754_nan => None
  end.

(** [Math.round]: the nearest integer, ties towards +infinity. *)
Definition mathRound (x : float) : option Z :=
  match valueOf x with
  | Some q => Some (Qfloor (q + (1 # 2)))
  | None => None
  end.

(** The real number a float denotes, 0 standing in where it denotes
    none. *)
Definition realOf (x : float) : R :=
  match valueOf x with
  | Some q => Q2R q
  | None => 0%R
  end.

(** A small non-negative integer as a float. *)
Definition ofZ (z : Z) : float := of_uint63 (Uint63.of_Z z).

End Num.

(** ** Chunk configuration and markdown-aware truncation *)

Module Chunking.

Local Open Scope Z_scope.

(** [s.length]. *)
Definition len (s : string) : Z := Z.of_nat (String.length s).

Record ChunkConfig : Type := mkChunkConfig {
  chunkSize : Z;
  chunkOverlap : Z
}.

(** The size band of [getOptimalChunkConfig]: chunk size and overlap
    percentage. *)
Definition sizeBand (documentLength : Z) (useLargeChunks : bool) : Z * Z :=
  if useLargeChunks then
    if documentLength <? 30000 then (1500, 15)
    else if documentLength <? 80000 then (2500, 15)
    else if documentLength <? 150000 then (3500, 15)
    else (5000, 15)
  else
    if documentLength <? 20000 then (500, 20)
    else if documentLength <? 50000 then (800, 18)
    else if documentLength <? 100000 then (1200, 15)
    else if documentLength <? 200000 then (1800, 12)
    else (2500, 10).

(** [Math.round (chunkSize * (overlapPercent / 100))], computed on
    floats as the source does. *)
Definition overlapOf (size percent : Z) : Z :=
  match Num.mathRound
          (Num.ofZ size * (Num.ofZ percent / Num.ofZ 100))%float with
  | Some z => z
  | None => 0
  end.

Definition getOptimalChunkConfig (documentLength : Z)
    (useLargeChunks : bool) : ChunkConfig :=
  let (size, percent) := sizeBand documentLength useLargeChunks in
  mkChunkConfig size (overlapOf size percent).

Definition nl : string := String (ascii_of_nat 10) EmptyString.
Definition blankLine : string := (nl ++ nl)%string.

Definition truncationMarker : string :=
  (blankLine ++ "... [content truncated at natural markdown boundary]")%string.

Definition fallbackMarker : string := "... [content truncated]".

(** The loop of [truncateMarkdownSafely] that reassembles whole chunks
    while they fit, then at most one partial chunk. *)
Fixpoint combineChunks (maxChars : Z) (chunks : list string)
    (truncated : string) : string :=
  match chunks with
  | [] => truncated
  | chunk :: rest =>
      if len truncated + len chunk <=? maxChars then
        combineChunks maxChars rest (truncated ++ chunk ++ blankLine)%string
      else
        let remaining := maxChars - len truncated in
        if 500 <? remaining
        then (truncated ++ JS.take (Z.to_nat remaining) chunk)%string
        else truncated
  end.

Section Splitter.

(** The markdown text splitter of the LangChain library
    ([RecursiveCharacterTextSplitter.fromLanguage ('markdown', ...)]
    followed by [createDocuments]); it is not part of this
    repository.  [None] stands for a thrown exception. *)
Variable splitMarkdown : ChunkConfig -> string -> option (list string).

Definition truncateMarkdownSafely (markdown : string) (maxChars : Z)
  : string :=
  if len markdown <=? maxChars then markdown
  else
    let config := getOptimalChunkConfig (len markdown) true in
    match splitMarkdown config markdown with
    | Some chunks =>
        (combineChunks maxChars chunks EmptyString ++ truncationMarker)%string
    | None =>
        (JS.take (Z.to_nat maxChars) markdown ++ fallbackMarker)%string
    end.

(** The chunk texts [setupRAGPipeline] hands to the embedder. *)
Definition ragChunks (markdown : string) : option (list string) :=
  splitMarkdown (getOptimalChunkConfig (len markdown) false) markdown.

End Splitter.

End Chunking.

(** ** Cosine similarity and retrieval *)

Module Index.

Local Open Scope float_scope.

(** [arr.reduce ((sum, a, i) => f sum a i, init)], from index [i]. *)
Fixpoint reduceFrom (f : float -> float -> nat -> float) (arr : Vec)
    (i : nat) (acc : float) : float :=
  match arr with
  | [] => acc
  | a :: rest => reduceFrom f rest (S i) (f acc a i)
  end.

(** Reading [vec[i]]; an index out of range gives [undefined], which
    arithmetic turns into NaN. *)
Definition at_ (vec : Vec) (i : nat) : float := nth i vec nan.

Definition dotProduct (vecA vecB : Vec) : float :=
  reduceFrom (fun sum a i => sum + a * at_ vecB i) vecA 0%nat 0.

Definition magnitude (vec : Vec) : float :=
  PrimFloat.sqrt (reduceFrom (fun sum a _ => sum + a * a) vec 0%nat 0).

(** [cosineSimilarity]; an argument that is not an array is [None]. *)
Definition cosineSimilarity (vecA vecB : option Vec) : float :=
  match vecA, vecB with
  | Some a, Some b =>
      if negb (Nat.eqb (List.length a) (List.length b)) then 0
      else
        let dot := dotProduct a b in
        let magnitudeA := magnitude a in
        let magnitudeB := magnitude b in
        if (magnitudeA =? 0) || (magnitudeB =? 0) then 0
        else dot / (magnitudeA * magnitudeB)
  | _, _ => 0
  end.

(** *** [Array.prototype.sort] with a comparator

    The comparator's result [v] orders [a] after [b] when [v > 0]; a
    NaN result counts as [+0].  The sort is stable; it is modelled by
    stable insertion. *)
Section Sort.

Variable A : Type.
Variable comparefn : A -> A -> float.

Definition sortsAfter (a b : A) : bool := 0 <? comparefn a b.

Fixpoint insertSorted (x : A) (l : list A) : list A :=
  match l with
  | [] => [x]
  | y :: rest =>
      if sortsAfter x y then y :: insertSorted x rest else x :: l
  end.

Definition jsSort (l : list A) : list A :=
  fold_right insertSorted [] l.

End Sort.

(** [arr.map ((x, index) => f x index)]. *)
Fixpoint mapFrom {A B : Type} (f : A -> nat -> B) (l : list A) (i : nat)
  : list B :=
  match l with
  | [] => []
  | x :: rest => f x i :: mapFrom f rest (S i)
  end.

Definition separator : string :=
  (Chunking.blankLine ++ "---" ++ Chunking.blankLine)%string.

(** The retrieval of src/content/content.js. *)
Module Content.

Record Scored : Type := mkScored {
  chunk : string;
  score : float;
  index : nat
}.

(** [vectorStore.chunks[index] || '']. *)
Definition chunkAt (vs : VectorStore) (i : nat) : string :=
  nth i (chunks vs) EmptyString.

Definition scoreOf (queryEmbedding : Vec) (embedding : option Vec)
  : float :=
  match embedding with
  | None => 0
  | Some e =>
      if Nat.eqb (List.length e) 0 then 0
      else if negb (Nat.eqb (List.length e) (List.length queryEmbedding))
      then 0
      else
        let s := cosineSimilarity (Some queryEmbedding) (Some e) in
        if is_nan s then 0 else s
  end.

Definition similarities (vs : VectorStore) (queryEmbedding : Vec)
  : list Scored :=
  mapFrom (fun embedding i =>
             mkScored (chunkAt vs i) (scoreOf queryEmbedding embedding) i)
          (embeddings vs) 0.

Definition passes (scoreThreshold : float) (item : Scored) : bool :=
  JS.truthy (chunk item)
  && negb (is_nan (score item))
  && (scoreThreshold <=? score item).

Definition byScoreDesc (a b : Scored) : float := score b - score a.

(** The filtered, sorted and cut list of scored items. *)
Definition selected (vs : VectorStore) (queryEmbedding : Vec) (k : nat)
    (scoreThreshold : float) : list Scored :=
  firstn k (jsSort byScoreDesc
              (filter (passes scoreThreshold)
                      (similarities vs queryEmbedding))).

Section Retrieve.

(** [vectorStore.embedder.embedQuery]: the embedding capability;
    [None] is a failed call or an answer that is not an array. *)
Variable embedQuery : string -> option Vec.

Definition retrieveRelevantChunks (store : option VectorStore)
    (query : string) (k : nat) (scoreThreshold : float)
  : list string :=
  match store with
  | None => []
  | Some vs =>
      match embeddings vs with
      | [] => []
      | _ :: _ =>
          match embedQuery query with
          | None => []
          | Some [] => []
          | Some queryEmbedding =>
              map chunk (selected vs queryEmbedding k scoreThreshold)
          end
      end
  end.

End Retrieve.

End Content.

(** The retrieval of src/popup/main.js: no dimension check of its own
    and no replacement of NaN; a chunk is whatever [chunks[index]]
    holds. *)
Module Popup.

Record Scored : Type := mkScored {
  chunk : option string;
  score : float;
  index : nat
}.

Definition similarities (vs : VectorStore) (queryEmbedding : Vec)
  : list Scored :=
  mapFrom (fun embedding i =>
             match embedding with
             | None => mkScored (nth_error (chunks vs) i) 0 i
             | Some e =>
                 mkScored (nth_error (chunks vs) i)
                          (cosineSimilarity (Some queryEmbedding) (Some e))
                          i
             end)
          (embeddings vs) 0.

Definition passes (scoreThreshold : float) (item : Scored) : bool :=
  scoreThreshold <=? score item.

Definition byScoreDesc (a b : Scored) : float := score b - score a.

Definition selected (vs : VectorStore) (queryEmbedding : Vec) (k : nat)
    (scoreThreshold : float) : list Scored :=
  firstn k (jsSort byScoreDesc
              (filter (passes scoreThreshold)
                      (similarities vs queryEmbedding))).

Section Retrieve.

Variable embedQuery : string -> option Vec.

Definition retrieveRelevantChunks (store : option VectorStore)
    (query : string) (k : nat) (scoreThreshold : float)
  : list (option string) :=
  match store with
  | None => []
  | Some vs =>
      match embeddings vs with
      | [] => []
      | _ :: _ =>
          match embedQuery query with
          | None => []
          | Some queryEmbedding =>
              map chunk (selected vs queryEmbedding k scoreThreshold)
          end
      end
  end.

End Retrieve.

End Popup.

End Index.

(** ** The similarity formula in exact arithmetic

    The formula of [cosineSimilarity] read over the real numbers, where
    sums do not depend on the order of the additions.  It is the
    reference the computed value is compared with. *)

Module Exact.

Local Open Scope R_scope.

Fixpoint dotProduct (a b : list R) : R :=
  match a, b with
  | x :: a', y :: b' => x * y + dotProduct a' b'
  | _, _ => 0
  end.

Definition magnitude (a : list R) : R := R_sqrt.sqrt (dotProduct a a).

Definition cosineSimilarity (a b : list R) : R :=
  if negb (Nat.eqb (List.length a) (List.length b)) then 0
  else if Req_dec_T (magnitude a) 0 then 0
  else if Req_dec_T (magnitude b) 0 then 0
  else dotProduct a b / (magnitude a * magnitude b).

End Exact.

(** ** Answering a question ([handleSend]) *)

Module Chat.

Inductive Role : Type := Human | AI.

Record Message : Type := mkMessage {
  role : Role;
  text : string
}.

Definition History := list Message.

(** What the catch block of [handleSend] looks at in a thrown error. *)
Record Error : Type := mkError {
  errMessage : string;
  errJson : string;
  errStatus : option Z;
  errResponseStatus : option Z
}.

(** A streamed completion: the pieces delivered, then possibly a
    failure. *)
Record StreamResult : Type := mkStream {
  pieces : list string;
  failure : option Error
}.

(** The provider calls and index queries a question causes. *)
Inductive Call : Type :=
| Completion (context question : string)
| Retrieval (question : string) (k : nat) (scoreThreshold : float)
| DetailCompletion (summary context question : string).

(** The assistant bubble of the question and the log of calls. *)
Record UI : Type := mkUI {
  calls : list Call;
  messageDiv : option string
}.

Definition emptyUI : UI := mkUI [] None.

Inductive Outcome (A : Type) : Type :=
| Done (a : A)
| Thrown (e : Error).
Arguments Done {A} a.
Arguments Thrown {A} e.

(** Code that draws on the page, logs its calls and may throw. *)
Definition M (A : Type) : Type := UI -> Outcome A * UI.

Definition ret {A : Type} (a : A) : M A := fun ui => (Done a, ui).

Definition bind {A B : Type} (m : M A) (f : A -> M B) : M B :=
  fun ui =>
    match m ui with
    | (Done a, ui') => f a ui'
    | (Thrown e, ui') => (Thrown e, ui')
    end.

Definition throw {A : Type} (e : Error) : M A := fun ui => (Thrown e, ui).

Definition logCall (c : Call) : M unit :=
  fun ui => (Done tt, mkUI (calls ui ++ [c]) (messageDiv ui)).

(** [renderMarkdownToElement (messageDiv, s)] and
    [messageDiv.textContent = s]: either replaces what the bubble
    shows. *)
Definition show (s : string) : M unit :=
  fun ui => (Done tt, mkUI (calls ui) (Some s)).

Declare Scope chat_scope.
Delimit Scope chat_scope with chat.
Notation "x <- m ;; k" := (bind m (fun x => k))
  (at level 61, m at next level, right associativity) : chat_scope.
Notation "m ;;; k" := (bind m (fun _ => k))
  (at level 61, right associativity) : chat_scope.
Local Open Scope chat_scope.

(** [for await (const chunk of stream) { fullResponse += chunk; render }]. *)
Fixpoint renderPieces (fullResponse : string) (ps : list string)
  : M string :=
  match ps with
  | [] => ret fullResponse
  | p :: rest =>
      let fullResponse' := (fullResponse ++ p)%string in
      show fullResponse' ;;; renderPieces fullResponse' rest
  end.

Definition consume (fullResponse : string) (r : StreamResult) : M string :=
  full <- renderPieces fullResponse (pieces r) ;;
  match failure r with
  | Some e => throw e
  | None => ret full
  end.

Definition sentinel : string := "🔍 NEEDS_DETAIL:".

Definition notFoundMessage : string :=
  "Could not find specific details. The summary may be your best answer.".

Definition noRelevantInfo : string :=
  "No relevant information found in the document.".

(** The last twenty messages are kept. *)
Definition trimHistory (h : History) : History :=
  if Nat.ltb 20 (List.length h) then JS.lastN 20 h else h.

Section HandleSend.

(** The chain built by [initLangChain...] for the current mode,
    called with (context, question, history). *)
Variable chainStream : string -> string -> History -> StreamResult.

(** The second chain of the Hybrid mode, called with (summary,
    retrieved context, question, history). *)
Variable retrievalStream :
  string -> string -> string -> History -> StreamResult.

Variable embedQuery : string -> option Vec.

Variable splitMarkdown :
  Chunking.ChunkConfig -> string -> option (list string).

(** The capture group of [/🔍 NEEDS_DETAIL:\s*(.+)/] in the
    response, shown while searching; it has no other use. *)
Variable detailNeeded : string -> string.

Definition retrieve (vs : VectorStore) (question : string) : list string :=
  Index.Content.retrieveRelevantChunks embedQuery (Some vs) question 4 0.5.

(** The Hybrid branch of [handleSend]. *)
Definition answerHybrid (summary : string) (vs : VectorStore)
    (question : string) (history : History) : M string :=
  show EmptyString ;;;
  logCall (Completion summary question) ;;;
  fullResponse <- consume EmptyString (chainStream summary question history) ;;
  if JS.includes sentinel fullResponse then
    show ("Searching for " ++ detailNeeded fullResponse ++ "...")%string ;;;
    logCall (Retrieval question 4 0.5) ;;;
    let relevantChunks := retrieve vs question in
    let retrievedContext := JS.join Index.separator relevantChunks in
    if JS.truthy retrievedContext then
      logCall (DetailCompletion summary retrievedContext question) ;;;
      consume EmptyString
              (retrievalStream summary retrievedContext question history)
    else
      show notFoundMessage ;;; ret fullResponse
  else ret fullResponse.

(** The summary-only branch. *)
Definition answerSummary (summary question : string) (history : History)
  : M string :=
  show EmptyString ;;;
  logCall (Completion summary question) ;;;
  consume EmptyString (chainStream summary question history).

(** The pure retrieval branch. *)
Definition answerRAG (vs : VectorStore) (question : string)
    (history : History) : M string :=
  logCall (Retrieval question 4 0.5) ;;;
  let joined := JS.join Index.separator (retrieve vs question) in
  let context := if JS.truthy joined then joined else noRelevantInfo in
  show EmptyString ;;;
  logCall (Completion context question) ;;;
  consume EmptyString (chainStream context question history).

(** The direct branch, with the whole page as context. *)
Definition answerDirect (pageText question : string) (history : History)
  : M string :=
  let context :=
    if (50000 <? Chunking.len pageText)%Z
    then Chunking.truncateMarkdownSafely splitMarkdown pageText 50000
    else pageText in
  show EmptyString ;;;
  logCall (Completion context question) ;;;
  consume EmptyString (chainStream context question history).

Inductive SendOutcome : Type :=
| NotSent
| Answered (fullResponse : string)
| Failed (e : Error).

Record SendResult : Type := mkSendResult {
  outcome : SendOutcome;
  ui : UI;
  history : History
}.

(** [handleSend] for the trimmed [question]; [pageText] is
    [pageContent.text] when the page content is loaded. *)
Definition handleSend (mode : Router.Mode) (pageText : option string)
    (question : string) (chatHistory : History) : SendResult :=
  if negb (JS.truthy question) then mkSendResult NotSent emptyUI chatHistory
  else match pageText, Router.chain mode with
  | None, _ => mkSendResult NotSent emptyUI chatHistory
  | _, None => mkSendResult NotSent emptyUI chatHistory
  | Some page, Some _ =>
      let body : M string :=
        match Router.useHybridMode mode, Router.documentSummary mode,
              Router.vectorStore mode with
        | true, Some summary, Some vs =>
            if JS.truthy summary
            then answerHybrid summary vs question chatHistory
            else if Router.isLongDocument mode
            then answerRAG vs question chatHistory
            else answerDirect page question chatHistory
        | _, summary, store =>
            if Router.useSummaryMode mode && JS.truthyOpt summary then
              match summary with
              | Some s => answerSummary s question chatHistory
              | None => answerDirect page question chatHistory
              end
            else match Router.isLongDocument mode, store with
                 | true, Some vs => answerRAG vs question chatHistory
                 | _, _ => answerDirect page question chatHistory
                 end
        end in
      match body emptyUI with
      | (Done fullResponse, ui') =>
          mkSendResult (Answered fullResponse) ui'
            (trimHistory (chatHistory ++ [mkMessage Human question;
                                          mkMessage AI fullResponse]))
      | (Thrown e, ui') => mkSendResult (Failed e) ui' chatHistory
      end
  end.

End HandleSend.

End Chat.

(** ** Model fallback on rate limiting (src/content/content.js) *)

Module Fallback.

Record Model : Type := mkModel {
  name : string;
  displayName : string;
  speed : string
}.

Definition MODEL_FALLBACK_CHAIN : list Model :=
  [ mkModel "gemini-2.5-flash-lite" "Gemini 2.5 Flash Lite" "Fastest";
    mkModel "gemini-2.5-flash" "Gemini 2.5 Flash" "Fast";
    mkModel "gemini-2.0-flash-lite" "Gemini 2.0 Flash Lite" "Fast";
    mkModel "gemini-2.0-flash" "Gemini 2.0 Flash" "Balanced" ].

Definition RATE_LIMIT_COOLDOWN : Z := 3000.

Definition apiHost : string := "generativelanguage.googleapis.com".

(** The globals of the coordinator, and the number of switch prompts
    standing in the message list. *)
Record State : Type := mkState {
  currentModelIndex : nat;
  lastFailedQuestion : option string;
  isHandlingRateLimit : bool;
  rateLimitPromptShown : bool;
  activeRequestId : option string;
  lastRateLimitTime : Z;
  openPrompts : nat
}.

Definition initialState : State :=
  mkState 0 None false false None 0 0.

Definition getCurrentModel (s : State) : option Model :=
  nth_error MODEL_FALLBACK_CHAIN (currentModelIndex s).

Definition getNextModel (s : State) : option Model :=
  if Nat.ltb (currentModelIndex s) (List.length MODEL_FALLBACK_CHAIN - 1)
  then nth_error MODEL_FALLBACK_CHAIN (currentModelIndex s + 1)
  else None.

(** What the user is shown. *)
Inductive Shown : Type :=
| SwitchPrompt (current next : option Model)
| FinalRateLimitMessage
| DetectionHonored (now : Z)
| ModelSwitched (to : Model)
| Resubmitted (question : string).

Definition setIndex (s : State) (i : nat) : State :=
  mkState i (lastFailedQuestion s) (isHandlingRateLimit s)
          (rateLimitPromptShown s) (activeRequestId s)
          (lastRateLimitTime s) (openPrompts s).

(** [switchToNextModel]: the advance operation. *)
Definition switchToNextModel (s : State) : State * bool :=
  match getNextModel s with
  | Some _ => (setIndex s (S (currentModelIndex s)), true)
  | None => (s, false)
  end.

(** [showModelSwitchPrompt]. *)
Definition showModelSwitchPrompt (s : State) : State * list Shown :=
  match getNextModel s with
  | None => (s, [FinalRateLimitMessage])
  | Some next =>
      (mkState (currentModelIndex s) (lastFailedQuestion s)
               (isHandlingRateLimit s) (rateLimitPromptShown s)
               (activeRequestId s) (lastRateLimitTime s)
               (S (openPrompts s)),
       [SwitchPrompt (getCurrentModel s) (Some next)])
  end.

(** What happens to the coordinator.  A fetch answer carries, for
    reference, the request that was active when the fetch was issued
    ([None] for a fetch issued outside [handleSend], such as the
    embedding calls of [setupRAGPipeline]); the interceptor sees only the
    answer and the URL. *)
Inductive Event : Type :=
| SendStarted (requestId : string)
| FetchResponse (issuedBy : option string) (status : Z) (url : string)
                (now : Z)
| TimerFired (lastUserMessage : option string)
| SendRateLimited (question : string)
| SendFinished
| ClickSwitch
| ClickCancel.

(** The three guards of the fetch interceptor, in the order of the
    source. *)
Definition honors (s : State) (status : Z) (url : string) (now : Z) : bool :=
  (status =? 429)%Z && JS.includes apiHost url
  && JS.truthyOpt (activeRequestId s)
  && negb (now - lastRateLimitTime s <? RATE_LIMIT_COOLDOWN)%Z
  && negb (isHandlingRateLimit s).

Definition onFetchResponse (s : State) (status : Z) (url : string) (now : Z)
  : State * list Shown :=
  if ((status =? 429)%Z && JS.includes apiHost url)%bool then
    if negb (JS.truthyOpt (activeRequestId s)) then (s, [])
    else if (now - lastRateLimitTime s <? RATE_LIMIT_COOLDOWN)%Z then (s, [])
    else if isHandlingRateLimit s then (s, [])
    else
      (mkState (currentModelIndex s) (lastFailedQuestion s) true
               (rateLimitPromptShown s) (activeRequestId s) now
               (openPrompts s),
       [DetectionHonored now])
  else (s, []).

(** The callback the interceptor schedules after an honored
    detection. *)
Definition onTimer (s : State) (lastUserMessage : option string)
  : State * list Shown :=
  let question :=
    if JS.truthyOpt (lastFailedQuestion s) then lastFailedQuestion s
    else match lastUserMessage with
         | Some m => Some m
         | None => lastFailedQuestion s
         end in
  let s1 := mkState (currentModelIndex s) question (isHandlingRateLimit s)
                    (rateLimitPromptShown s) (activeRequestId s)
                    (lastRateLimitTime s) (openPrompts s) in
  match getNextModel s1 with
  | Some _ =>
      if negb (rateLimitPromptShown s1) then
        showModelSwitchPrompt
          (mkState (currentModelIndex s1) question (isHandlingRateLimit s1)
                   true (activeRequestId s1) (lastRateLimitTime s1)
                   (openPrompts s1))
      else (s1, [])
  | None =>
      (mkState (currentModelIndex s1) question false false
               (activeRequestId s1) (lastRateLimitTime s1) (openPrompts s1),
       [FinalRateLimitMessage])
  end.

(** The click on "Switch Model & Continue". *)
Definition onClickSwitch (s : State) : State * list Shown :=
  match openPrompts s with
  | O => (s, [])
  | S remaining =>
      let s1 := mkState (currentModelIndex s) (lastFailedQuestion s) false
                        false (activeRequestId s) 0 remaining in
      match switchToNextModel s1 with
      | (s2, true) =>
          let switched :=
            match getCurrentModel s2 with
            | Some m => [ModelSwitched m]
            | None => []
            end in
          if JS.truthyOpt (lastFailedQuestion s2) then
            match lastFailedQuestion s2 with
            | Some q =>
                (mkState (currentModelIndex s2) None
                         (isHandlingRateLimit s2) (rateLimitPromptShown s2)
                         (activeRequestId s2) (lastRateLimitTime s2)
                         (openPrompts s2),
                 switched ++ [Resubmitted q])
            | None => (s2, switched)
            end
          else (s2, switched)
      | (s2, false) => (s2, [])
      end
  end.

(** The click on "Cancel". *)
Definition onClickCancel (s : State) : State * list Shown :=
  match openPrompts s with
  | O => (s, [])
  | S remaining =>
      (mkState (currentModelIndex s) None false false None 0 remaining, [])
  end.

Definition step (s : State) (e : Event) : State * list Shown :=
  match e with
  | SendStarted requestId =>
      (mkState (currentModelIndex s) (lastFailedQuestion s)
               (isHandlingRateLimit s) (rateLimitPromptShown s)
               (Some requestId) (lastRateLimitTime s) (openPrompts s), [])
  | FetchResponse _ status url now => onFetchResponse s status url now
  | TimerFired lastUserMessage => onTimer s lastUserMessage
  | SendRateLimited question =>
      showModelSwitchPrompt
        (mkState (currentModelIndex s) (Some question)
                 (isHandlingRateLimit s) (rateLimitPromptShown s)
                 (activeRequestId s) (lastRateLimitTime s) (openPrompts s))
  | SendFinished =>
      (mkState (currentModelIndex s) (lastFailedQuestion s)
               (isHandlingRateLimit s) (rateLimitPromptShown s)
               None (lastRateLimitTime s) (openPrompts s), [])
  | ClickSwitch => onClickSwitch s
  | ClickCancel => onClickCancel s
  end.

(** A run: the states passed through, with what each step showed. *)
Fixpoint run (s : State) (es : list Event) : State * list Shown :=
  match es with
  | [] => (s, [])
  | e :: rest =>
      let (s1, out1) := step s e in
      let (s2, out2) := run s1 rest in
      (s2, out1 ++ out2)
  end.

Inductive Reachable : State -> Prop :=
| ReachInit : Reachable initialState
| ReachStep s e : Reachable s -> Reachable (fst (step s e)).

(** Two readings of "the last honored detection", kept along a run
    for reference: the last one ever, and the last one that no click on
    a switch prompt has followed. *)
Definition lastDetection (known : option Z) (s : State) (e : Event)
  : option Z :=
  match e with
  | FetchResponse _ status url now =>
      if honors s status url now then Some now else known
  | _ => known
  end.

Definition lastUnansweredDetection (known : option Z) (s : State)
    (e : Event) : option Z :=
  match e with
  | FetchResponse _ status url now =>
      if honors s status url now then Some now else known
  | ClickSwitch | ClickCancel =>
      match openPrompts s with O => known | S _ => None end
  | _ => known
  end.

Fixpoint runTracking (track : option Z -> State -> Event -> option Z)
    (known : option Z) (s : State) (es : list Event) : option Z * State :=
  match es with
  | [] => (known, s)
  | e :: rest => runTracking track (track known s e) (fst (step s e)) rest
  end.

End Fallback.

(** ** Opening a page: cache lookup, processing, cache write *)

Module Session.

Import Router.

Section OpenPage.

Variable generateSummary : string -> SizeClass -> option string.
Variable setupRAGPipeline : string -> option VectorStore.
Variable setupRAGPipelineAgain : string -> option VectorStore.

(** The object handed to [saveProcessingCache]:
    [{ chunks: vectorStore.chunks, embeddings: vectorStore.embeddings }]. *)
Definition snapshot (vs : VectorStore) : CachedStore :=
  mkCachedStore (Some (chunks vs)) (Some (embeddings vs)).

(** [processPageContent] with its storage: the cache is read under the
    current tab and URL first; only the cold path writes, after a
    successful build. *)
Definition openPage (st : Storage) (tabId url : option string)
    (pageText : option string) (prev : Mode) (now : Z) : Mode * Storage :=
  match pageText with
  | None => (prev, st)
  | Some markdown =>
      if negb (JS.truthy markdown) then (prev, st)
      else
        let t := estimatedTokens (Z.of_nat (String.length markdown)) in
        let cached := loadProcessingCache st tabId url in
        match cached with
        | Some c =>
            if isWarm cached then (warmPath t prev c, st)
            else
              let (m, w) := coldPath generateSummary setupRAGPipeline
                                     setupRAGPipelineAgain markdown t prev in
              (m, match w with
                  | Some (summary, vs) =>
                      saveProcessingCache st tabId url summary (snapshot vs)
                                          now
                  | None => st
                  end)
        | None =>
            let (m, w) := coldPath generateSummary setupRAGPipeline
                                   setupRAGPipelineAgain markdown t prev in
            (m, match w with
                | Some (summary, vs) =>
                    saveProcessingCache st tabId url summary (snapshot vs) now
                | None => st
                end)
        end
  end.

End OpenPage.

End Session.

(** ** The session store: chat history per tab (content.js,
    background.js) *)

Module Persist.

Import Chat.
Local Open Scope string_scope.

(** A stored message: [{ role: msg._getType(), content: msg.content }]. *)
Record Stored : Type := mkStored {
  storedRole : string;
  storedContent : string
}.

(** What [chrome.storage.session] holds under a key. *)
Inductive Value : Type :=
| Messages (l : list Stored)
| Processing (c : Router.CacheEntry).

Definition Store := list (string * Value).

Fixpoint get (st : Store) (key : string) : option Value :=
  match st with
  | [] => None
  | (k, v) :: rest => if String.eqb k key then Some v else get rest key
  end.

Definition set (st : Store) (key : string) (v : Value) : Store :=
  (key, v) :: st.

Definition remove (st : Store) (key : string) : Store :=
  filter (fun kv => negb (String.eqb (fst kv) key)) st.

(** [msg._getType ()]. *)
Definition getType (r : Role) : string :=
  match r with
  | Human => "human"
  | AI => "ai"
  end.

Definition serialize (m : Message) : Stored :=
  mkStored (getType (role m)) (text m).

(** [msg.role === 'human' ? new HumanMessage (..) : new AIMessage (..)]. *)
Definition restore (s : Stored) : Message :=
  mkMessage (if String.eqb (storedRole s) "human" then Human else AI)
            (storedContent s).

(** A tab id is an integer; in a template literal it is written in
    decimal. *)
Definition render (tabId : Z) : string :=
  NilZero.string_of_int (Z.to_int tabId).

Definition chatHistoryKey (tabId : Z) : string :=
  "chatHistory_" ++ render tabId.

(** [saveChatHistory]: nothing is written without a tab id. *)
Definition saveChatHistory (st : Store) (currentTabId : option Z)
    (chatHistory : History) : Store :=
  match currentTabId with
  | Some tabId =>
      if (tabId =? 0)%Z then st
      else set st (chatHistoryKey tabId)
               (Messages (map serialize chatHistory))
  | None => st
  end.

(** [loadChatHistory]: the stored messages replace [chatHistory] only
    when there is at least one. *)
Definition loadChatHistory (st : Store) (currentTabId : option Z)
    (chatHistory : History) : History :=
  match currentTabId with
  | Some tabId =>
      if (tabId =? 0)%Z then chatHistory
      else match get st (chatHistoryKey tabId) with
           | Some (Messages (s :: l)) => map restore (s :: l)
           | _ => chatHistory
           end
  | None => chatHistory
  end.

(** The [chrome.tabs.onRemoved] listener of the background worker. *)
Definition onTabRemoved (st : Store) (tabId : Z) : Store :=
  remove st (chatHistoryKey tabId).

(** The last statement of the [try] block of [handleSend],
    [await saveChatHistory ()], after the push and the cut to twenty
    messages; a refused question returns before it and a thrown error
    skips it. *)
Definition persistSend (st : Store) (currentTabId : option Z)
    (r : SendResult) : Store :=
  match outcome r with
  | Answered _ => saveChatHistory st currentTabId (history r)
  | _ => st
  end.

(** The Ctrl/Cmd+L shortcut: a chat that is not empty is cleared after
    the user confirms, and the empty history is saved. *)
Definition clearChat (st : Store) (currentTabId : option Z)
    (confirmed : bool) (chatHistory : History) : History * Store :=
  match chatHistory with
  | [] => (chatHistory, st)
  | _ :: _ =>
      if confirmed then ([], saveChatHistory st currentTabId [])
      else (chatHistory, st)
  end.

(** The chat of an open panel: the history in memory and the session
    store. *)
Record Panel : Type := mkPanel {
  chatHistory : History;
  store : Store
}.

(** [init]: the history starts empty and is loaded only when an API key
    is saved. *)
Definition init (st : Store) (currentTabId : option Z)
    (savedKey : option string) : Panel :=
  mkPanel (if JS.truthyOpt savedKey
           then loadChatHistory st currentTabId []
           else [])
          st.

(** What the user does to the chat. *)
Inductive Action : Type :=
| Ask (mode : Router.Mode) (pageText : option string) (question : string)
| ClearChat (confirmed : bool).

Section Panel.

Variable chainStream : string -> string -> History -> StreamResult.
Variable retrievalStream :
  string -> string -> string -> History -> StreamResult.
Variable embedQuery : string -> option Vec.
Variable splitMarkdown :
  Chunking.ChunkConfig -> string -> option (list string).
Variable detailNeeded : string -> string.

Definition act (currentTabId : option Z) (p : Panel) (a : Action) : Panel :=
  match a with
  | Ask mode pageText question =>
      let r := handleSend chainStream retrievalStream embedQuery
                          splitMarkdown detailNeeded mode pageText question
                          (chatHistory p) in
      mkPanel (history r) (persistSend (store p) currentTabId r)
  | ClearChat confirmed =>
      let (h, st) := clearChat (store p) currentTabId confirmed
                               (chatHistory p) in
      mkPanel h st
  end.

Definition session (currentTabId : option Z) (p : Panel)
    (actions : list Action) : Panel :=
  fold_left (act currentTabId) actions p.

End Panel.

End Persist.

(** ** Loading the page content ([loadPageContent]) *)

Module Page.

Local Open Scope nat_scope.
Local Open Scope string_scope.

Record Tab : Type := mkTab {
  tabId : Z;
  tabUrl : option string;
  tabTitle : option string
}.

(** The answer of the content script to [getContent]. *)
Record Response : Type := mkResponse {
  text : option string;
  title : option string;
  url : option string
}.

(** An attempt of [chrome.tabs.sendMessage]: rejected, or resolved with
    a response that may be [undefined]. *)
Inductive Reply : Type :=
| Rejected
| Resolved (response : option Response).

Record Globals : Type := mkGlobals {
  pageContent : option Response;
  currentPageUrl : option string
}.

Inductive Failure : Type :=
| UrlMissing
| NotReachable
| NoContent.

(** The toast that ends the call. *)
Inductive Notice : Type :=
| NoTab
| AccessDenied
| Ready
| LoadFailed (why : Failure).

Record Loaded : Type := mkLoaded {
  globals : Globals;
  notice : Notice;
  messagesSent : nat
}.

Definition restricted (u : string) : bool :=
  prefix "chrome://" u || prefix "chrome-extension://" u
  || prefix "edge://" u || prefix "about:" u.

(** [response && response.text]. *)
Definition usable (response : option Response) : bool :=
  match response with
  | Some r => JS.truthyOpt (text r)
  | None => false
  end.

(** [loadPageContent]; [first] and [second] are what the two attempts to
    reach the content script give, the second being made only after the
    first was rejected. *)
Definition loadPageContent (tab : option Tab) (first second : Reply)
    (g : Globals) : Loaded :=
  match tab with
  | None => mkLoaded g NoTab 0
  | Some t =>
      match tabUrl t with
      | None => mkLoaded g (LoadFailed UrlMissing) 0
      | Some u =>
          if restricted u then mkLoaded g AccessDenied 0
          else
            let finish (response : option Response) (sent : nat) : Loaded :=
              if usable response
              then mkLoaded (mkGlobals response (Some u)) Ready sent
              else mkLoaded g (LoadFailed NoContent) sent in
            match first with
            | Resolved response => finish response 1
            | Rejected =>
                match second with
                | Resolved response => finish response 2
                | Rejected => mkLoaded g (LoadFailed NotReachable) 2
                end
            end
      end
  end.

(** The page text the router and [handleSend] see. *)
Definition pageText (g : Globals) : option string :=
  match pageContent g with
  | Some r => text r
  | None => None
  end.

End Page.

(** ** The catch block of [handleSend]: what an error is taken for *)

Module Failure.

Import Chat.
Local Open Scope nat_scope.
Local Open Scope string_scope.

(** [String.prototype.toLowerCase] on the letters A-Z.  The texts
    searched for in the lowered string contain only digits, spaces and
    letters that no character other than their own capital lowers to, so
    the searches give the same answers as on the JavaScript string. *)
Definition lowerAscii (c : ascii) : ascii :=
  let n := nat_of_ascii c in
  if (Nat.leb 65 n && Nat.leb n 90)%bool then ascii_of_nat (n + 32) else c.

Fixpoint toLowerCase (s : string) : string :=
  match s with
  | EmptyString => EmptyString
  | String c rest => String (lowerAscii c) (toLowerCase rest)
  end.

Inductive Kind : Type :=
| RateLimit
| ServiceUnavailable
| ServerError
| InvalidKey
| Network
| Other.

(** [error.message || error.toString () || 'Unknown error occurred']. *)
Definition errorMsg (e : Error) (asString : string) : string :=
  if JS.truthy (errMessage e) then errMessage e
  else if JS.truthy asString then asString
  else "Unknown error occurred".

Definition is429 (status : option Z) : bool :=
  match status with
  | Some z => (z =? 429)%Z
  | None => false
  end.

Definition isRateLimit (e : Error) (asString : string) : bool :=
  let msg := errorMsg e asString in
  let errorString := toLowerCase (errJson e) in
  JS.includes "429" msg
  || JS.includes "Too Many Requests" msg
  || JS.includes "429" errorString
  || JS.includes "too many requests" errorString
  || is429 (errStatus e)
  || is429 (errResponseStatus e).

(** The [if]/[else if] chain of the catch block. *)
Definition classify (e : Error) (asString : string) : Kind :=
  let msg := errorMsg e asString in
  if isRateLimit e asString then RateLimit
  else if JS.includes "503" msg || JS.includes "Service Unavailable" msg
  then ServiceUnavailable
  else if JS.includes "500" msg || JS.includes "502" msg
          || JS.includes "504" msg
  then ServerError
  else if JS.includes "400" msg || JS.includes "401" msg
          || JS.includes "403" msg || JS.includes "API_KEY_INVALID" msg
  then InvalidKey
  else if JS.includes "Failed to fetch" msg || JS.includes "Network" msg
  then Network
  else Other.

(** The text of the closing [toast.error]. *)
Definition toastMessage (e : Error) (asString : string) : string :=
  match classify e asString with
  | RateLimit => "Model rate limited. Switch to continue."
  | ServiceUnavailable =>
      "Gemini API is temporarily unavailable. Please try again in a moment."
  | ServerError => "Server error. Please try again shortly."
  | InvalidKey => "Invalid API key. Please check your Gemini API key."
  | Network => "Network error. Please check your connection."
  | Other => errorMsg e asString
  end.

(** What the failure of a question means for the fallback coordinator:
    only a rate limit stores the question and asks for a switch; the
    [finally] block ends the request in every case. *)
Definition events (e : Error) (asString question : string)
  : list Fallback.Event :=
  match classify e asString with
  | RateLimit => [Fallback.SendRateLimited question; Fallback.SendFinished]
  | _ => [Fallback.SendFinished]
  end.

End Failure.

(** ** The earlier popup of src/popup/main.js: one chain, blind cut *)

Module Legacy.

Import Chat.
Local Open Scope string_scope.

(** [context.substring (0, 50000) + '... [content truncated]'] for a
    text of more than 50,000 characters. *)
Definition context (text : string) : string :=
  if (50000 <? Chunking.len text)%Z
  then JS.take (Z.to_nat 50000) text ++ "... [content truncated]"
  else text.

(** What the catch block gets: the error of the stream, or the
    TypeError of reading the length of a text that is not there. *)
Inductive Failure : Type :=
| NoText
| Stream (e : Error).

Inductive Outcome : Type :=
| NotSent
| Answered (fullResponse : string)
| Failed (why : Failure).

Record Result : Type := mkResult {
  outcome : Outcome;
  ui : UI;
  history : History
}.

Section HandleSend.

(** [chain.stream ({ context, title, url, question, history })]. *)
Variable chainStream :
  string -> option string -> option string -> string -> History
  -> StreamResult.

Definition handleSend (chainReady : bool) (pageContent : option Page.Response)
    (question : string) (chatHistory : History) : Result :=
  if negb (JS.truthy question) then mkResult NotSent emptyUI chatHistory
  else match pageContent with
  | None => mkResult NotSent emptyUI chatHistory
  | Some page =>
      if negb chainReady then mkResult NotSent emptyUI chatHistory
      else match Page.text page with
      | None => mkResult (Failed NoText) emptyUI chatHistory
      | Some text =>
          let body : M string :=
            (show EmptyString ;;;
             logCall (Completion (context text) question) ;;;
             consume EmptyString
                     (chainStream (context text) (Page.title page)
                                  (Page.url page) question chatHistory))%chat
          in
          match body emptyUI with
          | (Done fullResponse, ui') =>
              mkResult (Answered fullResponse) ui'
                (trimHistory (chatHistory ++ [mkMessage Human question;
                                              mkMessage AI fullResponse])%list)
          | (Thrown e, ui') => mkResult (Failed (Stream e)) ui' chatHistory
          end
      end
  end.

End HandleSend.

End Legacy.

(* ================================================================== *)
(** * Part II: properties                                               *)
(* ================================================================== *)

(** Case analysis on the tests a goal branches on. *)
Ltac break_if :=
  match goal with
  | |- context [if ?b then _ else _] => destruct b
  end.

(** ** Router *)

Section RouterFacts.

Import Router.
Local Open Scope Q_scope.

Variable generateSummary : string -> SizeClass -> option string.
Variable setupRAGPipeline : string -> option VectorStore.
Variable setupRAGPipelineAgain : string -> option VectorStore.

Let cold :=
  coldPath generateSummary setupRAGPipeline setupRAGPipelineAgain.
Let process :=
  processPageContent generateSummary setupRAGPipeline setupRAGPipelineAgain.

(** What the cold path leaves on each of its four paths, for a summary
    and an index as the providers returned them. *)

(** Direct: nothing is asked of the providers and nothing is cached. *)
Definition directOutcome : Mode * option (option string * VectorStore) :=
  (mkMode false false false None None
          (Some BadgeStuffing) (Some ChainStuffing), None).

(** Hybrid with the summary of the asked size: Hybrid mode when the
    summary is not empty and the index was built, both cached then;
    otherwise the fallback of the path. *)
Definition hybridOutcome (summary : option string)
    (store : option VectorStore) (fallback : Mode * option (option string * VectorStore))
  : Mode * option (option string * VectorStore) :=
  match store with
  | Some vs =>
      if JS.truthyOpt summary
      then (mkMode false false true summary store
                   (Some BadgeHybrid) (Some ChainHybrid), Some (summary, vs))
      else fallback
  | None => fallback
  end.

(** Retrieval alone over the index [store], cached when it was built;
    [long] is the [isLongDocument] flag. *)
Definition retrievalOutcome (long : bool) (summary : option string)
    (store : option VectorStore)
  : Mode * option (option string * VectorStore) :=
  (mkMode long false false summary store (Some BadgeRag) (Some ChainRAG),
   match store with
   | Some vs => Some (None, vs)
   | None => None
   end).

Lemma coldPath_direct (markdown : string) (t : Q) (prev : Mode) :
  t < 10000 -> cold markdown t prev = directOutcome.
Proof.
  intros H. unfold cold, coldPath.
  destruct (Qlt_le_dec t 10000); [reflexivity | lra].
Qed.

Lemma coldPath_compact (markdown : string) (t : Q) (prev : Mode) :
  10000 <= t -> t < 20000 ->
  cold markdown t prev
  = hybridOutcome (generateSummary markdown Compact)
      (setupRAGPipeline markdown)
      (mkMode false false false (generateSummary markdown Compact)
              (setupRAGPipeline markdown)
              (Some BadgeStuffing) (Some ChainStuffing), None).
Proof.
  intros H1 H2. unfold cold, coldPath, hybridOutcome.
  destruct (Qlt_le_dec t 10000); [lra |].
  destruct (Qlt_le_dec t 20000); [| lra].
  cbv zeta. destruct (setupRAGPipeline markdown); reflexivity.
Qed.

Lemma coldPath_standard (markdown : string) (t : Q) (prev : Mode) :
  20000 <= t -> t < 30000 ->
  cold markdown t prev
  = hybridOutcome (generateSummary markdown Standard)
      (setupRAGPipeline markdown)
      (retrievalOutcome false (generateSummary markdown Standard)
                        (setupRAGPipelineAgain markdown)).
Proof.
  intros H1 H2. unfold cold, coldPath, hybridOutcome, retrievalOutcome.
  destruct (Qlt_le_dec t 10000); [lra |].
  destruct (Qlt_le_dec t 20000); [lra |].
  destruct (Qlt_le_dec t 30000); [| lra].
  cbv zeta.
  destruct (setupRAGPipeline markdown);
    destruct (JS.truthyOpt (generateSummary markdown Standard));
    reflexivity.
Qed.

Lemma coldPath_retrieval (markdown : string) (t : Q) (prev : Mode) :
  30000 <= t ->
  cold markdown t prev
  = retrievalOutcome (hasStore (setupRAGPipeline markdown)) None
                     (setupRAGPipeline markdown).
Proof.
  intros H. unfold cold, coldPath, retrievalOutcome.
  destruct (Qlt_le_dec t 10000); [lra |].
  destruct (Qlt_le_dec t 20000); [lra |].
  destruct (Qlt_le_dec t 30000); [lra | reflexivity].
Qed.

(** The cold path depends on the value of the estimate only. *)
Lemma coldPath_value (markdown : string) (t t' : Q) (prev : Mode) :
  t == t' -> cold markdown t prev = cold markdown t' prev.
Proof.
  intros E.
  destruct (Qlt_le_dec t 10000) as [a | a].
  { rewrite (coldPath_direct markdown prev a). symmetry.
    apply coldPath_direct. lra. }
  destruct (Qlt_le_dec t 20000) as [b | b].
  { rewrite (coldPath_compact markdown prev a b). symmetry.
    apply coldPath_compact; lra. }
  destruct (Qlt_le_dec t 30000) as [c | c].
  { rewrite (coldPath_standard markdown prev b c). symmetry.
    apply coldPath_standard; lra. }
  rewrite (coldPath_retrieval markdown prev c). symmetry.
  apply coldPath_retrieval. lra.
Qed.

Lemma estimatedTokens_lt (n k : Z) :
  estimatedTokens n < inject_Z k <-> (n < 4 * k)%Z.
Proof.
  unfold estimatedTokens, Qlt, Qdiv, Qmult, Qinv, inject_Z.
  cbn [Qnum Qden Pos.mul]. lia.
Qed.

Lemma estimatedTokens_le (n k : Z) :
  inject_Z k <= estimatedTokens n <-> (4 * k <= n)%Z.
Proof.
  unfold estimatedTokens, Qle, Qdiv, Qmult, Qinv, inject_Z.
  cbn [Qnum Qden Pos.mul]. lia.
Qed.

(** Without a cache entry [processPageContent] runs the cold path on the
    estimate of the page text. *)
Lemma processPageContent_cold (markdown : string) (prev : Mode) :
  JS.truthy markdown = true ->
  process (Some markdown) prev None
  = fst (cold markdown (estimatedTokens (Chunking.len markdown)) prev).
Proof.
  intros T. unfold process, processPageContent. rewrite T. reflexivity.
Qed.

(** C1. What the uncached processing of a page does is decided by the
    token estimate alone, at the documented thresholds: below 10,000 the
    Direct path (no summary, no index, nothing cached); from 10,000 up to
    20,000 the Hybrid path with the compact summary; from 20,000 up to
    30,000 the Hybrid path with the standard summary; from 30,000 on
    retrieval alone, without a summary.  Each of the boundary values
    10,000, 20,000 and 30,000 takes the higher path; estimates of equal
    value give the same result; and for a page of [n] characters, whose
    estimate is [n / 4], [processPageContent] changes path at 40,000,
    80,000 and 120,000 characters. *)
Theorem coldPath_thresholds :
  forall (markdown : string) (t : Q) (prev : Mode),
    let compact :=
      hybridOutcome (generateSummary markdown Compact)
        (setupRAGPipeline markdown)
        (mkMode false false false (generateSummary markdown Compact)
                (setupRAGPipeline markdown)
                (Some BadgeStuffing) (Some ChainStuffing), None) in
    let standard :=
      hybridOutcome (generateSummary markdown Standard)
        (setupRAGPipeline markdown)
        (retrievalOutcome false (generateSummary markdown Standard)
                          (setupRAGPipelineAgain markdown)) in
    let retrieval :=
      retrievalOutcome (hasStore (setupRAGPipeline markdown)) None
                       (setupRAGPipeline markdown) in
    (t < 10000 -> cold markdown t prev = directOutcome)
    /\ (10000 <= t -> t < 20000 -> cold markdown t prev = compact)
    /\ (20000 <= t -> t < 30000 -> cold markdown t prev = standard)
    /\ (30000 <= t -> cold markdown t prev = retrieval)
    /\ cold markdown 10000 prev = compact
    /\ cold markdown 20000 prev = standard
    /\ cold markdown 30000 prev = retrieval
    /\ (forall t', t == t' -> cold markdown t prev = cold markdown t' prev)
    /\ (JS.truthy markdown = true ->
        let n := Chunking.len markdown in
        let m := process (Some markdown) prev None in
        ((n < 40000)%Z -> m = fst directOutcome)
        /\ ((40000 <= n < 80000)%Z -> m = fst compact)
        /\ ((80000 <= n < 120000)%Z -> m = fst standard)
        /\ ((120000 <= n)%Z -> m = fst retrieval)).
Proof.
  intros markdown t prev compact standard retrieval.
  split; [apply coldPath_direct |].
  split; [apply coldPath_compact |].
  split; [apply coldPath_standard |].
  split; [apply coldPath_retrieval |].
  split; [apply coldPath_compact; [apply Qle_refl | reflexivity] |].
  split; [apply coldPath_standard; [apply Qle_refl | reflexivity] |].
  split; [apply coldPath_retrieval; apply Qle_refl |].
  split; [intros t' E; apply coldPath_value, E |].
  intros T n m. subst m. rewrite (@processPageContent_cold markdown prev T). fold n.
  split; [intros H; rewrite coldPath_direct; [reflexivity |];
          apply (estimatedTokens_lt n 10000); lia |].
  split; [intros H; rewrite coldPath_compact; [reflexivity | |];
          [apply (estimatedTokens_le n 10000)
          | apply (estimatedTokens_lt n 20000)]; lia |].
  split; [intros H; rewrite coldPath_standard; [reflexivity | |];
          [apply (estimatedTokens_le n 20000)
          | apply (estimatedTokens_lt n 30000)]; lia |].
  intros H; rewrite coldPath_retrieval; [reflexivity |].
  apply (estimatedTokens_le n 30000); lia.
Qed.

End RouterFacts.

(** A summary provider that tells the two sizes apart, and an index
    provider that succeeds. *)
Definition sizedSummary (markdown : string) (size : Router.SizeClass)
  : option string :=
  match size with
  | Router.Compact => Some "compact summary"%string
  | Router.Standard => Some "standard summary"%string
  end.

Definition oneChunkIndex (markdown : string) : option VectorStore :=
  Some (mkVectorStore ["chunk"%string] [None]).

Lemma coldPath_thresholds_witness :
  Router.documentSummary
    (fst (Router.coldPath sizedSummary oneChunkIndex oneChunkIndex
            "page"%string (Router.estimatedTokens 32000)
            Router.initialMode))
  = None
  /\ Router.documentSummary
       (fst (Router.coldPath sizedSummary oneChunkIndex oneChunkIndex
               "page"%string (Router.estimatedTokens 60000)
               Router.initialMode))
     = Some "compact summary"%string
  /\ Router.documentSummary
       (fst (Router.coldPath sizedSummary oneChunkIndex oneChunkIndex
               "page"%string (Router.estimatedTokens 100000)
               Router.initialMode))
     = Some "standard summary"%string
  /\ Router.decisionOf
       (fst (Router.coldPath sizedSummary oneChunkIndex oneChunkIndex
               "page"%string (Router.estimatedTokens 120000)
               Router.initialMode))
     = Router.DPureRetrieval.
Proof.
  split; [| split; [| split]].
  - rewrite (proj1 (coldPath_thresholds sizedSummary oneChunkIndex
                      oneChunkIndex "page"%string
                      (Router.estimatedTokens 32000) Router.initialMode)
               eq_refl).
    reflexivity.
  - rewrite (proj1 (proj2 (coldPath_thresholds sizedSummary oneChunkIndex
                             oneChunkIndex "page"%string
                             (Router.estimatedTokens 60000)
                             Router.initialMode)));
      [reflexivity | discriminate | reflexivity].
  - rewrite (proj1 (proj2 (proj2
               (coldPath_thresholds sizedSummary oneChunkIndex
                  oneChunkIndex "page"%string
                  (Router.estimatedTokens 100000) Router.initialMode))));
      [reflexivity | discriminate | reflexivity].
  - rewrite (proj1 (proj2 (proj2 (proj2
               (coldPath_thresholds sizedSummary oneChunkIndex
                  oneChunkIndex "page"%string
                  (Router.estimatedTokens 120000) Router.initialMode)))));
      [reflexivity | discriminate].
Defined.

(** ** Processing cache: the warm path *)

Section WarmPathFacts.

Import Router.
Local Open Scope Q_scope.

(** A cache entry as a successful Hybrid run writes it. *)
Definition hybridEntry : CacheEntry :=
  mkCacheEntry (Some "summary"%string)
               (Some (mkCachedStore (Some ["chunk"%string])
                                    (Some [Some [1%float]])))
               0 "https://example.org/"%string.

(** C6, as stated, fails: a warm hit whose entry holds both a summary
    and an index is routed to Direct when the page at that URL now
    estimates to fewer than 10,000 tokens. *)
Lemma warmPath_rereads_estimate :
  ~ (forall (t : Q) (prev : Mode) (c : CacheEntry),
        isWarm (Some c) = true ->
        JS.truthyOpt (restoreSummary c) = true ->
        hasStore (restoreVectorStore (vectorStore prev) c) = true ->
        decisionOf (warmPath t prev c) = DHybrid).
Proof.
  intros H.
  specialize (H 8000 initialMode hybridEntry eq_refl eq_refl eq_refl).
  discriminate H.
Qed.

(** C6, amended. On a warm hit with an estimate below 10,000 the mode is
    Direct whatever was cached; with an estimate of 10,000 or more the
    mode follows the restored artifacts alone: summary and index give
    Hybrid, an index without summary gives PureRetrieval, no index gives
    the Direct fallback. *)
Theorem warmPath_decision :
  forall (t : Q) (prev : Mode) (c : CacheEntry),
    let m := warmPath t prev c in
    let summary := restoreSummary c in
    let store := restoreVectorStore (vectorStore prev) c in
    (t < 10000 -> decisionOf m = DDirect /\ chain m = Some ChainStuffing)
    /\ (10000 <= t ->
        (JS.truthyOpt summary = true -> hasStore store = true ->
         decisionOf m = DHybrid /\ chain m = Some ChainHybrid)
        /\ (JS.truthyOpt summary = false -> hasStore store = true ->
            decisionOf m = DPureRetrieval /\ chain m = Some ChainRAG)
        /\ (hasStore store = false ->
            decisionOf m = DDirect /\ chain m = Some ChainStuffing))
    /\ documentSummary m = summary
    /\ vectorStore m = store.
Proof.
  intros t prev c m summary store. subst m. unfold warmPath.
  fold summary. fold store.
  destruct (Qlt_le_dec t 10000) as [lt | ge].
  - split; [intros _; split; reflexivity |].
    split; [intros H; lra | split; reflexivity].
  - split; [intros H; lra |].
    destruct (JS.truthyOpt summary) eqn:Es; destruct store as [vs |]; simpl;
      (split; [intros _ | split; reflexivity]);
      repeat split; intros; try discriminate; reflexivity.
Qed.

(** A warm hit is an entry with a stored index; [processPageContent]
    then takes the warm path, whatever the provider calls would give. *)
Lemma processPageContent_warm
    (generateSummary : string -> SizeClass -> option string)
    (rag ragAgain : string -> option VectorStore)
    (markdown : string) (prev : Mode) (c : CacheEntry) :
  JS.truthy markdown = true ->
  isWarm (Some c) = true ->
  processPageContent generateSummary rag ragAgain (Some markdown) prev (Some c)
  = warmPath (estimatedTokens (Z.of_nat (String.length markdown))) prev c.
Proof.
  intros T W. unfold processPageContent. rewrite T, W. reflexivity.
Qed.

(** What [saveProcessingCache] wrote under a tab and URL is what
    [loadProcessingCache] finds there. *)
Lemma load_after_save (st : Storage) (tabId url : string)
    (summary : option string) (vs : CachedStore) (now : Z) :
  JS.truthy tabId = true -> JS.truthy url = true ->
  loadProcessingCache
    (saveProcessingCache st (Some tabId) (Some url) summary vs now)
    (Some tabId) (Some url)
  = Some (mkCacheEntry summary (Some vs) now url).
Proof.
  intros Tt Tu. unfold loadProcessingCache, saveProcessingCache.
  rewrite Tt, Tu. simpl. rewrite !String.eqb_refl. reflexivity.
Qed.

Lemma warmPath_decision_witness :
  decisionOf (warmPath 15000 initialMode hybridEntry) = DHybrid
  /\ decisionOf (warmPath 8000 initialMode hybridEntry) = DDirect.
Proof.
  split.
  - refine (proj1 (proj1 (proj1 (proj2
             (warmPath_decision 15000 initialMode hybridEntry)) _) _ _)).
    + discriminate.
    + reflexivity.
    + reflexivity.
  - refine (proj1 (proj1 (warmPath_decision 8000 initialMode hybridEntry) _)).
    reflexivity.
Defined.

End WarmPathFacts.

(** ** Truncation *)

Section TruncationFacts.

Import Chunking.
Local Open Scope Z_scope.

(** C10. A text no longer than the budget comes back unchanged, whatever
    the splitter would do: it is not consulted and no marker is added. *)
Theorem truncateMarkdownSafely_within_budget :
  forall (splitMarkdown : ChunkConfig -> string -> option (list string))
         (markdown : string) (maxChars : Z),
    len markdown <= maxChars ->
    truncateMarkdownSafely splitMarkdown markdown maxChars = markdown.
Proof.
  intros split markdown maxChars H. unfold truncateMarkdownSafely.
  destruct (Z.leb_spec (len markdown) maxChars) as [_ | gt];
    [reflexivity | lia].
Qed.

Lemma truncateMarkdownSafely_within_budget_witness :
  truncateMarkdownSafely (fun _ _ => None) "# Title" 50000
  = "# Title"%string.
Proof.
  apply truncateMarkdownSafely_within_budget. vm_compute. discriminate.
Defined.

(** The overlap handed to the splitter stays between a tenth and a fifth
    of the chunk size. *)
Lemma getOptimalChunkConfig_overlap (documentLength : Z) (large : bool) :
  let c := getOptimalChunkConfig documentLength large in
  10 * chunkOverlap c <= 2 * chunkSize c
  /\ chunkSize c <= 10 * chunkOverlap c.
Proof.
  unfold getOptimalChunkConfig, sizeBand.
  destruct large;
    repeat break_if; vm_compute; split; discriminate.
Qed.

End TruncationFacts.

(** ** Model fallback *)

Section FallbackFacts.

Import Fallback.
Local Open Scope nat_scope.

Definition lastIndex : nat := List.length MODEL_FALLBACK_CHAIN - 1.

Lemma getNextModel_some (s : State) :
  currentModelIndex s < lastIndex ->
  exists m, getNextModel s = Some m.
Proof.
  unfold getNextModel, lastIndex. destruct s as [i q h p a l o]; simpl.
  intros H. do 3 (destruct i as [| i]; [eexists; reflexivity |]). lia.
Qed.

Lemma getNextModel_none (s : State) :
  lastIndex <= currentModelIndex s -> getNextModel s = None.
Proof.
  unfold getNextModel, lastIndex. simpl. intros H.
  destruct (Nat.ltb_spec (currentModelIndex s) 3); [lia | reflexivity].
Qed.

Lemma getNextModel_none_iff (s : State) :
  getNextModel s = None <-> lastIndex <= currentModelIndex s.
Proof.
  split; [| apply getNextModel_none].
  intros H. destruct (Nat.le_gt_cases lastIndex (currentModelIndex s)) as [g | l];
    [exact g |].
  destruct (getNextModel_some s l) as [m E]. congruence.
Qed.

(** The advance operation moves the cursor by one or leaves it. *)
Lemma switchToNextModel_index (s : State) :
  (snd (switchToNextModel s) = true
   /\ currentModelIndex s < lastIndex
   /\ currentModelIndex (fst (switchToNextModel s)) = S (currentModelIndex s))
  \/ (snd (switchToNextModel s) = false
      /\ lastIndex <= currentModelIndex s
      /\ fst (switchToNextModel s) = s).
Proof.
  unfold switchToNextModel.
  destruct (getNextModel s) as [m |] eqn:E.
  - left. simpl. repeat split.
    destruct (Nat.le_gt_cases lastIndex (currentModelIndex s)) as [g | l];
      [| exact l].
    rewrite (getNextModel_none s g) in E. discriminate.
  - right. simpl. repeat split. apply getNextModel_none_iff, E.
Qed.

Lemma showModelSwitchPrompt_index (s : State) :
  currentModelIndex (fst (showModelSwitchPrompt s)) = currentModelIndex s.
Proof.
  unfold showModelSwitchPrompt. destruct (getNextModel s); reflexivity.
Qed.

(** Every step leaves the cursor or moves it one place forward, and only
    while a next model exists. *)
Lemma step_index (s : State) (e : Event) :
  currentModelIndex (fst (step s e)) = currentModelIndex s
  \/ (currentModelIndex s < lastIndex
      /\ currentModelIndex (fst (step s e)) = S (currentModelIndex s)).
Proof.
  destruct e; simpl.
  - left; reflexivity.
  - left. unfold onFetchResponse.
    repeat break_if; reflexivity.
  - left. unfold onTimer.
    match goal with
    | |- context [getNextModel ?x] => destruct (getNextModel x)
    end; [| reflexivity].
    break_if; [| reflexivity].
    rewrite showModelSwitchPrompt_index. reflexivity.
  - left. rewrite showModelSwitchPrompt_index. reflexivity.
  - left; reflexivity.
  - unfold onClickSwitch. destruct (openPrompts s) as [| n]; [left; reflexivity |].
    match goal with
    | |- context [switchToNextModel ?x] =>
        destruct (switchToNextModel_index x) as [[Hb [Hl Hi]] | [Hb [Hl Hi]]];
        destruct (switchToNextModel x) as [s2 b]
    end; simpl in *; subst b.
    + right. split; [exact Hl |].
      destruct (JS.truthyOpt (lastFailedQuestion s2));
        [destruct (lastFailedQuestion s2) |]; simpl; exact Hi.
    + left. subst s2. reflexivity.
  - left. unfold onClickCancel. destruct (openPrompts s); reflexivity.
Qed.

Lemma run_index (es : list Event) :
  forall s, currentModelIndex s <= currentModelIndex (fst (run s es)).
Proof.
  induction es as [| e rest IH]; intros s; simpl; [lia |].
  destruct (step s e) as [s1 out1] eqn:E1.
  specialize (IH s1).
  destruct (run s1 rest) as [s2 out2]. simpl in *.
  pose proof (step_index s e) as H. rewrite E1 in H. simpl in H. lia.
Qed.

Lemma reachable_in_chain (s : State) :
  Reachable s -> currentModelIndex s <= lastIndex.
Proof.
  induction 1 as [| s e R IH]; [unfold lastIndex; simpl; lia |].
  destruct (step_index s e) as [H | [H1 H2]]; lia.
Qed.

(** With the cursor on the last model nothing offers a switch, and the
    two places that report a rate limit show the final message. *)
Lemma exhausted_step (s : State) (e : Event) :
  lastIndex <= currentModelIndex s ->
  (forall c n, ~ In (SwitchPrompt c n) (snd (step s e)))
  /\ (forall m, e = TimerFired m -> snd (step s e) = [FinalRateLimitMessage])
  /\ (forall q, e = SendRateLimited q ->
      snd (step s e) = [FinalRateLimitMessage]).
Proof.
  intros H.
  assert (T : forall m,
             snd (step s (TimerFired m)) = [FinalRateLimitMessage]).
  { intros m. simpl. unfold onTimer.
    match goal with
    | |- context [getNextModel ?x] =>
        rewrite (getNextModel_none x) by exact H
    end. reflexivity. }
  assert (Q : forall q,
             snd (step s (SendRateLimited q)) = [FinalRateLimitMessage]).
  { intros q. simpl. unfold showModelSwitchPrompt.
    match goal with
    | |- context [getNextModel ?x] =>
        rewrite (getNextModel_none x) by exact H
    end. reflexivity. }
  split; [| split; intros x ->; auto].
  intros c n. destruct e.
  - simpl. tauto.
  - simpl. unfold onFetchResponse.
    repeat break_if; simpl; intuition discriminate.
  - rewrite T. simpl. intuition discriminate.
  - rewrite Q. simpl. intuition discriminate.
  - simpl. tauto.
  - simpl. unfold onClickSwitch. destruct (openPrompts s); [simpl; tauto |].
    unfold switchToNextModel.
    match goal with
    | |- context [getNextModel ?x] =>
        rewrite (getNextModel_none x) by exact H
    end. simpl. tauto.
  - simpl. unfold onClickCancel. destruct (openPrompts s); simpl; tauto.
Qed.

(** The entries of the chain have different names. *)
Lemma chain_names_distinct (i j : nat) (m m' : Model) :
  nth_error MODEL_FALLBACK_CHAIN i = Some m ->
  nth_error MODEL_FALLBACK_CHAIN j = Some m' ->
  i <> j -> name m <> name m'.
Proof.
  intros Hi Hj D.
  destruct i as [| [| [| [| i]]]]; simpl in Hi;
    try (destruct i; discriminate Hi);
    destruct j as [| [| [| [| j]]]]; simpl in Hj;
    try (destruct j; discriminate Hj);
    try (exfalso; apply D; reflexivity);
    injection Hi as <-; injection Hj as <-; simpl; discriminate.
Qed.

(** A click on "Switch Model & Continue" while a next model exists moves
    the cursor to that model. *)
Lemma clickSwitch_advances (s : State) :
  0 < openPrompts s ->
  currentModelIndex s < lastIndex ->
  currentModelIndex (fst (step s ClickSwitch)) = S (currentModelIndex s)
  /\ getCurrentModel (fst (step s ClickSwitch)) = getNextModel s.
Proof.
  intros Open L.
  assert (I : currentModelIndex (fst (step s ClickSwitch))
              = S (currentModelIndex s)).
  { simpl. unfold onClickSwitch.
    destruct (openPrompts s) as [| n]; [lia |].
    unfold switchToNextModel.
    match goal with
    | |- context [getNextModel ?x] =>
        destruct (getNextModel_some x) as [next E]; [exact L |]; rewrite E
    end.
    cbn [setIndex lastFailedQuestion currentModelIndex].
    match goal with
    | |- context [getCurrentModel ?x] => destruct (getCurrentModel x)
    end;
      destruct (JS.truthyOpt (lastFailedQuestion s));
      try destruct (lastFailedQuestion s); reflexivity. }
  split; [exact I |].
  unfold getCurrentModel, getNextModel. rewrite I.
  unfold lastIndex in L.
  destruct (Nat.ltb_spec (currentModelIndex s)
                         (List.length MODEL_FALLBACK_CHAIN - 1)); [| lia].
  rewrite Nat.add_1_r. reflexivity.
Qed.

(** C7. In every state the coordinator can reach, a step never moves the
    cursor back and never past the last model, and so does any run; the
    advance operation yields no model exactly when the cursor is on the
    last entry; and from then on a rate-limit report shows the final
    all-models message and never a switch prompt.  Before that the
    advance operation succeeds and moves the cursor by one, as does a
    click on the switch button of an open prompt, which makes the next
    model the current one; and once a run has moved the cursor, the
    current model has another name than the one it left. *)
Theorem fallback_chain_monotone :
  forall (s : State) (e : Event),
    Reachable s ->
    currentModelIndex s <= currentModelIndex (fst (step s e))
    /\ currentModelIndex (fst (step s e)) <= lastIndex
    /\ (forall es, currentModelIndex s <= currentModelIndex (fst (run s es)))
    /\ (getNextModel s = None <-> currentModelIndex s = lastIndex)
    /\ (snd (switchToNextModel s) = false <-> currentModelIndex s = lastIndex)
    /\ (currentModelIndex s = lastIndex ->
        (forall c n, ~ In (SwitchPrompt c n) (snd (step s e)))
        /\ (forall m, e = TimerFired m ->
            snd (step s e) = [FinalRateLimitMessage])
        /\ (forall q, e = SendRateLimited q ->
            snd (step s e) = [FinalRateLimitMessage]))
    /\ (currentModelIndex s < lastIndex ->
        snd (switchToNextModel s) = true
        /\ currentModelIndex (fst (switchToNextModel s))
           = S (currentModelIndex s))
    /\ (e = ClickSwitch -> 0 < openPrompts s ->
        currentModelIndex s < lastIndex ->
        currentModelIndex (fst (step s e)) = S (currentModelIndex s)
        /\ getCurrentModel (fst (step s e)) = getNextModel s)
    /\ (forall es m m',
          currentModelIndex s < currentModelIndex (fst (run s es)) ->
          getCurrentModel s = Some m ->
          getCurrentModel (fst (run s es)) = Some m' ->
          name m <> name m').
Proof.
  intros s e R.
  pose proof (reachable_in_chain R) as B.
  pose proof (reachable_in_chain (ReachStep e R)) as B'.
  split; [destruct (step_index s e) as [H | [H1 H2]]; lia |].
  split; [exact B' |].
  split; [intros es; apply run_index |].
  split; [rewrite getNextModel_none_iff; lia |].
  split.
  { destruct (switchToNextModel_index s) as [[Hb [Hl Hi]] | [Hb [Hl Hi]]];
      rewrite Hb; split; intros; try discriminate; try lia; reflexivity. }
  split; [intros L; apply exhausted_step; lia |].
  split.
  { intros L.
    destruct (switchToNextModel_index s) as [[Hb [Hl Hi]] | [Hb [Hl Hi]]];
      [split; assumption | lia]. }
  split; [intros -> Open L; apply clickSwitch_advances; assumption |].
  intros es m m' Moved Hm Hm'. unfold getCurrentModel in Hm, Hm'.
  apply (@chain_names_distinct _ _ m m' Hm Hm'). lia.
Qed.

(** Every model of the chain is rate limited in turn, and the user
    switches each time. *)
Definition rateLimited : Event := SendRateLimited "What is this page about?".

Lemma fallback_chain_monotone_witness :
  let s1 := fst (step initialState rateLimited) in
  let s2 := fst (step s1 ClickSwitch) in
  let s3 := fst (step s2 rateLimited) in
  let s4 := fst (step s3 ClickSwitch) in
  let s5 := fst (step s4 rateLimited) in
  let s6 := fst (step s5 ClickSwitch) in
  currentModelIndex s2 = 1
  /\ getCurrentModel s2 = nth_error MODEL_FALLBACK_CHAIN 1
  /\ currentModelIndex s6 = lastIndex
  /\ getNextModel s6 = None
  /\ snd (step s6 rateLimited) = [FinalRateLimitMessage].
Proof.
  intros s1 s2 s3 s4 s5 s6.
  pose proof (ReachStep rateLimited ReachInit) as R1. fold s1 in R1.
  pose proof (ReachStep ClickSwitch R1) as R2. fold s2 in R2.
  pose proof (ReachStep rateLimited R2) as R3. fold s3 in R3.
  pose proof (ReachStep ClickSwitch R3) as R4. fold s4 in R4.
  pose proof (ReachStep rateLimited R4) as R5. fold s5 in R5.
  pose proof (ReachStep ClickSwitch R5) as R6. fold s6 in R6.
  destruct (fallback_chain_monotone ClickSwitch R1)
    as [_ [_ [_ [_ [_ [_ [_ [Click _]]]]]]]].
  destruct (Click eq_refl) as [C1 C2]; [vm_compute; lia | vm_compute; lia |].
  destruct (fallback_chain_monotone rateLimited R6)
    as [_ [_ [_ [None_ [_ [Final _]]]]]].
  assert (L6 : currentModelIndex s6 = lastIndex) by (vm_compute; reflexivity).
  split; [exact C1 |]. split; [exact C2 |]. split; [exact L6 |].
  split; [apply None_, L6 |].
  apply (proj2 (proj2 (Final L6)) "What is this page about?"%string eq_refl).
Defined.

End FallbackFacts.

(** ** Rate-limit detection *)

Section DetectionFacts.

Import Fallback.
Local Open Scope Z_scope.

Definition apiUrl : string :=
  "https://generativelanguage.googleapis.com/v1beta/models/gemini:streamGenerateContent".

(** A question is rate limited at time 10000; the prompt appears; the
    user switches at once and the question is sent again. *)
Definition quickSwitch : list Event :=
  [ SendStarted "10000-abc";
    FetchResponse (Some "10000-abc"%string) 429 apiUrl 10000;
    TimerFired (Some "What is this page about?"%string);
    SendFinished;
    ClickSwitch;
    SendStarted "11500-def" ].

Definition timeOf (known : option Z) : Z :=
  match known with
  | Some t => t
  | None => 0
  end.

Lemma honors_onFetchResponse (s : State) (status : Z) (url : string) (now : Z) :
  onFetchResponse s status url now
  = if honors s status url now
    then (mkState (currentModelIndex s) (lastFailedQuestion s) true
                  (rateLimitPromptShown s) (activeRequestId s) now
                  (openPrompts s),
          [DetectionHonored now])
    else (s, []).
Proof.
  unfold onFetchResponse, honors.
  destruct ((status =? 429) && JS.includes apiHost url)%bool; simpl;
    [| reflexivity].
  destruct (JS.truthyOpt (activeRequestId s)); simpl; [| reflexivity].
  destruct (now - lastRateLimitTime s <? RATE_LIMIT_COOLDOWN); simpl;
    [reflexivity |].
  destruct (isHandlingRateLimit s); reflexivity.
Qed.

Lemma showModelSwitchPrompt_time (s : State) :
  lastRateLimitTime (fst (showModelSwitchPrompt s)) = lastRateLimitTime s.
Proof.
  unfold showModelSwitchPrompt. destruct (getNextModel s); reflexivity.
Qed.

(** The stored time is that of the last honored detection no click has
    followed, and 0 when there is none. *)
Lemma step_time (known : option Z) (s : State) (e : Event) :
  lastRateLimitTime s = timeOf known ->
  lastRateLimitTime (fst (step s e))
  = timeOf (lastUnansweredDetection known s e).
Proof.
  intros H. destruct e; simpl; try exact H.
  - rewrite honors_onFetchResponse.
    destruct (honors s status url now); simpl; [reflexivity | exact H].
  - unfold onTimer.
    match goal with
    | |- context [getNextModel ?x] => destruct (getNextModel x)
    end; [| exact H].
    break_if; [| exact H].
    rewrite showModelSwitchPrompt_time. exact H.
  - rewrite showModelSwitchPrompt_time. exact H.
  - unfold onClickSwitch. destruct (openPrompts s) as [| n]; [exact H |].
    unfold switchToNextModel.
    match goal with
    | |- context [getNextModel ?x] => destruct (getNextModel x)
    end; simpl; [| reflexivity].
    break_if; [| reflexivity].
    match goal with
    | |- context [match ?o with Some _ => _ | None => _ end] => destruct o
    end; reflexivity.
  - unfold onClickCancel. destruct (openPrompts s); [exact H | reflexivity].
Qed.

Lemma runTracking_time (es : list Event) :
  forall (known : option Z) (s : State),
    lastRateLimitTime s = timeOf known ->
    lastRateLimitTime (snd (runTracking lastUnansweredDetection known s es))
    = timeOf (fst (runTracking lastUnansweredDetection known s es)).
Proof.
  induction es as [| e rest IH]; intros known s H; simpl; [exact H |].
  apply IH, step_time, H.
Qed.


(** The first guard asks for an active request, not for the request of
    the answer: a 429 answer to a fetch issued outside any question is
    honored while a question is in flight. *)
Lemma foreign_response_honored :
  ~ (forall (es : list Event) (issuedBy : option string) (status : Z)
            (url : string) (now : Z),
        In (DetectionHonored now)
           (snd (step (fst (run initialState es))
                      (FetchResponse issuedBy status url now))) ->
        issuedBy = activeRequestId (fst (run initialState es))).
Proof.
  intros H.
  specialize (H [SendStarted "20000-xyz"] None 429 apiUrl 20500).
  assert (I : In (DetectionHonored 20500)
                 (snd (step (fst (run initialState [SendStarted "20000-xyz"]))
                            (FetchResponse None 429 apiUrl 20500))))
    by (vm_compute; left; reflexivity).
  specialize (H I). vm_compute in H. discriminate H.
Qed.



End DetectionFacts.

(** ** The Hybrid controller *)

Section HybridFacts.

Import Chat.
Local Open Scope nat_scope.

(** The text a stream delivers, added to what was there. *)
Definition received (fullResponse : string) (r : StreamResult) : string :=
  fold_left append (pieces r) fullResponse.

Definition countRetrievals (cs : list Call) : nat :=
  List.length (filter (fun c => match c with Retrieval _ _ _ => true | _ => false end) cs).

Definition countDetailCompletions (cs : list Call) : nat :=
  List.length (filter (fun c => match c with DetailCompletion _ _ _ => true | _ => false end) cs).

(** The assistant bubble after a stream has been drawn into it. *)
Definition drawn (before : option string) (fullResponse : string)
    (r : StreamResult) : option string :=
  match pieces r with
  | [] => before
  | _ :: _ => Some (received fullResponse r)
  end.

Lemma renderPieces_run (ps : list string) :
  forall (fullResponse : string) (u : UI),
    renderPieces fullResponse ps u
    = (Done (fold_left append ps fullResponse),
       mkUI (calls u)
            (match ps with
             | [] => messageDiv u
             | _ :: _ => Some (fold_left append ps fullResponse)
             end)).
Proof.
  induction ps as [| p rest IH]; intros fullResponse u.
  - destruct u; reflexivity.
  - simpl. unfold bind, show. rewrite IH. simpl.
    destruct rest; reflexivity.
Qed.

Lemma consume_run (fullResponse : string) (r : StreamResult) (u : UI) :
  consume fullResponse r u
  = (match failure r with
     | Some e => Thrown e
     | None => Done (received fullResponse r)
     end,
     mkUI (calls u) (drawn (messageDiv u) fullResponse r)).
Proof.
  unfold consume, bind. rewrite renderPieces_run.
  unfold received, drawn. destruct (failure r); reflexivity.
Qed.

Variable chainStream : string -> string -> History -> StreamResult.
Variable retrievalStream :
  string -> string -> string -> History -> StreamResult.
Variable embedQuery : string -> option Vec.
Variable splitMarkdown : Chunking.ChunkConfig -> string -> option (list string).
Variable detailNeeded : string -> string.

Let answerHybrid' :=
  answerHybrid chainStream retrievalStream embedQuery detailNeeded.
Let handleSend' :=
  handleSend chainStream retrievalStream embedQuery splitMarkdown detailNeeded.

(** The Hybrid branch, case by case. *)
Lemma answerHybrid_run (summary : string) (vs : VectorStore)
    (question : string) (history : History) :
  let first := chainStream summary question history in
  let context := JS.join Index.separator (retrieve embedQuery vs question) in
  let second := retrievalStream summary context question history in
  answerHybrid' summary vs question history emptyUI
  = match failure first with
    | Some e =>
        (Thrown e,
         mkUI [Completion summary question]
              (drawn (Some EmptyString) EmptyString first))
    | None =>
        if JS.includes sentinel (received EmptyString first) then
          if JS.truthy context then
            (match failure second with
             | Some e => Thrown e
             | None => Done (received EmptyString second)
             end,
             mkUI [Completion summary question;
                   Retrieval question 4 0.5;
                   DetailCompletion summary context question]
                  (drawn (Some ("Searching for "
                                ++ detailNeeded (received EmptyString first)
                                ++ "...")%string)
                         EmptyString second))
          else
            (Done (received EmptyString first),
             mkUI [Completion summary question; Retrieval question 4 0.5]
                  (Some notFoundMessage))
        else
          (Done (received EmptyString first),
           mkUI [Completion summary question]
                (drawn (Some EmptyString) EmptyString first))
    end.
Proof.
  intros first context second.
  unfold answerHybrid', answerHybrid, bind, show, logCall, emptyUI. simpl.
  rewrite consume_run. fold first. simpl.
  destruct (failure first) as [e |]; [reflexivity |].
  destruct (JS.includes sentinel (received EmptyString first)); [| reflexivity].
  fold context.
  destruct (JS.truthy context); [| reflexivity].
  rewrite consume_run. fold second. reflexivity.
Qed.

(** The session is in Hybrid mode and ready to answer. *)
Definition hybridReady (mode : Router.Mode) (pageText : option string)
    (question summary : string) (vs : VectorStore) : Prop :=
  Router.useHybridMode mode = true
  /\ Router.documentSummary mode = Some summary
  /\ JS.truthy summary = true
  /\ Router.vectorStore mode = Some vs
  /\ Router.chain mode <> None
  /\ pageText <> None
  /\ JS.truthy question = true.

Lemma handleSend_hybrid (mode : Router.Mode) (pageText : option string)
    (question summary : string) (vs : VectorStore) (history : History) :
  hybridReady mode pageText question summary vs ->
  ui (handleSend' mode pageText question history)
  = snd (answerHybrid' summary vs question history emptyUI)
  /\ outcome (handleSend' mode pageText question history)
     = match fst (answerHybrid' summary vs question history emptyUI) with
       | Done fullResponse => Answered fullResponse
       | Thrown e => Failed e
       end.
Proof.
  intros [Hh [Hs [Ht [Hv [Hc [Hp Hq]]]]]].
  unfold handleSend', handleSend. rewrite Hq. simpl.
  destruct pageText as [page |]; [| congruence].
  destruct (Router.chain mode) as [c |]; [| congruence].
  rewrite Hh, Hs, Hv, Ht.
  fold answerHybrid'.
  destruct (answerHybrid' summary vs question history emptyUI) as [[a | e] u];
    split; reflexivity.
Qed.

(** C2. For a question answered in Hybrid mode the calls are: the
    summary-stage completion; then, only when that stage ended without
    error and its response contains the marker, one retrieval with the
    question; then, only when the retrieved context is not empty, one
    detail-stage completion.  Nothing follows the detail stage, whatever
    its response contains: there is at most one retrieval and at most one
    second completion per question. *)
Theorem hybrid_escalates_once :
  forall (mode : Router.Mode) (pageText : option string)
         (question summary : string) (vs : VectorStore) (history : History),
    hybridReady mode pageText question summary vs ->
    let r := handleSend' mode pageText question history in
    let first := chainStream summary question history in
    let context := JS.join Index.separator (retrieve embedQuery vs question) in
    let second := retrievalStream summary context question history in
    let escalates :=
      match failure first with
      | Some _ => false
      | None => JS.includes sentinel (received EmptyString first)
      end in
    calls (ui r)
    = Completion summary question
      :: (if escalates
          then Retrieval question 4 0.5
               :: (if JS.truthy context
                   then [DetailCompletion summary context question]
                   else [])
          else [])
    /\ countRetrievals (calls (ui r)) <= 1
    /\ countDetailCompletions (calls (ui r)) <= 1
    /\ (countRetrievals (calls (ui r)) = 1 <-> escalates = true)
    /\ (countDetailCompletions (calls (ui r)) = 1 ->
        JS.includes sentinel (received EmptyString first) = true)
    /\ (escalates = true -> JS.truthy context = true ->
        JS.includes sentinel (received EmptyString second) = true ->
        countRetrievals (calls (ui r)) = 1
        /\ countDetailCompletions (calls (ui r)) = 1
        /\ (failure second = None ->
            outcome r = Answered (received EmptyString second))).
Proof.
  intros mode pageText question summary vs history Ready r first context
         second escalates.
  destruct (handleSend_hybrid history Ready) as [Hu Ho].
  fold r in Hu, Ho. rewrite Hu. rewrite Ho.
  rewrite (answerHybrid_run summary vs question history).
  fold first. fold context. fold second. subst escalates.
  unfold countRetrievals, countDetailCompletions.
  destruct (failure first) as [e |].
  { simpl. repeat split; intros; try lia; try discriminate. }
  destruct (JS.includes sentinel (received EmptyString first)).
  - destruct (JS.truthy context); simpl.
    + repeat split; intros; try lia; try reflexivity.
      match goal with F : failure second = None |- _ => rewrite F end.
      reflexivity.
    + repeat split; intros; try lia; try reflexivity; try discriminate.
  - simpl. repeat split; intros; try lia; try discriminate.
Qed.

(** C9. When the summary stage asks for detail and retrieval returns no
    chunks, the bubble shows the fixed message, no second completion is
    issued, and the question is answered without error. *)
Theorem hybrid_empty_retrieval :
  forall (mode : Router.Mode) (pageText : option string)
         (question summary : string) (vs : VectorStore) (history : History),
    hybridReady mode pageText question summary vs ->
    let r := handleSend' mode pageText question history in
    let first := chainStream summary question history in
    failure first = None ->
    JS.includes sentinel (received EmptyString first) = true ->
    retrieve embedQuery vs question = [] ->
    messageDiv (ui r) = Some notFoundMessage
    /\ calls (ui r)
       = [Completion summary question; Retrieval question 4 0.5]
    /\ countDetailCompletions (calls (ui r)) = 0
    /\ outcome r = Answered (received EmptyString first).
Proof.
  intros mode pageText question summary vs history Ready r first Ok Marker
         Empty.
  destruct (handleSend_hybrid history Ready) as [Hu Ho].
  fold r in Hu, Ho. rewrite Hu, Ho.
  rewrite (answerHybrid_run summary vs question history).
  fold first. rewrite Ok, Marker, Empty. simpl.
  repeat split.
Qed.

End HybridFacts.

Section HybridExamples.

Import Chat.
Local Open Scope nat_scope.

Definition exampleStore : VectorStore :=
  mkVectorStore ["The launch took place on 4 May 2021."%string]
                [Some [1%float; 0%float]].

Definition exampleMode : Router.Mode :=
  Router.mkMode false false true (Some "A page about a launch."%string)
                (Some exampleStore) (Some Router.BadgeHybrid)
                (Some Router.ChainHybrid).

(** A model that asks for detail at both stages. *)
Definition askingChain (context question : string) (h : History)
  : StreamResult :=
  mkStream ["🔍 NEEDS_DETAIL:"%string; " the exact date"%string] None.

Definition askingDetailChain (summary context question : string) (h : History)
  : StreamResult :=
  mkStream ["🔍 NEEDS_DETAIL: still the exact date"%string] None.

Lemma exampleMode_ready :
  hybridReady exampleMode (Some "page text"%string) "When was the launch?"
              "A page about a launch." exampleStore.
Proof.
  repeat split; try reflexivity; discriminate.
Qed.

Lemma hybrid_escalates_once_witness :
  countRetrievals
    (calls (ui (handleSend askingChain askingDetailChain
                           (fun _ => Some [1%float; 0%float])
                           (fun _ _ => None) (fun s => s)
                           exampleMode (Some "page text"%string)
                           "When was the launch?" []))) <= 1.
Proof.
  exact (proj1 (proj2
           (hybrid_escalates_once askingChain askingDetailChain
              (fun _ => Some [1%float; 0%float]) (fun _ _ => None)
              (fun s => s) [] exampleMode_ready))).
Defined.

Lemma hybrid_empty_retrieval_witness :
  messageDiv
    (ui (handleSend askingChain askingDetailChain (fun _ => None)
                    (fun _ _ => None) (fun s => s)
                    exampleMode (Some "page text"%string)
                    "When was the launch?" []))
  = Some notFoundMessage.
Proof.
  exact (proj1
           (hybrid_empty_retrieval askingChain askingDetailChain
              (fun _ => None) (fun _ _ => None) (fun s => s) []
              exampleMode_ready eq_refl eq_refl eq_refl)).
Defined.

End HybridExamples.

(** ** Cosine similarity *)

Section CosineFacts.

Import Index.
Local Open Scope float_scope.

(** Multiplication of floats commutes. *)
Lemma float_mul_comm (x y : float) : x * y = y * x.
Proof.
  rewrite <- (SF2Prim_Prim2SF (x * y)), <- (SF2Prim_Prim2SF (y * x)).
  rewrite !mul_spec. f_equal. unfold SF64mul, SFmul.
  destruct (Prim2SF x) as [s | s | | s m e];
    destruct (Prim2SF y) as [s' | s' | | s' m' e']; simpl;
    try reflexivity; try (rewrite xorb_comm; reflexivity).
  rewrite xorb_comm, Pos.mul_comm, Z.add_comm. reflexivity.
Qed.

(** The dot product of two arrays of one length, element by element. *)
Fixpoint pairedSum (acc : float) (a b : Vec) : float :=
  match a, b with
  | x :: a', y :: b' => pairedSum (acc + x * y) a' b'
  | _, _ => acc
  end.

Lemma reduce_paired (a : Vec) :
  forall (b before : Vec) (acc : float),
    List.length a = List.length b ->
    reduceFrom (fun sum x i => sum + x * at_ (before ++ b) i) a
               (List.length before) acc
    = pairedSum acc a b.
Proof.
  induction a as [| x a IH]; intros b before acc L.
  - reflexivity.
  - destruct b as [| y b]; [discriminate |].
    simpl. unfold at_ at 2. rewrite nth_middle.
    specialize (IH b (before ++ [y]) (acc + x * y)).
    rewrite <- app_assoc in IH. simpl in IH.
    rewrite length_app, Nat.add_comm in IH. simpl in IH.
    apply IH. simpl in L. congruence.
Qed.

Lemma dotProduct_paired (a b : Vec) :
  List.length a = List.length b -> dotProduct a b = pairedSum 0 a b.
Proof.
  intros L. unfold dotProduct. exact (reduce_paired a b [] 0 L).
Qed.

Lemma pairedSum_comm (a : Vec) :
  forall (b : Vec) (acc : float), pairedSum acc a b = pairedSum acc b a.
Proof.
  induction a as [| x a IH]; intros [| y b] acc; try reflexivity.
  simpl. rewrite (float_mul_comm x y). apply IH.
Qed.

Lemma dotProduct_comm (a b : Vec) :
  List.length a = List.length b -> dotProduct a b = dotProduct b a.
Proof.
  intros L. rewrite (dotProduct_paired a b L).
  rewrite (dotProduct_paired b a (eq_sym L)). apply pairedSum_comm.
Qed.

Lemma cosineSimilarity_comm (a b : option Vec) :
  cosineSimilarity a b = cosineSimilarity b a.
Proof.
  destruct a as [a |], b as [b |]; try reflexivity. simpl.
  rewrite (Nat.eqb_sym (List.length b) (List.length a)).
  destruct (Nat.eqb_spec (List.length a) (List.length b)) as [L | L]; simpl;
    [| reflexivity].
  rewrite (dotProduct_comm a b L).
  rewrite (orb_comm (magnitude b =? 0) (magnitude a =? 0)).
  rewrite (float_mul_comm (magnitude b) (magnitude a)). reflexivity.
Qed.

(** A vector all of whose entries are zero, of either sign. *)
Definition zeroVector (v : Vec) : Prop :=
  forall x, In x v -> x = 0 \/ x = (-0).

Lemma zeroVector_sum (v : Vec) :
  forall i, zeroVector v ->
            reduceFrom (fun sum a _ => sum + a * a) v i 0 = 0.
Proof.
  induction v as [| x v IH]; intros i Z; [reflexivity |].
  simpl.
  assert (E : 0 + x * x = 0).
  { destruct (Z x (or_introl eq_refl)) as [-> | ->]; reflexivity. }
  rewrite E. apply IH. intros y Hy. apply Z. right. exact Hy.
Qed.

Lemma zeroVector_magnitude (v : Vec) :
  zeroVector v -> (magnitude v =? 0) = true.
Proof.
  intros Z. unfold magnitude. rewrite (zeroVector_sum 0 Z). reflexivity.
Qed.

Lemma cosineSimilarity_zero_magnitude (a b : Vec) :
  (magnitude a =? 0) = true \/ (magnitude b =? 0) = true ->
  cosineSimilarity (Some a) (Some b) = 0.
Proof.
  intros H. simpl.
  destruct (negb (Nat.eqb (List.length a) (List.length b))); [reflexivity |].
  destruct H as [H | H]; rewrite H; [| rewrite orb_true_r]; reflexivity.
Qed.

End CosineFacts.

(** ** The similarity formula in exact arithmetic *)

Section ExactFacts.

Local Open Scope R_scope.

Lemma exact_dot_self_nonneg (a : list R) : 0 <= Exact.dotProduct a a.
Proof.
  induction a as [| x a IH]; simpl; [Lra.lra |].
  pose proof (Rle_0_sqr x) as S. unfold Rsqr in S. Lra.lra.
Qed.

(** The Cauchy-Schwarz inequality on the paired sum. *)
Lemma exact_cauchy_schwarz (a : list R) :
  forall b : list R,
    Exact.dotProduct a b * Exact.dotProduct a b
    <= Exact.dotProduct a a * Exact.dotProduct b b.
Proof.
  induction a as [| x a IH]; intros b.
  - simpl. pose proof (exact_dot_self_nonneg b). Lra.lra.
  - destruct b as [| y b].
    + simpl. pose proof (exact_dot_self_nonneg (x :: a)) as H.
      simpl in H. Lra.lra.
    + simpl. specialize (IH b).
      pose proof (exact_dot_self_nonneg a) as HA.
      pose proof (exact_dot_self_nonneg b) as HB.
      set (D := Exact.dotProduct a b) in *.
      set (A := Exact.dotProduct a a) in *.
      set (B := Exact.dotProduct b b) in *.
      destruct (Req_dec A 0) as [A0 | A0].
      * assert (D0 : D = 0).
        { rewrite A0 in IH. apply Rsqr_0_uniq. unfold Rsqr.
          pose proof (Rle_0_sqr D) as S. unfold Rsqr in S. Lra.lra. }
        rewrite A0, D0. pose proof (Rle_0_sqr (x * y)) as S.
        unfold Rsqr in S.
        pose proof (Rmult_le_pos _ _ (Rle_0_sqr x) HB) as S2.
        unfold Rsqr in S2. Lra.lra.
      * assert (Apos : 0 < A) by Lra.lra.
        pose proof (Rle_0_sqr (x * D - A * y)) as S. unfold Rsqr in S.
        assert (K : 0 <= A * (x * x * B + A * (y * y) - 2 * (x * y * D))).
        { pose proof (Rmult_le_compat_l (x * x) _ _ (Rle_0_sqr x) IH) as M.
          unfold Rsqr in M. Lra.lra. }
        assert (K2 : 0 <= x * x * B + A * (y * y) - 2 * (x * y * D)).
        { destruct (Rle_or_lt 0 (x * x * B + A * (y * y) - 2 * (x * y * D)))
            as [ok | neg]; [exact ok |].
          pose proof (Rmult_lt_compat_l A _ 0 Apos neg) as C. Lra.lra. }
        Lra.lra.
Qed.

Lemma exact_dot_bound (a b : list R) :
  Rabs (Exact.dotProduct a b) <= Exact.magnitude a * Exact.magnitude b.
Proof.
  unfold Exact.magnitude.
  rewrite <- sqrt_mult
    by (apply exact_dot_self_nonneg).
  rewrite <- sqrt_Rsqr_abs. apply sqrt_le_1_alt. unfold Rsqr.
  apply exact_cauchy_schwarz.
Qed.

(** In exact arithmetic the similarity lies between -1 and 1. *)
Lemma exact_cosine_bounded (a b : list R) :
  -1 <= Exact.cosineSimilarity a b <= 1.
Proof.
  unfold Exact.cosineSimilarity.
  destruct (negb (Nat.eqb (List.length a) (List.length b))); [Lra.lra |].
  destruct (Req_dec_T (Exact.magnitude a) 0) as [Ea | Na]; [Lra.lra |].
  destruct (Req_dec_T (Exact.magnitude b) 0) as [Eb | Nb]; [Lra.lra |].
  assert (Pa : 0 < Exact.magnitude a).
  { pose proof (sqrt_pos (Exact.dotProduct a a)) as P.
    unfold Exact.magnitude in *. Lra.lra. }
  assert (Pb : 0 < Exact.magnitude b).
  { pose proof (sqrt_pos (Exact.dotProduct b b)) as P.
    unfold Exact.magnitude in *. Lra.lra. }
  pose proof (Rmult_lt_0_compat _ _ Pa Pb) as P.
  pose proof (exact_dot_bound a b) as B.
  assert (Q : Rabs (Exact.dotProduct a b
                    / (Exact.magnitude a * Exact.magnitude b)) <= 1).
  { unfold Rdiv. rewrite Rabs_mult.
    rewrite (Rabs_pos_eq (/ _)) by (left; apply Rinv_0_lt_compat, P).
    apply (Rmult_le_reg_r (Exact.magnitude a * Exact.magnitude b));
      [exact P |].
    rewrite Rmult_assoc, Rinv_l by Lra.lra. Lra.lra. }
  revert Q. unfold Rabs.
  destruct (Rcase_abs (Exact.dotProduct a b
                       / (Exact.magnitude a * Exact.magnitude b)));
    intros Q; Lra.lra.
Qed.

End ExactFacts.

(** ** Cosine similarity: the claim *)

Section CosineClaim.

Import Index.


(** On overflow the value is not even a number. *)
Lemma cosine_overflow_nan :
  is_nan (cosineSimilarity (Some [Z.ldexp 1 600]) (Some [Z.ldexp 1 600]))
  = true.
Proof. vm_compute. reflexivity. Qed.



End CosineClaim.

(** ** The order of doubles

    What the retrieval needs of IEEE arithmetic, from the specification
    of the primitive floats: the sign of a difference tells the order of
    its operands, and the comparisons order the floats that are numbers
    like a key. *)

Section FloatOrder.

Local Unset Implicit Arguments.
Local Open Scope Z_scope.

Lemma digits2_pos_bounds (m : positive) :
  2 ^ (Zpos (digits2_pos m) - 1) <= Zpos m < 2 ^ Zpos (digits2_pos m).
Proof.
  induction m as [m IH | m IH |]; simpl digits2_pos.
  - rewrite Pos2Z.inj_succ.
    replace (Z.succ (Zpos (digits2_pos m)) - 1) with (Z.succ (Zpos (digits2_pos m) - 1)) by lia.
    rewrite !Z.pow_succ_r by lia. lia.
  - rewrite Pos2Z.inj_succ.
    replace (Z.succ (Zpos (digits2_pos m)) - 1) with (Z.succ (Zpos (digits2_pos m) - 1)) by lia.
    rewrite !Z.pow_succ_r by lia. lia.
  - simpl. lia.
Qed.

Lemma iter_pos_nat {A : Type} (f : A -> A) (p : positive) :
  forall x, iter_pos f p x = Nat.iter (Pos.to_nat p) f x.
Proof.
  induction p as [p IH | p IH |]; intros x; cbn [iter_pos].
  - rewrite !IH, Pos2Nat.inj_xI.
    replace (S (2 * Pos.to_nat p)) with (Pos.to_nat p + S (Pos.to_nat p))%nat by lia.
    rewrite Nat.iter_add, Nat.iter_succ_r. reflexivity.
  - rewrite !IH, Pos2Nat.inj_xO.
    replace (2 * Pos.to_nat p)%nat with (Pos.to_nat p + Pos.to_nat p)%nat by lia.
    rewrite Nat.iter_add. reflexivity.
  - reflexivity.
Qed.

Lemma shr_1_m (r : shr_record) :
  0 <= shr_m r -> shr_m (shr_1 r) = shr_m r / 2.
Proof.
  destruct r as [m r s]. simpl. intros H.
  destruct m as [| p | p]; [reflexivity | | lia].
  destruct p as [p | p |]; simpl.
  - rewrite Pos2Z.inj_xI. apply Z.div_unique with (r := 1); lia.
  - rewrite Pos2Z.inj_xO. apply Z.div_unique with (r := 0); lia.
  - reflexivity.
Qed.

Lemma shr_iter_m (k : nat) (r : shr_record) :
  0 <= shr_m r ->
  shr_m (Nat.iter k shr_1 r) = shr_m r / 2 ^ Z.of_nat k.
Proof.
  intros H. induction k as [| k IH].
  - simpl. rewrite Z.div_1_r. reflexivity.
  - assert (P : 0 < 2 ^ Z.of_nat k) by (apply Z.pow_pos_nonneg; lia).
    rewrite Nat2Z.inj_succ, Z.pow_succ_r by lia. cbn [Nat.iter nat_rect].
    change (Nat.iter k shr_1 r) with (nat_rect (fun _ => shr_record) r (fun _ => shr_1) k) in IH.
    rewrite shr_1_m.
    + rewrite IH. rewrite Z.div_div by lia. rewrite (Z.mul_comm 2). reflexivity.
    + rewrite IH. apply Z.div_pos; lia.
Qed.

Abbreviation fexp64 := (SpecFloat.fexp prec emax).
Abbreviation emin64 := (SpecFloat.emin prec emax).

Lemma shr_fexp_pos (m e : Z) (l : location) :
  0 < m -> emin64 <= e ->
  0 < shr_m (fst (shr_fexp prec emax m e l))
  /\ emin64 <= snd (shr_fexp prec emax m e l).
Proof.
  intros Hm He. unfold shr_fexp, shr.
  assert (M : shr_m (shr_record_of_loc m l) = m)
    by (destruct l as [| []]; reflexivity).
  destruct m as [| p | p]; try lia.
  cbn [Zdigits2].
  pose proof (digits2_pos_bounds p) as B.
  set (d := Zpos (digits2_pos p)) in *.
  destruct (fexp64 (d + e) - e) as [| n | n] eqn:E; cbn [fst snd];
    try (rewrite M; split; lia).
  assert (N : Zpos n <= d - 1).
  { unfold fexp in E. change prec with 53 in *. lia. }
  split; [| lia].
  rewrite iter_pos_nat, shr_iter_m by (rewrite M; lia).
  rewrite M, positive_nat_Z.
  apply Z.div_str_pos. split; [apply Z.pow_pos_nonneg; lia |].
  apply Z.le_trans with (2 ^ (d - 1)); [| lia].
  apply Z.pow_le_mono_r; lia.
Qed.

Lemma round_nearest_even_pos (m : Z) (l : location) :
  0 < m -> 0 < round_nearest_even m l.
Proof.
  intros H. destruct l as [| []]; simpl; try lia.
  destruct (Z.even m); lia.
Qed.

(** Rounding a positive mantissa never gives a zero or a NaN, and keeps
    the sign. *)
Definition signedNonzero (sx : bool) (r : spec_float) : Prop :=
  match r with
  | S754_finite s _ _ => s = sx
  | S754_infinity s => s = sx
  | _ => False
  end.

Lemma binary_round_aux_pos (sx : bool) (m e : Z) (l : location) :
  0 < m -> emin64 <= e ->
  signedNonzero sx (binary_round_aux prec emax sx m e l).
Proof.
  intros Hm He. unfold binary_round_aux.
  destruct (shr_fexp_pos m e l Hm He) as [P1 E1].
  destruct (shr_fexp prec emax m e l) as [r1 e1]. cbn [fst snd] in P1, E1.
  pose proof (round_nearest_even_pos _ (loc_of_shr_record r1) P1) as P2.
  destruct (shr_fexp_pos _ _ loc_Exact P2 E1) as [P3 E3].
  destruct (shr_fexp prec emax _ e1 loc_Exact) as [r2 e2].
  cbn [fst snd] in P3, E3.
  destruct (shr_m r2); try lia.
  destruct (e2 <=? emax - prec); reflexivity.
Qed.

Lemma shl_align_snd (mx : positive) (ex ex' : Z) :
  emin64 <= ex -> emin64 <= ex' ->
  emin64 <= snd (shl_align mx ex ex').
Proof.
  intros H H'. unfold shl_align. destruct (ex' - ex); simpl; assumption.
Qed.

Lemma binary_round_pos (sx : bool) (mx : positive) (ex : Z) :
  emin64 <= ex -> signedNonzero sx (binary_round prec emax sx mx ex).
Proof.
  intros H. unfold binary_round.
  pose proof (shl_align_snd mx ex (fexp64 (Zpos (digits2_pos mx) + ex)) H) as S.
  destruct (shl_align mx ex (fexp64 (Zpos (digits2_pos mx) + ex))) as [mz ez].
  apply binary_round_aux_pos; [lia |].
  apply S. unfold SpecFloat.fexp. lia.
Qed.

Lemma pos_iter_xO (m d : positive) :
  Zpos (Pos.iter xO m d) = Zpos m * 2 ^ Zpos d.
Proof.
  induction d as [| d IH] using Pos.peano_ind.
  - simpl. lia.
  - rewrite Pos.iter_succ, Pos2Z.inj_xO, IH, Pos2Z.inj_succ.
    rewrite Z.pow_succ_r by lia. lia.
Qed.

Lemma shl_align_fst (mx : positive) (ex ez : Z) :
  ez <= ex -> Zpos (fst (shl_align mx ex ez)) = Zpos mx * 2 ^ (ex - ez).
Proof.
  intros H. unfold shl_align.
  destruct (ez - ex) as [| d | d] eqn:E; cbn [fst].
  - replace (ex - ez) with 0 by lia. lia.
  - lia.
  - rewrite pos_iter_xO. f_equal. f_equal. lia.
Qed.

Lemma bounded_canonical (m : positive) (e : Z) :
  bounded prec emax m e = true ->
  e = Z.max (Zpos (digits2_pos m) + e - 53) (-1074).
Proof.
  unfold bounded, canonical_mantissa. intros H.
  apply andb_true_iff in H. destruct H as [H _].
  apply Z.eqb_eq in H. unfold SpecFloat.fexp, SpecFloat.emin in H.
  change prec with 53 in H. change emax with 1024 in H. lia.
Qed.

Lemma scaled_lt (mx my : positive) (ex ey : Z) :
  bounded prec emax mx ex = true -> bounded prec emax my ey = true ->
  ex < ey -> Zpos mx < Zpos my * 2 ^ (ey - ex).
Proof.
  intros Bx By L.
  pose proof (bounded_canonical mx ex Bx) as Cx.
  pose proof (bounded_canonical my ey By) as Cy.
  pose proof (digits2_pos_bounds mx) as Dx.
  pose proof (digits2_pos_bounds my) as Dy.
  assert (Ey : Zpos (digits2_pos my) = 53) by lia.
  assert (Ex : Zpos (digits2_pos mx) <= 53) by lia.
  rewrite Ey in Dy.
  assert (P1 : 2 ^ Zpos (digits2_pos mx) <= 2 ^ 53)
    by (apply Z.pow_le_mono_r; lia).
  assert (P2 : 2 ^ 1 <= 2 ^ (ey - ex)) by (apply Z.pow_le_mono_r; lia).
  change (2 ^ 1) with 2 in P2. change (53 - 1) with 52 in Dy.
  change (2 ^ 53) with (2 ^ 52 * 2) in P1.
  nia.
Qed.

(** The mantissa of a finite float, scaled to the exponent [ez] and signed. *)
Definition aligned (s : bool) (m : positive) (e ez : Z) : Z :=
  cond_Zopp s (Zpos (fst (shl_align m e ez))).

Lemma aligned_min_l (s : bool) (m : positive) (ex ey : Z) :
  aligned s m ex (Z.min ex ey)
  = cond_Zopp s (Zpos m * 2 ^ (ex - Z.min ex ey)).
Proof. unfold aligned. rewrite shl_align_fst by lia. reflexivity. Qed.

Lemma aligned_min_r (s : bool) (m : positive) (ex ey : Z) :
  aligned s m ey (Z.min ex ey)
  = cond_Zopp s (Zpos m * 2 ^ (ey - Z.min ex ey)).
Proof. unfold aligned. rewrite shl_align_fst by lia. reflexivity. Qed.

Lemma SFcompare_finite (sx sy : bool) (mx my : positive) (ex ey : Z) :
  bounded prec emax mx ex = true -> bounded prec emax my ey = true ->
  SFcompare (S754_finite sx mx ex) (S754_finite sy my ey)
  = Some (aligned sx mx ex (Z.min ex ey) ?= aligned sy my ey (Z.min ex ey)).
Proof.
  intros Bx By. rewrite aligned_min_l, aligned_min_r.
  assert (Px : 0 < Zpos mx * 2 ^ (ex - Z.min ex ey))
    by (apply Z.mul_pos_pos; [lia | apply Z.pow_pos_nonneg; lia]).
  assert (Py : 0 < Zpos my * 2 ^ (ey - Z.min ex ey))
    by (apply Z.mul_pos_pos; [lia | apply Z.pow_pos_nonneg; lia]).
  unfold SFcompare. f_equal.
  destruct (Z.compare_spec ex ey) as [E | L | G].
  - subst ey. rewrite Z.min_id, Z.sub_diag in *. rewrite !Z.mul_1_r.
    destruct sx, sy; reflexivity.
  - pose proof (scaled_lt mx my ex ey Bx By L) as S.
    rewrite Z.min_l in * by lia. rewrite Z.sub_diag, Z.mul_1_r in *.
    destruct sx, sy; cbv beta iota delta [cond_Zopp]; symmetry;
      first [apply Z.compare_lt_iff | apply Z.compare_gt_iff]; lia.
  - pose proof (scaled_lt my mx ey ex By Bx ltac:(lia)) as S.
    rewrite Z.min_r in * by lia. rewrite Z.sub_diag, Z.mul_1_r in *.
    destruct sx, sy; cbv beta iota delta [cond_Zopp]; symmetry;
      first [apply Z.compare_lt_iff | apply Z.compare_gt_iff]; lia.
Qed.

Lemma binary_normalize_sign (m e : Z) :
  emin64 <= e ->
  SFltb (S754_zero false) (binary_normalize prec emax m e false)
  = (0 <? m).
Proof.
  intros H. unfold binary_normalize. destruct m as [| p | p].
  - reflexivity.
  - pose proof (binary_round_pos false p e H) as S.
    destruct (binary_round prec emax false p e); simpl in S; try contradiction;
      subst; reflexivity.
  - change (0 <? Z.neg p) with false.
    unfold binary_round.
    destruct (shl_align p e _) as [mz ez]. unfold binary_round_aux.
    destruct (shr_fexp prec emax (Z.pos mz) ez loc_Exact) as [r1 e1].
    destruct (shr_fexp prec emax _ e1 loc_Exact) as [r2 e2].
    destruct (shr_m r2); try reflexivity.
    destruct (e2 <=? emax - prec); reflexivity.
Qed.

Lemma bounded_emin (m : positive) (e : Z) :
  bounded prec emax m e = true -> emin64 <= e.
Proof.
  intros B. pose proof (bounded_canonical m e B).
  unfold SpecFloat.emin. change prec with 53. change emax with 1024. lia.
Qed.

(** The sign of a difference tells the order of its operands. *)
Lemma SFsub_sign (x y : spec_float) :
  valid_binary x = true -> valid_binary y = true ->
  x <> S754_nan -> y <> S754_nan ->
  SFltb (S754_zero false) (SF64sub y x) = SFltb x y.
Proof.
  intros Vx Vy Nx Ny. unfold SF64sub, SFsub.
  destruct x as [sx | sx | | sx mx ex]; try congruence;
    destruct y as [sy | sy | | sy my ey]; try congruence;
    try (solve [repeat match goal with
                       | b : bool |- _ => destruct b
                       end; reflexivity]).
  - simpl in Vx, Vy.
    rewrite binary_normalize_sign
      by (pose proof (bounded_emin mx ex Vx); pose proof (bounded_emin my ey Vy); lia).
    unfold SFltb. rewrite (SFcompare_finite sx sy mx my ex ey Vx Vy).
    fold (aligned sx mx ex (Z.min ey ex)). fold (aligned sy my ey (Z.min ey ex)).
    rewrite (Z.min_comm ey ex).
    destruct (Z.compare_spec (aligned sx mx ex (Z.min ex ey))
                             (aligned sy my ey (Z.min ex ey)));
      [apply Z.ltb_ge | apply Z.ltb_lt | apply Z.ltb_ge]; lia.
Qed.

Lemma not_nan_spec (x : float) : is_nan x = false -> Prim2SF x <> S754_nan.
Proof.
  unfold is_nan. rewrite eqb_spec. intros H E. rewrite E in H. discriminate.
Qed.

Lemma float_sub_pos (x y : float) :
  is_nan x = false -> is_nan y = false ->
  (0 <? y - x)%float = (x <? y)%float.
Proof.
  intros Nx Ny. rewrite !ltb_spec, sub_spec.
  change (Prim2SF 0) with (S754_zero false).
  apply SFsub_sign; auto using Prim2SF_valid, not_nan_spec.
Qed.

(** A key that orders the floats that are numbers. *)

Definition SFkey (x : spec_float) : Z * Z * Z :=
  match x with
  | S754_zero _ => (0, 0, 0)
  | S754_infinity false => (2, 0, 0)
  | S754_infinity true => (-2, 0, 0)
  | S754_nan => (0, 0, 0)
  | S754_finite false m e => (1, e, Zpos m)
  | S754_finite true m e => (-1, - e, Zneg m)
  end.

Definition lexCompare (k k' : Z * Z * Z) : comparison :=
  let '(a, b, c) := k in
  let '(a', b', c') := k' in
  match a ?= a' with
  | Eq => match b ?= b' with
          | Eq => c ?= c'
          | r => r
          end
  | r => r
  end.

Definition lexLt (k k' : Z * Z * Z) : Prop :=
  let '(a, b, c) := k in
  let '(a', b', c') := k' in
  a < a' \/ (a = a' /\ (b < b' \/ (b = b' /\ c < c'))).

Lemma lexCompare_lt (k k' : Z * Z * Z) :
  lexCompare k k' = Lt <-> lexLt k k'.
Proof.
  destruct k as [[a b] c], k' as [[a' b'] c']. unfold lexCompare, lexLt.
  destruct (Z.compare_spec a a'); destruct (Z.compare_spec b b');
    destruct (Z.compare_spec c c'); split; intros Hyp; try discriminate;
    try reflexivity; lia.
Qed.

Lemma lexCompare_eq (k k' : Z * Z * Z) :
  lexCompare k k' = Eq <-> k = k'.
Proof.
  destruct k as [[a b] c], k' as [[a' b'] c']. unfold lexCompare.
  destruct (Z.compare_spec a a'); destruct (Z.compare_spec b b');
    destruct (Z.compare_spec c c'); split; intros Hyp; try discriminate;
    try reflexivity; try (injection Hyp; intros; lia); f_equal; try f_equal; lia.
Qed.

Lemma lexCompare_gt (k k' : Z * Z * Z) :
  lexCompare k k' = Gt <-> lexLt k' k.
Proof.
  destruct k as [[a b] c], k' as [[a' b'] c']. unfold lexCompare, lexLt.
  destruct (Z.compare_spec a a'); destruct (Z.compare_spec b b');
    destruct (Z.compare_spec c c'); split; intros Hyp; try discriminate;
    try reflexivity; lia.
Qed.

Lemma SFcompare_key (x y : spec_float) :
  x <> S754_nan -> y <> S754_nan ->
  SFcompare x y = Some (lexCompare (SFkey x) (SFkey y)).
Proof.
  intros Nx Ny.
  destruct x as [sx | sx | | sx mx ex]; try congruence;
    destruct y as [sy | sy | | sy my ey]; try congruence;
    try (solve [repeat match goal with
                       | b : bool |- _ => destruct b
                       end; reflexivity]).
  destruct sx, sy; try reflexivity.
  unfold SFcompare, SFkey, lexCompare.
  change (-1 ?= -1) with Eq. cbv beta iota.
  rewrite Z.compare_opp, (Z.compare_antisym ex ey).
  destruct (ex ?= ey); reflexivity.
Qed.

Definition key (x : float) : Z * Z * Z := SFkey (Prim2SF x).

Lemma float_ltb_key (x y : float) :
  is_nan x = false -> is_nan y = false ->
  ((x <? y)%float = true <-> lexLt (key x) (key y)).
Proof.
  intros Nx Ny. rewrite ltb_spec. unfold SFltb, key.
  rewrite SFcompare_key by auto using not_nan_spec.
  rewrite <- lexCompare_lt.
  destruct (lexCompare _ _); split; intros; congruence.
Qed.

Lemma float_eqb_key (x y : float) :
  is_nan x = false -> is_nan y = false ->
  ((x =? y)%float = true <-> key x = key y).
Proof.
  intros Nx Ny. rewrite eqb_spec. unfold SFeqb, key.
  rewrite SFcompare_key by auto using not_nan_spec.
  rewrite <- lexCompare_eq.
  destruct (lexCompare _ _); split; intros; congruence.
Qed.

Lemma float_leb_key (x y : float) :
  is_nan x = false -> is_nan y = false ->
  ((x <=? y)%float = true <-> lexLt (key x) (key y) \/ key x = key y).
Proof.
  intros Nx Ny. rewrite leb_spec. unfold SFleb, key.
  rewrite SFcompare_key by auto using not_nan_spec.
  rewrite <- lexCompare_lt, <- lexCompare_eq.
  destruct (lexCompare _ _); split; intros H; try congruence; auto;
    destruct H; congruence.
Qed.

Lemma float_leb_not_nan (x y : float) :
  (x <=? y)%float = true -> is_nan x = false /\ is_nan y = false.
Proof.
  rewrite leb_spec. unfold is_nan. rewrite !eqb_spec. unfold SFleb, SFeqb.
  destruct (Prim2SF x) as [sx | sx | | sx mx ex];
    destruct (Prim2SF y) as [sy | sy | | sy my ey]; simpl;
    try discriminate; intros _.
  all: split; try reflexivity.
  all: repeat match goal with b : bool |- _ => destruct b end; try reflexivity.
  all: try (rewrite Z.compare_refl, Pos.compare_cont_refl; reflexivity).
Qed.

End FloatOrder.

(** ** The sort rearranges its argument *)

Section SortBasics.

Import Index.

Variable A : Type.
Variable comparefn : A -> A -> float.

Lemma insertSorted_In (x z : A) (l : list A) :
  In z (insertSorted comparefn x l) <-> z = x \/ In z l.
Proof.
  induction l as [| y l IH]; simpl.
  - intuition auto.
  - destruct (sortsAfter comparefn x y); simpl; [rewrite IH |];
      intuition auto.
Qed.

Lemma jsSort_In (z : A) (l : list A) :
  In z (jsSort comparefn l) <-> In z l.
Proof.
  induction l as [| x l IH]; simpl; [tauto |].
  unfold jsSort in *. rewrite insertSorted_In, IH. intuition auto.
Qed.

Lemma insertSorted_perm (x : A) (l : list A) :
  Permutation (insertSorted comparefn x l) (x :: l).
Proof.
  induction l as [| y l IH]; simpl; [apply Permutation_refl |].
  destruct (sortsAfter comparefn x y); [| apply Permutation_refl].
  apply Permutation_trans with (y :: x :: l);
    [apply perm_skip, IH | apply perm_swap].
Qed.

Lemma jsSort_perm (l : list A) : Permutation (jsSort comparefn l) l.
Proof.
  induction l as [| x l IH]; simpl; [apply Permutation_refl |].
  apply Permutation_trans with (x :: jsSort comparefn l);
    [apply insertSorted_perm | apply perm_skip, IH].
Qed.

End SortBasics.

(** ** Sorting by descending score *)

Section SortFacts.

Import Index.
Local Open Scope nat_scope.

Variable A : Type.
Variable score : A -> float.
Variable index : A -> nat.
Variable comparefn : A -> A -> float.
Hypothesis comparefn_desc :
  forall a b, comparefn a b = (score b - score a)%float.

Definition isNumber (x : A) : Prop := is_nan (score x) = false.

(** [x] ranks before [y]: a higher score, or the same score and an
    earlier place in the index. *)
Definition ranksBefore (x y : A) : Prop :=
  lexLt (key (score y)) (key (score x))
  \/ (key (score x) = key (score y) /\ index x < index y).

Lemma ranksBefore_trans (x y z : A) :
  ranksBefore x y -> ranksBefore y z -> ranksBefore x z.
Proof.
  unfold ranksBefore, lexLt.
  destruct (key (score x)) as [[a b] c].
  destruct (key (score y)) as [[a' b'] c'].
  destruct (key (score z)) as [[a'' b''] c''].
  intros [H1 | [H1 I1]] [H2 | [H2 I2]];
    try (injection H1 as -> -> ->); try (injection H2 as -> -> ->);
    try (left; lia); right; split; [reflexivity | lia].
Qed.

Lemma sortsAfter_key (x y : A) :
  isNumber x -> isNumber y ->
  (sortsAfter comparefn x y = true
   <-> lexLt (key (score x)) (key (score y))).
Proof.
  intros Nx Ny. unfold sortsAfter. rewrite comparefn_desc.
  rewrite (float_sub_pos (score x) (score y) Nx Ny).
  apply float_ltb_key; assumption.
Qed.

(** Two numbers compare one way or the other, or have one key. *)
Lemma key_trichotomy (k k' : Z * Z * Z) :
  lexLt k k' \/ k = k' \/ lexLt k' k.
Proof.
  destruct k as [[a b] c], k' as [[a' b'] c']. unfold lexLt.
  destruct (Z.lt_total a a') as [? | [? | ?]];
    destruct (Z.lt_total b b') as [? | [? | ?]];
    destruct (Z.lt_total c c') as [? | [? | ?]];
    subst; auto; try (left; lia); right; right; lia.
Qed.

Lemma insertSorted_sorted (x : A) (l : list A) :
  isNumber x -> Forall isNumber l ->
  (forall z, In z l -> index x < index z) ->
  StronglySorted ranksBefore l ->
  StronglySorted ranksBefore (insertSorted comparefn x l).
Proof.
  intros Nx. induction l as [| y l IH]; intros Nl Ix Sl; simpl.
  - constructor; [constructor | constructor].
  - inversion Nl as [| ? ? Ny Nl']; subst.
    inversion Sl as [| ? ? Sl' Fy]; subst.
    destruct (sortsAfter comparefn x y) eqn:E.
    + apply (sortsAfter_key Nx Ny) in E.
      constructor.
      * apply IH; [exact Nl' | intros z Hz; apply Ix; right; exact Hz
                  | exact Sl'].
      * apply Forall_forall. intros z Hz.
        apply (proj1 (insertSorted_In comparefn x z l)) in Hz.
        destruct Hz as [-> | Hz].
        -- left. exact E.
        -- rewrite Forall_forall in Fy. apply Fy, Hz.
    + assert (Rxy : ranksBefore x y).
      { destruct (key_trichotomy (key (score x)) (key (score y)))
          as [L | [Q | G]].
        - apply (sortsAfter_key Nx Ny) in L. congruence.
        - right. split; [exact Q | apply Ix; left; reflexivity].
        - left. exact G. }
      constructor; [exact Sl |].
      constructor; [exact Rxy |].
      rewrite Forall_forall in Fy. apply Forall_forall. intros z Hz.
      apply (ranksBefore_trans Rxy), Fy, Hz.
Qed.

(** A list whose indices grow, as [map] and [filter] leave them. *)
Definition indexOrdered (l : list A) : Prop :=
  StronglySorted (fun x y => index x < index y) l.

Lemma jsSort_sorted (l : list A) :
  Forall isNumber l -> indexOrdered l ->
  StronglySorted ranksBefore (jsSort comparefn l).
Proof.
  induction l as [| x l IH]; intros Nl Il; simpl; [constructor |].
  inversion Nl as [| ? ? Nx Nl']; subst.
  inversion Il as [| ? ? Il' Fx]; subst.
  apply insertSorted_sorted.
  - exact Nx.
  - apply Forall_forall. intros z Hz. apply (proj1 (jsSort_In comparefn z l)) in Hz.
    rewrite Forall_forall in Nl'. apply Nl', Hz.
  - intros z Hz. apply (proj1 (jsSort_In comparefn z l)) in Hz.
    rewrite Forall_forall in Fx. apply Fx, Hz.
  - apply IH; assumption.
Qed.

Lemma firstn_In (z : A) (k : nat) :
  forall l : list A, In z (firstn k l) -> In z l.
Proof.
  induction k as [| k IH]; intros [| x l] H; simpl in H; try contradiction.
  destruct H as [-> | H]; [left; reflexivity | right; apply IH, H].
Qed.

Lemma firstn_sorted (R : A -> A -> Prop) (k : nat) (l : list A) :
  StronglySorted R l -> StronglySorted R (firstn k l).
Proof.
  revert l. induction k as [| k IH]; intros l S; [constructor |].
  destruct l as [| x l]; [constructor |]. simpl.
  inversion S as [| ? ? S' F]; subst.
  constructor; [apply IH, S' |].
  rewrite Forall_forall in F. apply Forall_forall. intros z Hz.
  apply F. apply (firstn_In z k l Hz).
Qed.

Lemma sorted_nth (R : A -> A -> Prop) (l : list A) :
  StronglySorted R l ->
  forall i j x y,
    i < j -> nth_error l i = Some x -> nth_error l j = Some y -> R x y.
Proof.
  induction 1 as [| z l S IH F]; intros i j x y L Hx Hy.
  - destruct i; discriminate.
  - destruct j as [| j]; [lia |]. simpl in Hy.
    destruct i as [| i]; simpl in Hx.
    + injection Hx as ->. rewrite Forall_forall in F.
      apply F. eapply nth_error_In, Hy.
    + apply (IH i j x y); [lia | exact Hx | exact Hy].
Qed.

(** What ranking before means on the scores themselves. *)
Lemma ranksBefore_scores (x y : A) :
  isNumber x -> isNumber y -> ranksBefore x y ->
  (score y <=? score x)%float = true
  /\ ((score x =? score y)%float = true -> index x < index y).
Proof.
  intros Nx Ny R. split.
  - apply (float_leb_key _ _ Ny Nx).
    destruct R as [L | [Q I]]; [left; exact L | right; congruence].
  - intros Q. apply (float_eqb_key _ _ Nx Ny) in Q.
    destruct R as [L | [_ I]]; [| exact I].
    rewrite Q in L. exfalso.
    destruct (key (score y)) as [[a b] c]. unfold lexLt in L. lia.
Qed.

End SortFacts.

(** ** Retrieval *)

Section RetrievalFacts.

Import Index.
Local Open Scope nat_scope.

Lemma mapFrom_In (X Y : Type) (f : X -> nat -> Y) (l : list X) :
  forall (i : nat) (y : Y),
    In y (mapFrom f l i) ->
    exists n x, nth_error l n = Some x /\ y = f x (i + n).
Proof.
  induction l as [| x l IH]; intros i y H; simpl in H; [contradiction |].
  destruct H as [<- | H].
  - exists 0, x. rewrite Nat.add_0_r. split; reflexivity.
  - destruct (IH (S i) y H) as [n [x' [E ->]]].
    exists (S n), x'. split; [exact E | f_equal; lia].
Qed.

Lemma mapFrom_ordered (X Y : Type) (index : Y -> nat) (f : X -> nat -> Y)
    (l : list X) :
  (forall x i, index (f x i) = i) ->
  forall i, indexOrdered index (mapFrom f l i).
Proof.
  intros Hf. induction l as [| x l IH]; intros i; simpl; constructor.
  - apply IH.
  - apply Forall_forall. intros y Hy.
    destruct (mapFrom_In f l (S i) y Hy) as [n [x' [_ ->]]].
    rewrite !Hf. lia.
Qed.

Lemma filter_sorted (X : Type) (R : X -> X -> Prop) (p : X -> bool)
    (l : list X) :
  StronglySorted R l -> StronglySorted R (filter p l).
Proof.
  induction 1 as [| x l S IH F]; simpl; [constructor |].
  destruct (p x); [| exact IH].
  constructor; [exact IH |].
  rewrite Forall_forall in F. apply Forall_forall. intros y Hy.
  apply F. apply filter_In in Hy. apply Hy.
Qed.

Lemma firstn_length_le (X : Type) (k : nat) (l : list X) :
  List.length (firstn k l) <= k.
Proof.
  revert l. induction k as [| k IH]; intros [| x l]; simpl; try lia.
  specialize (IH l). lia.
Qed.

(** *** content.js *)

Lemma content_scoreOf_number (q : Vec) (e : option Vec) :
  is_nan (Content.scoreOf q e) = false.
Proof.
  unfold Content.scoreOf. destruct e as [e |]; [| reflexivity].
  destruct (Nat.eqb (List.length e) 0); [reflexivity |].
  destruct (negb (Nat.eqb (List.length e) (List.length q))); [reflexivity |].
  destruct (is_nan (cosineSimilarity (Some q) (Some e))) eqn:E;
    [reflexivity | exact E].
Qed.

(** A score above a positive threshold is a cosine similarity that was
    computed, not a replacement. *)
Lemma content_scoreOf_positive (q : Vec) (e : option Vec) (thr : float) :
  (0 <? thr)%float = true ->
  (thr <=? Content.scoreOf q e)%float = true ->
  exists v, e = Some v
            /\ Content.scoreOf q e = cosineSimilarity (Some q) (Some v).
Proof.
  intros P L.
  destruct (float_leb_not_nan _ _ L) as [Nt Ns].
  assert (Z0 : is_nan 0 = false) by reflexivity.
  assert (NZ : (thr <=? 0)%float = false).
  { destruct (thr <=? 0)%float eqn:E; [| reflexivity].
    apply (float_leb_key _ _ Nt Z0) in E.
    apply (float_ltb_key _ _ Z0 Nt) in P.
    destruct (key thr) as [[a b] c]. destruct (key 0) as [[a' b'] c'].
    unfold lexLt in *. destruct E as [E | E]; [lia |].
    injection E as -> -> ->. lia. }
  unfold Content.scoreOf in *. destruct e as [v |]; [| congruence].
  exists v. split; [reflexivity |].
  destruct (Nat.eqb (List.length v) 0); [congruence |].
  destruct (negb (Nat.eqb (List.length v) (List.length q))); [congruence |].
  destruct (is_nan (cosineSimilarity (Some q) (Some v)));
    [congruence | reflexivity].
Qed.

Lemma content_similarities_item (vs : VectorStore) (q : Vec)
    (item : Content.Scored) :
  In item (Content.similarities vs q) ->
  Content.index item < List.length (embeddings vs)
  /\ Content.chunk item = Content.chunkAt vs (Content.index item)
  /\ Content.score item
     = Content.scoreOf q (nth (Content.index item) (embeddings vs) None).
Proof.
  intros H. unfold Content.similarities in H.
  destruct (mapFrom_In _ _ _ _ H) as [n [e [E ->]]]. simpl.
  split; [apply nth_error_Some; congruence |].
  split; [reflexivity |].
  rewrite (nth_error_nth _ _ None E). reflexivity.
Qed.

Lemma content_survivors_numbers (vs : VectorStore) (q : Vec) (thr : float) :
  Forall (isNumber Content.score)
         (filter (Content.passes thr) (Content.similarities vs q)).
Proof.
  apply Forall_forall. intros item H. apply filter_In in H.
  destruct H as [H _].
  destruct (content_similarities_item vs q item H) as [_ [_ S]].
  unfold isNumber. rewrite S. apply content_scoreOf_number.
Qed.

Lemma content_survivors_ordered (vs : VectorStore) (q : Vec) (thr : float) :
  indexOrdered Content.index
    (filter (Content.passes thr) (Content.similarities vs q)).
Proof.
  apply filter_sorted. unfold Content.similarities.
  apply mapFrom_ordered. reflexivity.
Qed.

Lemma content_sorted (vs : VectorStore) (q : Vec) (thr : float) :
  StronglySorted (ranksBefore Content.score Content.index)
    (jsSort Content.byScoreDesc
            (filter (Content.passes thr) (Content.similarities vs q))).
Proof.
  apply jsSort_sorted.
  - reflexivity.
  - apply content_survivors_numbers.
  - apply content_survivors_ordered.
Qed.

Lemma content_selected_survivor (vs : VectorStore) (q : Vec) (k : nat)
    (thr : float) (item : Content.Scored) :
  In item (Content.selected vs q k thr) ->
  In item (Content.similarities vs q) /\ Content.passes thr item = true.
Proof.
  unfold Content.selected. intros H.
  apply firstn_In in H. apply (proj1 (jsSort_In _ _ _)) in H.
  apply filter_In in H. exact H.
Qed.

End RetrievalFacts.

(** ** Retrieval: the claim *)

Section RetrievalClaim.

Import Index.
Local Open Scope nat_scope.

Lemma nth_error_firstn_inv (X : Type) (k : nat) :
  forall (l : list X) (i : nat) (x : X),
    nth_error (firstn k l) i = Some x -> nth_error l i = Some x.
Proof.
  induction k as [| k IH]; intros l i x H.
  - destruct i; discriminate.
  - destruct l as [| y l]; [destruct i; discriminate |].
    destruct i as [| i]; [exact H | simpl in *; apply IH; exact H].
Qed.

(** An index with one chunk whose embedding overflows when squared. *)
Definition overflowStore : VectorStore :=
  mkVectorStore ["A chunk."%string] [Some [Z.ldexp 1 600]].

(** C3, as stated, fails in content.js: a similarity that is NaN is
    replaced by the score 0, which passes a threshold of 0, though NaN is
    not at least 0. *)
Lemma nan_similarity_passes_zero_threshold :
  ~ (forall (vs : VectorStore) (q : Vec) (k : nat) (thr : float)
            (item : Content.Scored),
        In item (Content.selected vs q k thr) ->
        (thr <=? cosineSimilarity (Some q)
                   (nth (Content.index item) (embeddings vs) None))%float
        = true).
Proof.
  intros H.
  specialize (H overflowStore [Z.ldexp 1 600] 4 0%float
                (Content.mkScored "A chunk." 0%float 0)).
  assert (I : In (Content.mkScored "A chunk." 0%float 0)
                 (Content.selected overflowStore [Z.ldexp 1 600] 4 0%float))
    by (vm_compute; left; reflexivity).
  specialize (H I). vm_compute in H. discriminate H.
Qed.

(** C3, amended.  The result has at most [k] chunk texts.  On a built
    index and a usable query embedding it is the texts of the first [k]
    of the surviving candidates in sorted order, where: a candidate
    survives only if its chunk text is not empty and its score is at
    least the threshold, the score being the cosine similarity with the
    query embedding, or 0 where the embedding is missing, empty, of
    another dimension, or the similarity is NaN, so that for a positive
    threshold a survivor's score is its cosine similarity; the sorted
    list is a rearrangement of the survivors in which scores descend and
    equal scores keep the order of the index; and the caller joins the
    texts with the separator. *)
Theorem retrieveRelevantChunks_selects :
  forall (embedQuery : string -> option Vec) (store : option VectorStore)
         (query : string) (k : nat) (thr : float),
    let result :=
      Content.retrieveRelevantChunks embedQuery store query k thr in
    List.length result <= k
    /\ (forall (vs : VectorStore) (q : Vec),
          store = Some vs -> embeddings vs <> [] ->
          embedQuery query = Some q -> q <> [] ->
          let survivors :=
            filter (Content.passes thr) (Content.similarities vs q) in
          let sorted := jsSort Content.byScoreDesc survivors in
          let sel := Content.selected vs q k thr in
          result = map Content.chunk sel
          /\ sel = firstn k sorted
          /\ Permutation sorted survivors
          /\ (forall item,
                In item sorted ->
                Content.index item < List.length (embeddings vs)
                /\ Content.chunk item
                   = nth (Content.index item) (chunks vs) EmptyString
                /\ JS.truthy (Content.chunk item) = true
                /\ Content.score item
                   = Content.scoreOf q
                       (nth (Content.index item) (embeddings vs) None)
                /\ (thr <=? Content.score item)%float = true
                /\ ((0 <? thr)%float = true ->
                    exists e,
                      nth (Content.index item) (embeddings vs) None = Some e
                      /\ Content.score item
                         = cosineSimilarity (Some q) (Some e)
                      /\ (thr <=? cosineSimilarity (Some q) (Some e))%float
                         = true))
          /\ (forall i j x y,
                i < j ->
                nth_error sorted i = Some x -> nth_error sorted j = Some y ->
                (Content.score y <=? Content.score x)%float = true
                /\ ((Content.score x =? Content.score y)%float = true ->
                    Content.index x < Content.index y))
          /\ (forall i j x y,
                i < j ->
                nth_error sel i = Some x -> nth_error sel j = Some y ->
                (Content.score y <=? Content.score x)%float = true
                /\ ((Content.score x =? Content.score y)%float = true ->
                    Content.index x < Content.index y)))
    /\ Chat.retrieve embedQuery =
       (fun vs question =>
          Content.retrieveRelevantChunks embedQuery (Some vs) question 4
                                         0.5%float)
    /\ (forall chainStream vs question history,
          Chat.calls (snd (Chat.answerRAG chainStream embedQuery vs question
                                          history Chat.emptyUI))
          = [Chat.Retrieval question 4 0.5%float;
             Chat.Completion
               (let joined :=
                  JS.join separator
                    (Content.retrieveRelevantChunks embedQuery (Some vs)
                                                    question 4 0.5%float) in
                if JS.truthy joined then joined else Chat.noRelevantInfo)
               question]).
Proof.
  intros embedQuery store query k thr result.
  assert (Len : forall vs q,
             List.length (map Content.chunk (Content.selected vs q k thr))
             <= k).
  { intros vs q. rewrite length_map. apply firstn_length_le. }
  split; [| split; [| split]].
  - subst result. unfold Content.retrieveRelevantChunks.
    destruct store as [vs |]; [| simpl; lia].
    destruct (embeddings vs); [simpl; lia |].
    destruct (embedQuery query) as [[| x q] |]; simpl; try lia.
    apply (Len vs (x :: q)).
  - intros vs q Hs He Hq Hn survivors sorted sel.
    assert (Sorted : StronglySorted
                       (ranksBefore Content.score Content.index) sorted)
      by apply content_sorted.
    assert (Numbers : forall item, In item sorted ->
                                   isNumber Content.score item).
    { intros item H. apply (proj1 (jsSort_In _ _ _)) in H.
      pose proof (content_survivors_numbers vs q thr) as F.
      rewrite Forall_forall in F. apply F, H. }
    assert (Pairs : forall i j x y,
               i < j ->
               nth_error sorted i = Some x -> nth_error sorted j = Some y ->
               (Content.score y <=? Content.score x)%float = true
               /\ ((Content.score x =? Content.score y)%float = true ->
                   Content.index x < Content.index y)).
    { intros i j x y L Hx Hy.
      apply ranksBefore_scores;
        [apply Numbers; eapply nth_error_In, Hx
        | apply Numbers; eapply nth_error_In, Hy |].
      eapply sorted_nth; eassumption. }
    split; [| split; [reflexivity | split; [apply jsSort_perm | split;
                                            [| split; [exact Pairs |]]]]].
    + subst result. unfold Content.retrieveRelevantChunks. rewrite Hs.
      destruct (embeddings vs); [congruence |].
      rewrite Hq. destruct q; [congruence | reflexivity].
    + intros item H. apply (proj1 (jsSort_In _ _ _)) in H.
      apply filter_In in H. destruct H as [H P].
      destruct (content_similarities_item vs q item H) as [I [C S]].
      unfold Content.passes in P.
      apply andb_true_iff in P. destruct P as [P T].
      apply andb_true_iff in P. destruct P as [Tr _].
      split; [exact I |]. split; [exact C |]. split; [exact Tr |].
      split; [exact S |]. split; [exact T |].
      intros Pos. rewrite S in T.
      destruct (@content_scoreOf_positive q _ thr Pos T) as [e [Ee Es]].
      exists e. split; [exact Ee |].
      split; [rewrite S, Ee in *; exact Es |].
      rewrite Ee in *. rewrite <- Es. exact T.
    + intros i j x y L Hx Hy.
      apply (Pairs i j x y L); apply (nth_error_firstn_inv k); assumption.
  - reflexivity.
  - intros chainStream vs question history.
    unfold Chat.answerRAG, Chat.bind, Chat.logCall, Chat.show, Chat.emptyUI.
    simpl. rewrite consume_run. reflexivity.
Qed.

End RetrievalClaim.

Section RetrievalExamples.

Import Index.

Definition sampleStore : VectorStore :=
  mkVectorStore ["alpha"%string; "beta"%string; "gamma"%string;
                 "delta"%string]
                [Some [1; 0]%float; Some [0; 1]%float; Some [3; 4]%float;
                 Some [2; 0]%float].

Definition sampleEmbedder (query : string) : option Vec :=
  Some [1; 0]%float.

(** The chunks at similarity 1 come first, in index order; the one at
    0.6 follows; the orthogonal one is left out. *)
Example sample_retrieval :
  Content.retrieveRelevantChunks sampleEmbedder (Some sampleStore)
                                 "which one?" 4 0.5%float
  = ["alpha"%string; "delta"%string; "gamma"%string].
Proof. vm_compute. reflexivity. Qed.

Lemma retrieveRelevantChunks_selects_witness :
  Content.retrieveRelevantChunks sampleEmbedder (Some sampleStore)
                                 "which one?" 4 0.5%float
  = map Content.chunk
        (Content.selected sampleStore [1; 0]%float 4 0.5%float).
Proof.
  refine (proj1 (proj1 (proj2
            (retrieveRelevantChunks_selects sampleEmbedder (Some sampleStore)
               "which one?" 4 0.5%float))
            sampleStore [1; 0]%float eq_refl _ eq_refl _));
    discriminate.
Defined.

End RetrievalExamples.

(** ** Retrieval in the popup *)

Section PopupRetrievalFacts.

Import Index.
Local Open Scope nat_scope.

Lemma popup_similarities_item (vs : VectorStore) (q : Vec)
    (item : Popup.Scored) :
  In item (Popup.similarities vs q) ->
  Popup.index item < List.length (embeddings vs)
  /\ Popup.chunk item = nth_error (chunks vs) (Popup.index item)
  /\ Popup.score item
     = cosineSimilarity (Some q)
                        (nth (Popup.index item) (embeddings vs) None).
Proof.
  intros H. unfold Popup.similarities in H.
  destruct (mapFrom_In _ _ _ _ H) as [n [e [E ->]]].
  destruct e as [e |]; simpl; rewrite (nth_error_nth _ _ None E);
    (split; [apply nth_error_Some; congruence | split; reflexivity]).
Qed.

(** The retrieval of main.js keeps a chunk only if its cosine
    similarity is at least the threshold, and returns the first [k] in
    descending order of score, equal scores in index order. *)
Lemma popup_retrieval (vs : VectorStore) (q : Vec) (k : nat) (thr : float) :
  let survivors := filter (Popup.passes thr) (Popup.similarities vs q) in
  let sorted := jsSort Popup.byScoreDesc survivors in
  Popup.selected vs q k thr = firstn k sorted
  /\ List.length (Popup.selected vs q k thr) <= k
  /\ Permutation sorted survivors
  /\ (forall item,
        In item sorted ->
        (thr <=? cosineSimilarity (Some q)
                   (nth (Popup.index item) (embeddings vs) None))%float
        = true)
  /\ (forall i j x y,
        i < j ->
        nth_error sorted i = Some x -> nth_error sorted j = Some y ->
        (Popup.score y <=? Popup.score x)%float = true
        /\ ((Popup.score x =? Popup.score y)%float = true ->
            Popup.index x < Popup.index y)).
Proof.
  intros survivors sorted.
  assert (Numbers : Forall (isNumber Popup.score) survivors).
  { apply Forall_forall. intros item H. apply filter_In in H.
    destruct H as [_ P]. unfold Popup.passes in P.
    apply (float_leb_not_nan _ _ P). }
  assert (Sorted : StronglySorted (ranksBefore Popup.score Popup.index)
                                  sorted).
  { apply jsSort_sorted; [reflexivity | exact Numbers |].
    apply filter_sorted. unfold Popup.similarities.
    apply mapFrom_ordered. intros [e |] i; reflexivity. }
  split; [reflexivity |].
  split; [apply firstn_length_le |].
  split; [apply jsSort_perm |].
  split.
  - intros item H. apply (proj1 (jsSort_In _ _ _)) in H.
    apply filter_In in H. destruct H as [H P].
    destruct (popup_similarities_item vs q item H) as [_ [_ S]].
    rewrite <- S. exact P.
  - intros i j x y L Hx Hy.
    rewrite Forall_forall in Numbers.
    apply ranksBefore_scores.
    + apply Numbers. apply (proj1 (jsSort_In Popup.byScoreDesc x survivors)).
      eapply nth_error_In, Hx.
    + apply Numbers. apply (proj1 (jsSort_In Popup.byScoreDesc y survivors)).
      eapply nth_error_In, Hy.
    + eapply sorted_nth; eassumption.
Qed.

End PopupRetrievalFacts.

(* ================================================================== *)
(** * Part III: further properties of the code                          *)
(* ================================================================== *)

(** ** Strings *)

Section StringFacts.

Local Open Scope string_scope.

Lemma string_length_append (a b : string) :
  String.length (a ++ b) = (String.length a + String.length b)%nat.
Proof.
  induction a as [| c a IH]; simpl; [reflexivity | rewrite IH; reflexivity].
Qed.

Lemma string_append_assoc (a b c : string) : (a ++ b) ++ c = a ++ (b ++ c).
Proof.
  induction a as [| x a IH]; simpl; [reflexivity | rewrite IH; reflexivity].
Qed.

Lemma string_append_cancel_l (a b c : string) : a ++ b = a ++ c -> b = c.
Proof.
  induction a as [| x a IH]; simpl; intros H; [exact H |].
  injection H as H. apply IH, H.
Qed.

Lemma string_append_cancel_r (a b c : string) : a ++ c = b ++ c -> a = b.
Proof.
  revert b. induction a as [| x a IH]; intros [| y b] H; simpl in H.
  - reflexivity.
  - exfalso. apply (f_equal String.length) in H. simpl in H.
    rewrite string_length_append in H. lia.
  - exfalso. apply (f_equal String.length) in H. simpl in H.
    rewrite string_length_append in H. lia.
  - injection H as -> H. f_equal. apply IH, H.
Qed.

Lemma take_length (n : nat) (s : string) :
  String.length (JS.take n s) = Nat.min n (String.length s).
Proof.
  revert s. induction n as [| n IH]; intros [| c s]; simpl; try reflexivity.
  rewrite IH. reflexivity.
Qed.

End StringFacts.

(** ** The processing cache *)

Section CacheFacts.

Import Router.
Local Open Scope string_scope.

Lemma cacheKey_url (tabId url url' : string) :
  cacheKey tabId url = cacheKey tabId url' -> url = url'.
Proof.
  unfold cacheKey. intros H.
  apply string_append_cancel_l in H. apply string_append_cancel_l in H.
  apply string_append_cancel_l in H. exact H.
Qed.

Lemma cacheKey_tab (tabId tabId' url : string) :
  cacheKey tabId url = cacheKey tabId' url -> tabId = tabId'.
Proof.
  unfold cacheKey. intros H.
  apply string_append_cancel_l in H.
  rewrite <- !string_append_assoc in H.
  apply string_append_cancel_r in H. apply string_append_cancel_r in H.
  exact H.
Qed.

(** Saving under one tab and URL does not change what is found under
    another URL of the same tab, or under the same URL for another
    tab. *)
Theorem save_leaves_other_pages (st : Storage) (tabId url tabId' url' : string)
    (summary : option string) (vs : CachedStore) (now : Z) :
  (tabId = tabId' /\ url <> url') \/ (tabId <> tabId' /\ url = url') ->
  loadProcessingCache
    (saveProcessingCache st (Some tabId) (Some url) summary vs now)
    (Some tabId') (Some url')
  = loadProcessingCache st (Some tabId') (Some url').
Proof.
  intros D. unfold loadProcessingCache, saveProcessingCache.
  destruct (JS.truthy tabId' && JS.truthy url') eqn:T'; [| reflexivity].
  destruct (JS.truthy tabId && JS.truthy url) eqn:T; [| reflexivity].
  unfold storageSet. cbn [storageGet].
  destruct (String.eqb_spec (cacheKey tabId url) (cacheKey tabId' url'))
    as [E | N]; [| reflexivity].
  exfalso. destruct D as [[-> Nu] | [Nt ->]].
  - apply Nu. eapply cacheKey_url, E.
  - apply Nt. eapply cacheKey_tab, E.
Qed.

Lemma save_leaves_other_pages_witness :
  loadProcessingCache
    (saveProcessingCache [] (Some "7") (Some "https://a.example/")
                         (Some "summary") (mkCachedStore None None) 0)
    (Some "7") (Some "https://b.example/")
  = loadProcessingCache [] (Some "7") (Some "https://b.example/").
Proof.
  apply save_leaves_other_pages. left. split; [reflexivity | discriminate].
Defined.

(** A hit is an entry whose stored URL is the asked one, found under a
    tab id and a URL that are both present; without either there is no
    hit and nothing is stored. *)
Theorem cache_hit_only_for_asked_url (st : Storage)
    (tabId url : option string) :
  (forall c, loadProcessingCache st tabId url = Some c ->
             exists t u, tabId = Some t /\ url = Some u
                         /\ JS.truthy t = true /\ JS.truthy u = true
                         /\ cacheUrl c = u
                         /\ storageGet st (cacheKey t u) = Some c)
  /\ (JS.truthyOpt tabId = false \/ JS.truthyOpt url = false ->
      loadProcessingCache st tabId url = None
      /\ forall summary vs now,
           saveProcessingCache st tabId url summary vs now = st).
Proof.
  split.
  - intros c H. unfold loadProcessingCache in H.
    destruct tabId as [t |]; [| discriminate].
    destruct url as [u |]; [| discriminate].
    destruct (JS.truthy t) eqn:Tt; [| discriminate].
    destruct (JS.truthy u) eqn:Tu; [| discriminate]. simpl in H.
    destruct (storageGet st (cacheKey t u)) as [c' |] eqn:G; [| discriminate].
    destruct (String.eqb_spec (cacheUrl c') u) as [E | N]; [| discriminate].
    injection H as <-. exists t, u. repeat split; assumption.
  - intros F. unfold loadProcessingCache, saveProcessingCache.
    destruct tabId as [t |]; destruct url as [u |]; simpl in F;
      try (split; reflexivity).
    destruct F as [F | F]; rewrite F; simpl;
      [| rewrite andb_false_r]; split; reflexivity.
Qed.

Lemma cache_hit_only_for_asked_url_witness :
  loadProcessingCache [] (Some "7") None = None.
Proof.
  apply (proj2 (cache_hit_only_for_asked_url [] (Some "7") None)).
  right. reflexivity.
Defined.

(** What was saved for a tab and URL is what is loaded for them: the
    summary, the index, the time and the URL, whatever the store held
    before; the entry is a warm hit, and a later save for the same page
    replaces it. *)
Theorem cache_round_trip (st : Storage) (tabId url : string)
    (summary : option string) (vs : CachedStore) (now : Z) :
  JS.truthy tabId = true ->
  JS.truthy url = true ->
  let st' := saveProcessingCache st (Some tabId) (Some url) summary vs now in
  loadProcessingCache st' (Some tabId) (Some url)
  = Some (mkCacheEntry summary (Some vs) now url)
  /\ isWarm (loadProcessingCache st' (Some tabId) (Some url)) = true
  /\ forall summary' vs' now',
       loadProcessingCache
         (saveProcessingCache st' (Some tabId) (Some url) summary' vs' now')
         (Some tabId) (Some url)
       = Some (mkCacheEntry summary' (Some vs') now' url).
Proof.
  intros Tt Tu st'. subst st'.
  rewrite (@load_after_save st tabId url summary vs now Tt Tu).
  split; [reflexivity |]. split; [reflexivity |].
  intros summary' vs' now'. apply load_after_save; assumption.
Qed.

Lemma cache_round_trip_witness :
  loadProcessingCache
    (saveProcessingCache [] (Some "7") (Some "https://a.example/")
                         (Some "summary") (mkCachedStore None None) 5)
    (Some "7") (Some "https://a.example/")
  = Some (mkCacheEntry (Some "summary") (Some (mkCachedStore None None)) 5
                       "https://a.example/").
Proof.
  refine (proj1 (@cache_round_trip [] "7" "https://a.example/"
                   (Some "summary") (mkCachedStore None None) 5 _ _));
    reflexivity.
Defined.

End CacheFacts.

(** ** Reopening a page *)

Section ReopenFacts.

Import Router Session.
Local Open Scope string_scope.

Lemma snapshot_restores (prev : option VectorStore) (summary : option string)
    (vs : VectorStore) (now : Z) (url : string) :
  restoreVectorStore prev
    (mkCacheEntry summary (Some (snapshot vs)) now url)
  = Some vs.
Proof. destruct vs; reflexivity. Qed.

Lemma openPage_cold
    (gs : string -> SizeClass -> option string)
    (rag ragAgain : string -> option VectorStore)
    (st : Storage) (tabId url : option string) (markdown : string)
    (prev : Mode) (now : Z) :
  JS.truthy markdown = true ->
  isWarm (loadProcessingCache st tabId url) = false ->
  openPage gs rag ragAgain st tabId url (Some markdown) prev now
  = (fst (coldPath gs rag ragAgain markdown
                   (estimatedTokens (Z.of_nat (String.length markdown)))
                   prev),
     match snd (coldPath gs rag ragAgain markdown
                         (estimatedTokens (Z.of_nat (String.length markdown)))
                         prev) with
     | Some (summary, vs) =>
         saveProcessingCache st tabId url summary (snapshot vs) now
     | None => st
     end).
Proof.
  intros T W. unfold openPage. rewrite T. simpl negb. cbv iota.
  destruct (loadProcessingCache st tabId url) as [c |]; [rewrite W |];
    destruct (coldPath gs rag ragAgain markdown _ prev) as [m w];
    reflexivity.
Qed.

(** What the cold path leaves in the cache when it ends in Hybrid mode
    or with [isLongDocument] set. *)
Lemma coldPath_settled
    (gs : string -> SizeClass -> option string)
    (rag ragAgain : string -> option VectorStore)
    (markdown : string) (t : Q) (prev : Mode) :
  let m := fst (coldPath gs rag ragAgain markdown t prev) in
  useHybridMode m = true \/ isLongDocument m = true ->
  (10000 <= t)%Q
  /\ exists vs,
       vectorStore m = Some vs
       /\ snd (coldPath gs rag ragAgain markdown t prev)
          = Some (if useHybridMode m then documentSummary m else None, vs)
       /\ m = (if useHybridMode m
               then mkMode false false true (documentSummary m) (Some vs)
                           (Some BadgeHybrid) (Some ChainHybrid)
               else mkMode true false false None (Some vs)
                           (Some BadgeRag) (Some ChainRAG))
       /\ (useHybridMode m = true -> JS.truthyOpt (documentSummary m) = true).
Proof.
  unfold coldPath.
  destruct (Qlt_le_dec t 10000) as [l1 | g1];
    [simpl; intros [H | H]; discriminate |].
  destruct (Qlt_le_dec t 20000) as [l2 | g2].
  { destruct (rag markdown) as [vs |];
      [destruct (JS.truthyOpt (gs markdown Compact)) eqn:E |]; simpl;
      intros [H | H]; try discriminate.
    split; [exact g1 |]. exists vs. repeat split. intros _. exact E. }
  destruct (Qlt_le_dec t 30000) as [l3 | g3].
  { destruct (JS.truthyOpt (gs markdown Standard)) eqn:E;
      destruct (rag markdown) as [vs |]; simpl;
      intros [H | H]; try discriminate.
    split; [exact g1 |]. exists vs. repeat split. intros _. exact E. }
  destruct (rag markdown) as [vs |]; simpl; intros [H | H];
    try discriminate.
  split; [exact g1 |]. exists vs. repeat split. discriminate.
Qed.

(** After a first, cold opening that ended in Hybrid mode or in pure
    retrieval, opening the same page again in the same tab gives the same
    mode from the cache alone: whatever the provider calls would now
    answer, and without another cache write. *)
Theorem reopen_restores_mode
    (gs gs' : string -> SizeClass -> option string)
    (rag ragAgain rag' ragAgain' : string -> option VectorStore)
    (st : Storage) (tabId url markdown : string) (prev prev' : Mode)
    (now now' : Z) :
  JS.truthy tabId = true -> JS.truthy url = true ->
  JS.truthy markdown = true ->
  isWarm (loadProcessingCache st (Some tabId) (Some url)) = false ->
  let first := openPage gs rag ragAgain st (Some tabId) (Some url)
                        (Some markdown) prev now in
  useHybridMode (fst first) = true \/ isLongDocument (fst first) = true ->
  openPage gs' rag' ragAgain' (snd first) (Some tabId) (Some url)
           (Some markdown) prev' now'
  = first.
Proof.
  intros Tt Tu Tm W first. subst first.
  rewrite (@openPage_cold gs rag ragAgain st (Some tabId) (Some url)
                          markdown prev now Tm W).
  cbn [fst snd]. intros S.
  destruct (@coldPath_settled gs rag ragAgain markdown _ prev S)
    as [G [vs [Sv [Sw [Sm St]]]]].
  set (t := estimatedTokens (Z.of_nat (String.length markdown))) in *.
  set (m := fst (coldPath gs rag ragAgain markdown t prev)) in *.
  rewrite Sw.
  unfold openPage. rewrite Tm. simpl negb. cbv iota. fold t.
  rewrite (@load_after_save st tabId url _ (snapshot vs) now Tt Tu).
  cbn [isWarm cacheVectorStore].
  f_equal. unfold warmPath. rewrite snapshot_restores.
  destruct (Qlt_le_dec t 10000) as [l | g]; [exfalso; lra |].
  clear S Sw. unfold restoreSummary. cbn [cacheSummary].
  destruct (useHybridMode m) eqn:Hm.
  - specialize (St eq_refl).
    destruct (documentSummary m) as [s |] eqn:Ds; [| discriminate St].
    simpl in St. rewrite Sm, St. simpl. rewrite St. reflexivity.
  - rewrite Sm. reflexivity.
Qed.

Lemma reopen_restores_mode_witness :
  let gs := fun (_ : string) (_ : SizeClass) => Some "summary" in
  let rag := fun (_ : string) => Some (mkVectorStore ["chunk"] [None]) in
  let failing := fun (_ : string) => @None VectorStore in
  let page := String.concat "" (repeat "0123456789" 4000) in
  let first := openPage gs rag rag [] (Some "7") (Some "https://a.example/")
                        (Some page) initialMode 0 in
  openPage (fun _ _ => None) failing failing (snd first) (Some "7")
           (Some "https://a.example/") (Some page) initialMode 1
  = first.
Proof.
  intros gs rag failing page first.
  apply (@reopen_restores_mode gs (fun _ _ => None) rag rag failing failing
           [] "7" "https://a.example/" page initialMode initialMode 0 1);
    try reflexivity.
  left. vm_compute. reflexivity.
Defined.

End ReopenFacts.

(** ** Answering: every branch of [handleSend] *)

Section SendFacts.

Import Chat.
Local Open Scope nat_scope.

Lemma lastN_length (X : Type) (n : nat) (l : list X) :
  List.length (JS.lastN n l) = Nat.min n (List.length l).
Proof.
  unfold JS.lastN. rewrite length_skipn. lia.
Qed.

Lemma trimHistory_length (h : History) : List.length (trimHistory h) <= 20.
Proof.
  unfold trimHistory. destruct (Nat.ltb_spec 20 (List.length h)) as [L | L].
  - rewrite lastN_length. lia.
  - exact L.
Qed.

Lemma trimHistory_keeps_end (h : History) (x y : Message) :
  exists before, trimHistory (h ++ [x; y]) = before ++ [x; y].
Proof.
  unfold trimHistory.
  destruct (Nat.ltb 20 (List.length (h ++ [x; y]))); [| exists h; reflexivity].
  unfold JS.lastN. rewrite length_app. simpl List.length.
  exists (skipn (List.length h + 2 - 20) h).
  rewrite skipn_app.
  replace (List.length h + 2 - 20 - List.length h) with 0 by lia.
  reflexivity.
Qed.

Variable chainStream : string -> string -> History -> StreamResult.
Variable retrievalStream :
  string -> string -> string -> History -> StreamResult.
Variable embedQuery : string -> option Vec.
Variable splitMarkdown : Chunking.ChunkConfig -> string -> option (list string).
Variable detailNeeded : string -> string.

Let send :=
  handleSend chainStream retrievalStream embedQuery splitMarkdown detailNeeded.

(** The context of the direct branch. *)
Definition directContext (page : string) : string :=
  if (50000 <? Chunking.len page)%Z
  then Chunking.truncateMarkdownSafely splitMarkdown page 50000
  else page.

(** The context of the pure retrieval branch. *)
Definition ragContext (vs : VectorStore) (question : string) : string :=
  let joined := JS.join Index.separator (retrieve embedQuery vs question) in
  if JS.truthy joined then joined else noRelevantInfo.

Definition outcomeOf (r : StreamResult) : Outcome string :=
  match failure r with
  | Some e => Thrown e
  | None => Done (received EmptyString r)
  end.

Lemma answerDirect_run (page question : string) (history : History) :
  answerDirect chainStream splitMarkdown page question history emptyUI
  = (outcomeOf (chainStream (directContext page) question history),
     mkUI [Completion (directContext page) question]
          (drawn (Some EmptyString) EmptyString
                 (chainStream (directContext page) question history))).
Proof.
  unfold answerDirect, bind, show, logCall, emptyUI. simpl.
  rewrite consume_run. reflexivity.
Qed.

Lemma answerRAG_run (vs : VectorStore) (question : string)
    (history : History) :
  answerRAG chainStream embedQuery vs question history emptyUI
  = (outcomeOf (chainStream (ragContext vs question) question history),
     mkUI [Retrieval question 4 0.5; Completion (ragContext vs question)
                                                question]
          (drawn (Some EmptyString) EmptyString
                 (chainStream (ragContext vs question) question history))).
Proof.
  unfold answerRAG, bind, show, logCall, emptyUI. simpl.
  rewrite consume_run. reflexivity.
Qed.

(** The session answers directly: no mode flag is set. *)
Definition directReady (mode : Router.Mode) (pageText : option string)
    (question page : string) : Prop :=
  Router.useHybridMode mode = false
  /\ Router.useSummaryMode mode = false
  /\ Router.isLongDocument mode = false
  /\ Router.chain mode <> None
  /\ pageText = Some page
  /\ JS.truthy question = true.

(** The session answers by retrieval alone. *)
Definition ragReady (mode : Router.Mode) (pageText : option string)
    (question : string) (vs : VectorStore) : Prop :=
  Router.useHybridMode mode = false
  /\ Router.useSummaryMode mode = false
  /\ Router.isLongDocument mode = true
  /\ Router.vectorStore mode = Some vs
  /\ Router.chain mode <> None
  /\ pageText <> None
  /\ JS.truthy question = true.

Lemma send_direct (mode : Router.Mode) (pageText : option string)
    (question page : string) (history : History) :
  directReady mode pageText question page ->
  let first := chainStream (directContext page) question history in
  send mode pageText question history
  = mkSendResult
      (match failure first with
       | Some e => Failed e
       | None => Answered (received EmptyString first)
       end)
      (mkUI [Completion (directContext page) question]
            (drawn (Some EmptyString) EmptyString first))
      (match failure first with
       | Some e => history
       | None =>
           trimHistory
             (history ++ [mkMessage Human question;
                          mkMessage AI (received EmptyString first)])
       end).
Proof.
  intros [Hh [Hs [Hl [Hc [-> Hq]]]]] first.
  unfold send, handleSend. rewrite Hq. simpl negb. cbv iota.
  destruct (Router.chain mode) as [c |]; [| congruence].
  rewrite Hh, Hs, Hl. simpl andb. cbv zeta.
  destruct (Router.documentSummary mode); destruct (Router.vectorStore mode);
    cbn [andb]; cbv iota; rewrite answerDirect_run; unfold outcomeOf; fold first;
    destruct (failure first); reflexivity.
Qed.

Lemma send_rag (mode : Router.Mode) (pageText : option string)
    (question : string) (vs : VectorStore) (history : History) :
  ragReady mode pageText question vs ->
  let first := chainStream (ragContext vs question) question history in
  send mode pageText question history
  = mkSendResult
      (match failure first with
       | Some e => Failed e
       | None => Answered (received EmptyString first)
       end)
      (mkUI [Retrieval question 4 0.5;
             Completion (ragContext vs question) question]
            (drawn (Some EmptyString) EmptyString first))
      (match failure first with
       | Some e => history
       | None =>
           trimHistory
             (history ++ [mkMessage Human question;
                          mkMessage AI (received EmptyString first)])
       end).
Proof.
  intros [Hh [Hs [Hl [Hv [Hc [Hp Hq]]]]]] first.
  unfold send, handleSend. rewrite Hq. simpl negb. cbv iota.
  destruct pageText as [page |]; [| congruence].
  destruct (Router.chain mode) as [c |]; [| congruence].
  rewrite Hh, Hs, Hl, Hv. simpl andb. cbv zeta.
  destruct (Router.documentSummary mode);
    cbn [andb]; cbv iota; rewrite answerRAG_run; unfold outcomeOf; fold first;
    destruct (failure first); reflexivity.
Qed.

End SendFacts.

(** ** Answering: what a user sees of it *)

Section SendProperties.

Import Chat.
Local Open Scope nat_scope.

Variable chainStream : string -> string -> History -> StreamResult.
Variable retrievalStream :
  string -> string -> string -> History -> StreamResult.
Variable embedQuery : string -> option Vec.
Variable splitMarkdown : Chunking.ChunkConfig -> string -> option (list string).
Variable detailNeeded : string -> string.

Let send :=
  handleSend chainStream retrievalStream embedQuery splitMarkdown detailNeeded.

(** A question is not sent when it is empty, the page content is not
    loaded, or no chain is set up. *)
Definition notReady (mode : Router.Mode) (pageText : option string)
    (question : string) : Prop :=
  JS.truthy question = false \/ pageText = None \/ Router.chain mode = None.

(** [handleSend] as a whole: either nothing happens, or one branch runs
    and its result decides what is kept. *)
Lemma send_shape (mode : Router.Mode) (pageText : option string)
    (question : string) (h : History) :
  (notReady mode pageText question
   /\ send mode pageText question h = mkSendResult NotSent emptyUI h)
  \/ (~ notReady mode pageText question
      /\ ((exists a u,
             send mode pageText question h
             = mkSendResult (Answered a) u
                 (trimHistory (h ++ [mkMessage Human question;
                                     mkMessage AI a])))
          \/ (exists e u,
                send mode pageText question h = mkSendResult (Failed e) u h))).
Proof.
  unfold send, handleSend, notReady.
  destruct (JS.truthy question) eqn:Tq; simpl negb; cbv iota;
    [| left; split; [left; reflexivity | reflexivity]].
  destruct pageText as [page |];
    [| left; split; [right; left; reflexivity | reflexivity]].
  destruct (Router.chain mode) as [c |];
    [| left; split; [right; right; reflexivity | reflexivity]].
  right. split; [intros [F | [F | F]]; discriminate |].
  cbv zeta.
  match goal with
  | |- context [let (o, ui') := ?b emptyUI in _] =>
      destruct (b emptyUI) as [[a | e] u]
  end.
  - left. exists a, u. reflexivity.
  - right. exists e, u. reflexivity.
Qed.

(** In every mode: an answer adds the question and the response to the
    history, which then holds at most twenty messages and ends with this
    exchange; a question that fails or is not sent leaves the history as
    it was. *)
Theorem send_history (mode : Router.Mode) (pageText : option string)
    (question : string) (h : History) :
  let r := send mode pageText question h in
  match outcome r with
  | Answered a =>
      history r = trimHistory (h ++ [mkMessage Human question;
                                     mkMessage AI a])
      /\ List.length (history r) <= 20
      /\ exists before,
           history r = before ++ [mkMessage Human question; mkMessage AI a]
  | _ => history r = h
  end.
Proof.
  intros r. subst r.
  destruct (send_shape mode pageText question h)
    as [[_ E] | [_ [[a [u E]] | [e [u E]]]]]; rewrite E; simpl;
    try reflexivity.
  split; [reflexivity |]. split; [apply trimHistory_length |].
  apply trimHistory_keeps_end.
Qed.

(** A question is refused exactly when it is empty, no page content is
    loaded or no chain is set up; then nothing is called, nothing is
    drawn and the history is unchanged. *)
Theorem send_refused (mode : Router.Mode) (pageText : option string)
    (question : string) (h : History) :
  let r := send mode pageText question h in
  (outcome r = NotSent <-> notReady mode pageText question)
  /\ (notReady mode pageText question ->
      calls (ui r) = [] /\ messageDiv (ui r) = None /\ history r = h).
Proof.
  intros r. subst r.
  destruct (send_shape mode pageText question h)
    as [[N E] | [N [[a [u E]] | [e [u E]]]]]; rewrite E; simpl.
  - split; [tauto |]. intros _. repeat split.
  - split; [split; [discriminate | tauto] | tauto].
  - split; [split; [discriminate | tauto] | tauto].
Qed.

(** In pure retrieval mode a question makes one retrieval and one
    completion; when nothing is retrieved the model is still asked, with
    a fixed notice as its context. *)
Theorem send_rag_calls (mode : Router.Mode) (pageText : option string)
    (question : string) (vs : VectorStore) (h : History) :
  ragReady mode pageText question vs ->
  let r := send mode pageText question h in
  let context := ragContext embedQuery vs question in
  calls (ui r) = [Retrieval question 4 0.5; Completion context question]
  /\ (retrieve embedQuery vs question = [] -> context = noRelevantInfo)
  /\ (JS.truthy (JS.join Index.separator (retrieve embedQuery vs question))
      = true ->
      context = JS.join Index.separator (retrieve embedQuery vs question))
  /\ outcome r
     = match failure (chainStream context question h) with
       | Some e => Failed e
       | None => Answered (received EmptyString
                                    (chainStream context question h))
       end.
Proof.
  intros Ready r context. subst r.
  unfold send.
  rewrite (@send_rag chainStream retrievalStream embedQuery splitMarkdown
             detailNeeded mode pageText question vs h Ready).
  simpl. split; [reflexivity |]. split; [| split; [| reflexivity]].
  - intros E. subst context. unfold ragContext. rewrite E. reflexivity.
  - intros T. subst context. unfold ragContext. rewrite T. reflexivity.
Qed.

(** With no mode flag set the whole page is the context, cut only when
    it is longer than 50,000 characters; the index is not consulted even
    if one is loaded. *)
Theorem send_direct_calls (mode : Router.Mode) (pageText : option string)
    (question page : string) (h : History) :
  directReady mode pageText question page ->
  let r := send mode pageText question h in
  let context := directContext splitMarkdown page in
  calls (ui r) = [Completion context question]
  /\ ((Chunking.len page <= 50000)%Z -> context = page)
  /\ ((50000 < Chunking.len page)%Z ->
      context = Chunking.truncateMarkdownSafely splitMarkdown page 50000)
  /\ outcome r
     = match failure (chainStream context question h) with
       | Some e => Failed e
       | None => Answered (received EmptyString
                                    (chainStream context question h))
       end.
Proof.
  intros Ready r context. subst r.
  unfold send.
  rewrite (@send_direct chainStream retrievalStream embedQuery splitMarkdown
             detailNeeded mode pageText question page h Ready).
  simpl. split; [reflexivity |].
  subst context. unfold directContext.
  destruct (Z.ltb_spec 50000 (Chunking.len page)) as [L | L];
    (split; [| split]); try reflexivity; intros; lia.
Qed.

End SendProperties.

(** ** The Hybrid branch: what is recorded *)

Section HybridRecord.

Import Chat.
Local Open Scope nat_scope.

Variable chainStream : string -> string -> History -> StreamResult.
Variable retrievalStream :
  string -> string -> string -> History -> StreamResult.
Variable embedQuery : string -> option Vec.
Variable splitMarkdown : Chunking.ChunkConfig -> string -> option (list string).
Variable detailNeeded : string -> string.

Let send :=
  handleSend chainStream retrievalStream embedQuery splitMarkdown detailNeeded.

Lemma send_hybrid (mode : Router.Mode) (pageText : option string)
    (question summary : string) (vs : VectorStore) (h : History) :
  hybridReady mode pageText question summary vs ->
  send mode pageText question h
  = match answerHybrid chainStream retrievalStream embedQuery detailNeeded
            summary vs question h emptyUI with
    | (Done a, u) =>
        mkSendResult (Answered a) u
          (trimHistory (h ++ [mkMessage Human question; mkMessage AI a]))
    | (Thrown e, u) => mkSendResult (Failed e) u h
    end.
Proof.
  intros [Hh [Hs [Ht [Hv [Hc [Hp Hq]]]]]].
  unfold send, handleSend. rewrite Hq. simpl negb. cbv iota.
  destruct pageText as [page |]; [| congruence].
  destruct (Router.chain mode) as [c |]; [| congruence].
  rewrite Hh, Hs, Hv, Ht. reflexivity.
Qed.

(** In Hybrid mode, with [first] the summary-stage stream and [second]
    the detail-stage stream: a failure of either stage fails the question
    and leaves the history as it was, a failure of the first stage before
    anything is retrieved; after a detail stage that succeeded only its
    response is recorded as the answer; and when the marker was given but
    nothing was retrieved, the recorded answer is the summary-stage
    response, marker included. *)
Theorem hybrid_recorded_answer (mode : Router.Mode)
    (pageText : option string) (question summary : string)
    (vs : VectorStore) (h : History) :
  hybridReady mode pageText question summary vs ->
  let r := send mode pageText question h in
  let first := chainStream summary question h in
  let context := JS.join Index.separator (retrieve embedQuery vs question) in
  let second := retrievalStream summary context question h in
  let escalated :=
    failure first = None
    /\ JS.includes sentinel (received EmptyString first) = true in
  (forall e, failure first = Some e ->
     outcome r = Failed e /\ history r = h
     /\ calls (ui r) = [Completion summary question])
  /\ (forall e, escalated -> JS.truthy context = true ->
      failure second = Some e ->
      outcome r = Failed e /\ history r = h)
  /\ (escalated -> JS.truthy context = true -> failure second = None ->
      outcome r = Answered (received EmptyString second)
      /\ history r
         = trimHistory (h ++ [mkMessage Human question;
                              mkMessage AI (received EmptyString second)]))
  /\ (escalated -> JS.truthy context = false ->
      exists answer,
        outcome r = Answered answer
        /\ JS.includes sentinel answer = true
        /\ history r
           = trimHistory (h ++ [mkMessage Human question;
                                mkMessage AI answer])).
Proof.
  intros Ready r first context second escalated. subst r.
  rewrite (send_hybrid h Ready).
  rewrite (@answerHybrid_run chainStream retrievalStream embedQuery
             detailNeeded summary vs question h).
  fold first. fold context. fold second. subst escalated.
  split; [| split; [| split]].
  - intros e F. rewrite F. simpl. repeat split.
  - intros e [F M] T F2. rewrite F, M, T, F2. simpl. split; reflexivity.
  - intros [F M] T F2. rewrite F, M, T, F2. simpl. split; reflexivity.
  - intros [F M] T. rewrite F, M, T. simpl.
    exists (received EmptyString first). repeat split. exact M.
Qed.

End HybridRecord.

Lemma hybrid_recorded_answer_witness :
  exists answer,
    Chat.outcome
      (Chat.handleSend askingChain askingDetailChain (fun _ => None)
         (fun _ _ => None) (fun s => s) exampleMode
         (Some "page text"%string) "When was the launch?"%string [])
    = Chat.Answered answer
    /\ JS.includes Chat.sentinel answer = true
    /\ Chat.history
         (Chat.handleSend askingChain askingDetailChain (fun _ => None)
            (fun _ _ => None) (fun s => s) exampleMode
            (Some "page text"%string) "When was the launch?"%string [])
       = Chat.trimHistory
           ([] ++ [Chat.mkMessage Chat.Human "When was the launch?"%string;
                   Chat.mkMessage Chat.AI answer]).
Proof.
  refine (proj2 (proj2 (proj2
            (hybrid_recorded_answer askingChain askingDetailChain
               (fun _ => None) (fun _ _ => None) (fun s => s) []
               exampleMode_ready))) _ _).
  - split; reflexivity.
  - reflexivity.
Defined.

(** ** From the router's decision to the calls of a question *)

Section RoutedQuestions.

Import Router Chat.
Local Open Scope nat_scope.

Variable generateSummary : string -> SizeClass -> option string.
Variable setupRAGPipeline : string -> option VectorStore.
Variable setupRAGPipelineAgain : string -> option VectorStore.

Let process :=
  processPageContent generateSummary setupRAGPipeline setupRAGPipelineAgain.

(** What every mode set by the router satisfies. *)
Definition consistent (m : Mode) : Prop :=
  useSummaryMode m = false
  /\ chain m <> None
  /\ (useHybridMode m = true ->
      isLongDocument m = false
      /\ JS.truthyOpt (documentSummary m) = true
      /\ vectorStore m <> None
      /\ badge m = Some BadgeHybrid /\ chain m = Some ChainHybrid)
  /\ (isLongDocument m = true ->
      useHybridMode m = false
      /\ vectorStore m <> None
      /\ badge m = Some BadgeRag /\ chain m = Some ChainRAG).

Lemma warmPath_consistent (t : Q) (prev : Mode) (c : CacheEntry) :
  consistent (warmPath t prev c).
Proof.
  unfold consistent, warmPath.
  destruct (Qlt_le_dec t 10000).
  { simpl. repeat split; try discriminate. }
  destruct (JS.truthyOpt (restoreSummary c)) eqn:Ts;
    destruct (restoreVectorStore (vectorStore prev) c) eqn:Rs; simpl;
    repeat split; try discriminate; try assumption.
Qed.

Lemma coldPath_consistent (markdown : string) (t : Q) (prev : Mode) :
  consistent
    (fst (coldPath generateSummary setupRAGPipeline setupRAGPipelineAgain
                   markdown t prev)).
Proof.
  unfold consistent, coldPath.
  destruct (Qlt_le_dec t 10000).
  { simpl. repeat split; try discriminate. }
  destruct (Qlt_le_dec t 20000).
  { destruct (setupRAGPipeline markdown) eqn:Es;
      [destruct (JS.truthyOpt (generateSummary markdown Compact)) eqn:Ts |];
      simpl; repeat split; try discriminate; try assumption. }
  destruct (Qlt_le_dec t 30000).
  { destruct (JS.truthyOpt (generateSummary markdown Standard)) eqn:Ts;
      destruct (setupRAGPipeline markdown) eqn:Es; simpl;
      repeat split; try discriminate; try assumption. }
  destruct (setupRAGPipeline markdown) eqn:Es; simpl;
    repeat split; try discriminate.
Qed.

(** After a page with text has been processed, from the cache or not and
    whatever the providers answered: summary-only mode is off and a chain
    is set; Hybrid mode has a non-empty summary and an index; retrieval
    mode has an index; the badge and the chain agree with the mode. *)
Theorem processPageContent_consistent (markdown : string) (prev : Mode)
    (cached : option CacheEntry) :
  JS.truthy markdown = true ->
  consistent (process (Some markdown) prev cached).
Proof.
  intros T. unfold process, processPageContent. rewrite T. simpl negb.
  cbv iota.
  destruct cached as [c |]; [| apply coldPath_consistent].
  destruct (isWarm (Some c));
    [apply warmPath_consistent | apply coldPath_consistent].
Qed.

Variable chainStream : string -> string -> History -> StreamResult.
Variable retrievalStream :
  string -> string -> string -> History -> StreamResult.
Variable embedQuery : string -> option Vec.
Variable splitMarkdown : Chunking.ChunkConfig -> string -> option (list string).
Variable detailNeeded : string -> string.

Let send :=
  handleSend chainStream retrievalStream embedQuery splitMarkdown detailNeeded.

(** A question asked after the page was processed follows the router's
    decision: Hybrid starts with a completion over the summary, pure
    retrieval makes one retrieval and one completion, and the direct path
    makes one completion over the page and no retrieval. *)
Theorem routed_question_calls (markdown question : string) (prev : Mode)
    (cached : option CacheEntry) (h : History) :
  JS.truthy markdown = true ->
  JS.truthy question = true ->
  let m := process (Some markdown) prev cached in
  let r := send m (Some markdown) question h in
  match decisionOf m with
  | DHybrid =>
      exists summary,
        documentSummary m = Some summary
        /\ hd_error (calls (ui r)) = Some (Completion summary question)
        /\ countRetrievals (calls (ui r)) <= 1
  | DPureRetrieval =>
      exists vs,
        vectorStore m = Some vs
        /\ calls (ui r)
           = [Retrieval question 4 0.5;
              Completion (ragContext embedQuery vs question) question]
  | DDirect =>
      calls (ui r)
      = [Completion (directContext splitMarkdown markdown) question]
  end.
Proof.
  intros Tm Tq m r.
  assert (C : consistent m).
  { subst m. unfold process, processPageContent. rewrite Tm. simpl negb.
    cbv iota.
    destruct cached as [c |]; [| apply coldPath_consistent].
    destruct (isWarm (Some c));
      [apply warmPath_consistent | apply coldPath_consistent]. }
  destruct C as [Su [Ch [Hy Lo]]].
  unfold decisionOf.
  destruct (useHybridMode m) eqn:Eh.
  - destruct (Hy eq_refl) as [_ [Ts [Vs _]]].
    destruct (documentSummary m) as [summary |] eqn:Es; [| discriminate].
    destruct (vectorStore m) as [vs |] eqn:Ev; [| congruence].
    exists summary. split; [reflexivity |].
    assert (Ready : hybridReady m (Some markdown) question summary vs).
    { repeat split; try assumption. discriminate. }
    subst r. unfold send.
    rewrite (proj1 (@handleSend_hybrid chainStream retrievalStream embedQuery
                      splitMarkdown detailNeeded m (Some markdown) question
                      summary vs h Ready)).
    rewrite (@answerHybrid_run chainStream retrievalStream embedQuery
               detailNeeded summary vs question h).
    unfold countRetrievals.
    destruct (failure (chainStream summary question h));
      [simpl; split; [reflexivity | lia] |].
    destruct (JS.includes sentinel _);
      [| simpl; split; [reflexivity | lia]].
    destruct (JS.truthy
                (JS.join Index.separator (retrieve embedQuery vs question)));
      simpl; (split; [reflexivity | lia]).
  - destruct (isLongDocument m) eqn:El.
    + destruct (Lo eq_refl) as [_ [Vs _]].
      destruct (vectorStore m) as [vs |] eqn:Ev; [| congruence].
      exists vs. split; [reflexivity |].
      assert (Ready : ragReady m (Some markdown) question vs).
      { repeat split; try assumption. discriminate. }
      subst r. unfold send.
      rewrite (@send_rag chainStream retrievalStream embedQuery splitMarkdown
                 detailNeeded m (Some markdown) question vs h Ready).
      reflexivity.
    + assert (Ready : directReady m (Some markdown) question markdown).
      { repeat split; assumption. }
      subst r. unfold send.
      rewrite (@send_direct chainStream retrievalStream embedQuery
                 splitMarkdown detailNeeded m (Some markdown) question
                 markdown h Ready).
      reflexivity.
Qed.

(** Between 20,000 and 30,000 estimated tokens, when the summary or the
    first index is missing, the page is marked as a retrieval page and
    the index is built again; yet a question is answered from the page
    itself, cut to 50,000 characters, and the index is not consulted. *)
Theorem fallback_answers_from_page (markdown question : string)
    (prev : Mode) (h : History) :
  JS.truthy question = true ->
  (20000 <= estimatedTokens (Chunking.len markdown))%Q ->
  (estimatedTokens (Chunking.len markdown) < 30000)%Q ->
  JS.truthyOpt (generateSummary markdown Standard)
    && hasStore (setupRAGPipeline markdown) = false ->
  let m := process (Some markdown) prev None in
  let r := send m (Some markdown) question h in
  badge m = Some BadgeRag
  /\ chain m = Some ChainRAG
  /\ vectorStore m = setupRAGPipelineAgain markdown
  /\ calls (ui r)
     = [Completion
          (Chunking.truncateMarkdownSafely splitMarkdown markdown 50000)
          question]
  /\ countRetrievals (calls (ui r)) = 0.
Proof.
  intros Tq Lo Hi Miss m r.
  assert (Tm : JS.truthy markdown = true).
  { destruct markdown; [| reflexivity]. exfalso.
    vm_compute in Lo. apply Lo. reflexivity. }
  assert (Long : (50000 < Chunking.len markdown)%Z).
  { revert Lo. unfold estimatedTokens, Qle, Qdiv, Qmult, Qinv, inject_Z.
    cbn [Qnum Qden Pos.mul]. lia. }
  assert (Em : m = mkMode false false false
                     (generateSummary markdown Standard)
                     (setupRAGPipelineAgain markdown)
                     (Some BadgeRag) (Some ChainRAG)).
  { subst m. unfold process, processPageContent. rewrite Tm. simpl negb.
    cbv iota. unfold coldPath, Chunking.len in *.
    destruct (Qlt_le_dec _ 10000) as [L | _];
      [exfalso; apply (Qlt_irrefl 10000);
       apply Qle_lt_trans with (2 := L);
       apply Qle_trans with (2 := Lo); discriminate |].
    destruct (Qlt_le_dec _ 20000) as [L | _];
      [exfalso; apply (Qlt_irrefl 20000);
       apply Qle_lt_trans with (2 := L); exact Lo |].
    destruct (Qlt_le_dec _ 30000) as [_ | G];
      [| exfalso; apply (Qlt_irrefl 30000);
         apply Qle_lt_trans with (1 := G); exact Hi].
    cbv zeta. rewrite Miss. reflexivity. }
  assert (Ready : directReady m (Some markdown) question markdown).
  { rewrite Em. repeat split; try assumption. discriminate. }
  subst r. unfold send.
  rewrite (@send_direct chainStream retrievalStream embedQuery splitMarkdown
             detailNeeded m (Some markdown) question markdown h Ready).
  rewrite Em. simpl.
  unfold directContext. destruct (Z.ltb_spec 50000 (Chunking.len markdown));
    [| lia].
  repeat split.
Qed.

End RoutedQuestions.

(** ** Examples of answered questions *)

Section SendExamples.

Import Router Chat.
Local Open Scope nat_scope.
Local Open Scope string_scope.

(** A model that answers at once. *)
Definition answeringChain (context question : string) (h : History)
  : StreamResult :=
  mkStream ["It took place "; "in May 2021."] None.

(** A page in retrieval mode, and a short page in direct mode with an
    index left over. *)
Definition retrievalMode : Mode :=
  mkMode true false false None (Some exampleStore) (Some BadgeRag)
         (Some ChainRAG).

Definition directMode : Mode :=
  mkMode false false false None (Some exampleStore) (Some BadgeStuffing)
         (Some ChainStuffing).

(** A page of 90,000 characters: 22,500 estimated tokens. *)
Definition longPage : string := String.concat "" (repeat "0123456789" (90 * 100)).

Lemma send_rag_calls_witness :
  calls (ui (handleSend answeringChain askingDetailChain (fun _ => None)
               (fun _ _ => None) (fun s => s) retrievalMode
               (Some "page text") "When was the launch?" []))
  = [Retrieval "When was the launch?" 4 0.5;
     Completion noRelevantInfo "When was the launch?"].
Proof.
  refine (proj1 (@send_rag_calls answeringChain askingDetailChain
                   (fun _ => None) (fun _ _ => None) (fun s => s)
                   retrievalMode (Some "page text") "When was the launch?"
                   exampleStore [] _)).
  repeat split; try reflexivity; discriminate.
Defined.

Lemma send_direct_calls_witness :
  calls (ui (handleSend answeringChain askingDetailChain
               (fun _ => Some [1%float; 0%float])
               (fun _ _ => None) (fun s => s) directMode
               (Some "page text") "When was the launch?" []))
  = [Completion "page text" "When was the launch?"].
Proof.
  refine (proj1 (@send_direct_calls answeringChain askingDetailChain
                   (fun _ => Some [1%float; 0%float]) (fun _ _ => None)
                   (fun s => s) directMode (Some "page text")
                   "When was the launch?" "page text" [] _)).
  repeat split; try reflexivity; discriminate.
Defined.

Lemma processPageContent_consistent_witness :
  consistent
    (processPageContent (fun _ _ => Some "summary")
       (fun _ => Some exampleStore) (fun _ => None)
       (Some longPage) initialMode None).
Proof.
  apply processPageContent_consistent. reflexivity.
Defined.

Lemma routed_question_calls_witness :
  calls (ui (handleSend answeringChain askingDetailChain (fun _ => None)
               (fun _ _ => None) (fun s => s)
               (processPageContent (fun _ _ => None) (fun _ => None)
                  (fun _ => None) (Some "A short page.") initialMode None)
               (Some "A short page.") "When was the launch?" []))
  = [Completion "A short page." "When was the launch?"].
Proof.
  exact (@routed_question_calls (fun _ _ => None) (fun _ => None)
           (fun _ => None) answeringChain askingDetailChain (fun _ => None)
           (fun _ _ => None) (fun s => s) "A short page."
           "When was the launch?" initialMode None [] eq_refl eq_refl).
Defined.

Lemma fallback_answers_from_page_witness :
  countRetrievals
    (calls (ui (handleSend answeringChain askingDetailChain
                  (fun _ => Some [1%float; 0%float])
                  (fun _ _ => None) (fun s => s)
                  (processPageContent (fun _ _ => None)
                     (fun _ => Some exampleStore)
                     (fun _ => Some exampleStore)
                     (Some longPage) initialMode None)
                  (Some longPage) "When was the launch?" [])))
  = 0.
Proof.
  refine (proj2 (proj2 (proj2 (proj2
            (@fallback_answers_from_page (fun _ _ => None)
               (fun _ => Some exampleStore) (fun _ => Some exampleStore)
               answeringChain askingDetailChain
               (fun _ => Some [1%float; 0%float]) (fun _ _ => None)
               (fun s => s) longPage "When was the launch?" initialMode []
               _ _ _ _))))).
  - reflexivity.
  - vm_compute. discriminate.
  - vm_compute. reflexivity.
  - reflexivity.
Defined.

End SendExamples.

(** ** Chat history in the session store *)

Section PersistFacts.

Import Chat Persist.
Local Open Scope nat_scope.
Local Open Scope string_scope.

Lemma restore_serialize (m : Message) : restore (serialize m) = m.
Proof. destruct m as [[|] t]; reflexivity. Qed.

Lemma restore_serialize_all (h : History) :
  map restore (map serialize h) = h.
Proof.
  induction h as [| m h IH]; [reflexivity |].
  simpl. rewrite IH. rewrite restore_serialize. reflexivity.
Qed.

Lemma get_remove_same (st : Store) (key : string) :
  get (remove st key) key = None.
Proof.
  induction st as [| [k v] st IH]; [reflexivity |].
  unfold remove in *. simpl.
  destruct (String.eqb_spec k key) as [E | N]; simpl; [exact IH |].
  destruct (String.eqb_spec k key); [contradiction | exact IH].
Qed.

Lemma get_remove_other (st : Store) (key key' : string) :
  key' <> key -> get (remove st key) key' = get st key'.
Proof.
  intros D. induction st as [| [k v] st IH]; [reflexivity |].
  unfold remove in *. simpl.
  destruct (String.eqb_spec k key) as [E | N]; simpl.
  - destruct (String.eqb_spec k key') as [E' | N']; [congruence | exact IH].
  - rewrite IH. reflexivity.
Qed.

Lemma to_int_proper (z : Z) : Z.to_int z <> Pos Nil /\ Z.to_int z <> Neg Nil.
Proof.
  destruct z as [| p | p]; simpl; split; try discriminate;
    intros H; injection H as H;
    apply (DecimalPos.Unsigned.to_uint_nonnil p H).
Qed.

Lemma render_inj (a b : Z) : render a = render b -> a = b.
Proof.
  unfold render. intros H.
  destruct (to_int_proper a) as [Pa Na]. destruct (to_int_proper b) as [Pb Nb].
  pose proof (NilZero.isi _ Pa Na) as Ia.
  pose proof (NilZero.isi _ Pb Nb) as Ib.
  rewrite H in Ia. rewrite Ia in Ib. injection Ib as E.
  rewrite <- (DecimalZ.of_to a), <- (DecimalZ.of_to b), E. reflexivity.
Qed.

Lemma chatHistoryKey_inj (a b : Z) :
  chatHistoryKey a = chatHistoryKey b -> a = b.
Proof.
  unfold chatHistoryKey. intros H.
  apply render_inj. apply string_append_cancel_l in H. exact H.
Qed.

Lemma cacheKey_not_history (t u : string) (tabId : Z) :
  Router.cacheKey t u <> chatHistoryKey tabId.
Proof. unfold Router.cacheKey, chatHistoryKey. simpl. discriminate. Qed.

Lemma load_saved_history (st : Store) (tabId : Z) (saved current : History) :
  tabId <> 0%Z ->
  loadChatHistory (saveChatHistory st (Some tabId) saved) (Some tabId) current
  = match saved with
    | [] => current
    | _ :: _ => saved
    end.
Proof.
  intros T. unfold loadChatHistory, saveChatHistory, set.
  destruct (Z.eqb_spec tabId 0) as [| _]; [contradiction |].
  cbn [get]. rewrite String.eqb_refl.
  destruct saved as [| m h]; [reflexivity |].
  change (map restore (map serialize (m :: h)) = m :: h).
  apply restore_serialize_all.
Qed.

(** What was saved for a tab is what is loaded for it, unless nothing
    was saved: an empty history leaves the loaded one as it was.  The
    history of another tab is not touched. *)
Theorem chat_history_round_trip (st : Store) (tabId : Z)
    (saved current : History) :
  tabId <> 0%Z ->
  loadChatHistory (saveChatHistory st (Some tabId) saved) (Some tabId) current
  = match saved with
    | [] => current
    | _ :: _ => saved
    end
  /\ forall other,
       other <> tabId ->
       loadChatHistory (saveChatHistory st (Some tabId) saved) (Some other)
                       current
       = loadChatHistory st (Some other) current.
Proof.
  intros T. split; [apply load_saved_history, T |].
  unfold loadChatHistory, saveChatHistory, set.
  destruct (Z.eqb_spec tabId 0) as [| _]; [contradiction |].
  - intros other D. destruct (Z.eqb_spec other 0); [reflexivity |].
    cbn [get].
    destruct (String.eqb_spec (chatHistoryKey tabId) (chatHistoryKey other))
      as [E | N]; [| reflexivity].
    exfalso. apply D. symmetry. apply chatHistoryKey_inj, E.
Qed.

Lemma chat_history_round_trip_witness :
  loadChatHistory
    (saveChatHistory [] (Some 7%Z)
       [mkMessage Human "When was the launch?"; mkMessage AI "In May 2021."])
    (Some 7%Z) []
  = [mkMessage Human "When was the launch?"; mkMessage AI "In May 2021."].
Proof.
  refine (proj1 (@chat_history_round_trip [] 7%Z
                   [mkMessage Human "When was the launch?";
                    mkMessage AI "In May 2021."] [] _)).
  discriminate.
Defined.

(** Closing a tab removes its chat history and nothing else: the
    histories of other tabs stay, and so does every processing-cache
    entry, those of the closed tab included. *)
Theorem tab_close_clears_history_only (st : Store) (tabId : Z) :
  (forall current,
     loadChatHistory (onTabRemoved st tabId) (Some tabId) current = current)
  /\ (forall other current,
        other <> tabId ->
        loadChatHistory (onTabRemoved st tabId) (Some other) current
        = loadChatHistory st (Some other) current)
  /\ (forall t u,
        get (onTabRemoved st tabId) (Router.cacheKey t u)
        = get st (Router.cacheKey t u)).
Proof.
  unfold onTabRemoved. split; [| split].
  - intros current. unfold loadChatHistory.
    destruct (tabId =? 0)%Z; [reflexivity |].
    rewrite get_remove_same. reflexivity.
  - intros other current D. unfold loadChatHistory.
    destruct (other =? 0)%Z; [reflexivity |].
    rewrite get_remove_other; [reflexivity |].
    intros E. apply D. apply chatHistoryKey_inj, E.
  - intros t u. apply get_remove_other. apply cacheKey_not_history.
Qed.

Variable chainStream : string -> string -> History -> StreamResult.
Variable retrievalStream :
  string -> string -> string -> History -> StreamResult.
Variable embedQuery : string -> option Vec.
Variable splitMarkdown : Chunking.ChunkConfig -> string -> option (list string).
Variable detailNeeded : string -> string.

Let send :=
  handleSend chainStream retrievalStream embedQuery splitMarkdown detailNeeded.
Let act' :=
  act chainStream retrievalStream embedQuery splitMarkdown detailNeeded.
Let session' :=
  session chainStream retrievalStream embedQuery splitMarkdown detailNeeded.

(** The store holds, for the tab, what a reload would show as the chat
    in memory. *)
Definition inStep (tabId : Z) (p : Panel) : Prop :=
  loadChatHistory (store p) (Some tabId) [] = chatHistory p.

Lemma ask_panel (tabId : Z) (p : Panel) (mode : Router.Mode)
    (pageText : option string) (question : string) :
  tabId <> 0%Z ->
  let r := send mode pageText question (chatHistory p) in
  let p' := act' (Some tabId) p (Ask mode pageText question) in
  match outcome r with
  | Answered a =>
      inStep tabId p'
      /\ chatHistory p' = history r
      /\ exists before,
           chatHistory p'
           = (before ++ [mkMessage Human question; mkMessage AI a])%list
  | _ => p' = p
  end.
Proof.
  intros T r p'. subst r p'. unfold act', act, inStep, persistSend.
  cbv zeta. fold send.
  destruct (send_shape chainStream retrievalStream embedQuery splitMarkdown
              detailNeeded mode pageText question (chatHistory p))
    as [[_ E] | [_ [[a [u E]] | [e [u E]]]]];
    fold send in E; rewrite E; cbn [outcome history chatHistory store];
    try (destruct p; reflexivity).
  destruct (trimHistory_keeps_end (chatHistory p) (mkMessage Human question)
              (mkMessage AI a)) as [before B].
  rewrite (@load_saved_history (store p) tabId
             (trimHistory
                (chatHistory p
                 ++ [mkMessage Human question; mkMessage AI a])%list)
             [] T).
  rewrite B.
  split; [destruct before; reflexivity |].
  split; [reflexivity | exists before; reflexivity].
Qed.

Lemma clear_panel (tabId : Z) (p : Panel) (confirmed : bool) :
  tabId <> 0%Z ->
  let p' := act' (Some tabId) p (ClearChat confirmed) in
  (confirmed = true -> chatHistory p <> [] ->
   chatHistory p' = []
   /\ get (store p') (chatHistoryKey tabId) = Some (Messages [])
   /\ inStep tabId p')
  /\ (confirmed = false \/ chatHistory p = [] -> p' = p).
Proof.
  intros T p'. subst p'. unfold act', act, clearChat, inStep.
  destruct p as [h st]. cbn [chatHistory store].
  destruct h as [| m h].
  - split; [intros _ N; contradiction N; reflexivity | reflexivity].
  - destruct confirmed.
    + split; [| intros [F | F]; discriminate].
      intros _ _. cbn [chatHistory store].
      split; [reflexivity |].
      split; [| apply (@load_saved_history st tabId [] [] T)].
      unfold saveChatHistory, set.
      destruct (Z.eqb_spec tabId 0); [contradiction |].
      cbn [get map]. rewrite String.eqb_refl. reflexivity.
    + split; [discriminate | reflexivity].
Qed.

Lemma act_inStep (tabId : Z) (p : Panel) (a : Action) :
  tabId <> 0%Z -> inStep tabId p -> inStep tabId (act' (Some tabId) p a).
Proof.
  intros T I. destruct a as [mode pageText question | confirmed].
  - pose proof (@ask_panel tabId p mode pageText question T) as A.
    cbv zeta in A.
    destruct (outcome (send mode pageText question (chatHistory p)));
      try (rewrite A; exact I).
    apply A.
  - destruct (@clear_panel tabId p confirmed T) as [C K].
    destruct confirmed; [| rewrite K; [exact I | left; reflexivity]].
    destruct (chatHistory p) as [| m h] eqn:E;
      [rewrite K; [exact I | right; reflexivity] |].
    apply C; [reflexivity | discriminate].
Qed.

(** The chat history in the store follows the one in memory.  An
    answered question writes the trimmed history, so that a reload gives
    the history in memory, ending with the question and its answer; a
    failed or refused question changes neither.  Ctrl/Cmd+L, confirmed on
    a chat that is not empty, empties the history in memory and stores the
    empty list; unconfirmed, or on an empty chat, it changes nothing.
    When the panel was opened with a saved API key, then after any
    questions and clearings, in any order, a reload on the same tab gives
    exactly the history in memory. *)
Theorem stored_history_follows_chat (st : Store) (tabId : Z)
    (savedKey : option string) :
  tabId <> 0%Z ->
  let tab := Some tabId in
  (forall p mode pageText question,
     let r := send mode pageText question (chatHistory p) in
     let p' := act' tab p (Ask mode pageText question) in
     match outcome r with
     | Answered a =>
         loadChatHistory (store p') tab [] = chatHistory p'
         /\ chatHistory p' = history r
         /\ exists before,
              chatHistory p'
              = (before ++ [mkMessage Human question; mkMessage AI a])%list
     | _ => p' = p
     end)
  /\ (forall p confirmed,
        let p' := act' tab p (ClearChat confirmed) in
        (confirmed = true -> chatHistory p <> [] ->
         chatHistory p' = []
         /\ get (store p') (chatHistoryKey tabId) = Some (Messages [])
         /\ loadChatHistory (store p') tab [] = [])
        /\ (confirmed = false \/ chatHistory p = [] -> p' = p))
  /\ (JS.truthyOpt savedKey = true ->
      forall actions,
        let p := session' tab (init st tab savedKey) actions in
        loadChatHistory (store p) tab [] = chatHistory p).
Proof.
  intros T tab. subst tab. split; [| split].
  - intros p mode pageText question. apply ask_panel, T.
  - intros p confirmed p'. subst p'.
    destruct (@clear_panel tabId p confirmed T) as [C K].
    split; [| exact K].
    intros Y N. destruct (C Y N) as [C1 [C2 C3]].
    split; [exact C1 |]. split; [exact C2 |].
    unfold inStep in C3. rewrite C3. exact C1.
  - intros Key actions p. subst p.
    assert (Start : inStep tabId (init st (Some tabId) savedKey)).
    { unfold inStep, init. rewrite Key. reflexivity. }
    revert Start. generalize (init st (Some tabId) savedKey).
    unfold session', session.
    induction actions as [| a rest IH]; intros p I; [exact I |].
    simpl. apply IH. apply act_inStep; assumption.
Qed.

End PersistFacts.

Lemma stored_history_follows_chat_witness :
  let asked :=
    Persist.Ask directMode (Some "page text"%string)
                "When was the launch?"%string in
  let p :=
    Persist.session answeringChain askingDetailChain (fun _ => None)
      (fun _ _ => None) (fun s => s) (Some 7%Z)
      (Persist.init [] (Some 7%Z) (Some "key"%string))
      [asked; Persist.ClearChat true; asked] in
  Persist.loadChatHistory (Persist.store p) (Some 7%Z) []
  = Persist.chatHistory p.
Proof.
  intros asked p.
  refine (proj2 (proj2
            (@stored_history_follows_chat answeringChain askingDetailChain
               (fun _ => None) (fun _ _ => None) (fun s => s) [] 7%Z
               (Some "key"%string) _)) _ _).
  - discriminate.
  - reflexivity.
Defined.

(** ** Loading the page content *)

Section PageFacts.

Import Page.
Local Open Scope nat_scope.

(** The page content is set only by a usable answer of the content
    script: "Ready" means that the content and the URL of the tab were
    stored, that the stored text is not empty, that the URL is not a
    browser-internal one, and that the answer came from the first attempt
    or, after a rejection, from the second; in every other case the
    globals are left as they were. *)
Theorem loadPageContent_ready (tab : option Tab) (first second : Reply)
    (g : Globals) :
  let r := loadPageContent tab first second g in
  (notice r = Ready ->
   exists t u response markdown,
     tab = Some t /\ tabUrl t = Some u /\ restricted u = false
     /\ globals r = mkGlobals (Some response) (Some u)
     /\ pageText (globals r) = Some markdown
     /\ JS.truthy markdown = true
     /\ (first = Resolved (Some response)
         \/ (first = Rejected /\ second = Resolved (Some response))))
  /\ (notice r <> Ready -> globals r = g).
Proof.
  unfold loadPageContent.
  destruct tab as [t |]; [| split; [discriminate | reflexivity]].
  destruct (tabUrl t) as [u |] eqn:Eu; [| split; [discriminate | reflexivity]].
  destruct (restricted u) eqn:Er; [split; [discriminate | reflexivity] |].
  assert (Usable : forall response,
             usable response = true ->
             exists resp markdown,
               response = Some resp /\ text resp = Some markdown
               /\ JS.truthy markdown = true).
  { intros [resp |] U; [| discriminate]. simpl in U.
    destruct (text resp) as [markdown |] eqn:Et; [| discriminate].
    exists resp, markdown. repeat split; assumption. }
  cbv beta zeta.
  destruct first as [| response].
  - destruct second as [| response];
      [split; [discriminate | reflexivity] |].
    destruct (usable response) eqn:U;
      [| split; [discriminate | reflexivity]].
    destruct (Usable response U) as [resp [markdown [-> [Et Tm]]]].
    split; [| intros N; exfalso; apply N; reflexivity].
    intros _. exists t, u, resp, markdown.
    split; [reflexivity |]. split; [exact Eu |]. split; [exact Er |].
    split; [reflexivity |]. split; [exact Et |]. split; [exact Tm |].
    right. split; reflexivity.
  - destruct (usable response) eqn:U;
      [| split; [discriminate | reflexivity]].
    destruct (Usable response U) as [resp [markdown [-> [Et Tm]]]].
    split; [| intros N; exfalso; apply N; reflexivity].
    intros _. exists t, u, resp, markdown.
    split; [reflexivity |]. split; [exact Eu |]. split; [exact Er |].
    split; [reflexivity |]. split; [exact Et |]. split; [exact Tm |].
    left. reflexivity.
Qed.

(** The content script is asked at most twice, the second time only
    after the first attempt was rejected: an answer without text is not
    retried, and on a browser-internal page (chrome://,
    chrome-extension://, edge://, about:) it is not asked at all. *)
Theorem loadPageContent_attempts (tab : option Tab) (first second : Reply)
    (g : Globals) :
  let r := loadPageContent tab first second g in
  messagesSent r <= 2
  /\ (messagesSent r = 2 -> first = Rejected)
  /\ (forall response,
        first = Resolved response -> usable response = false ->
        notice r <> Ready /\ messagesSent r <= 1)
  /\ (first = Rejected -> second = Rejected -> notice r <> Ready)
  /\ (forall t u,
        tab = Some t -> tabUrl t = Some u -> restricted u = true ->
        messagesSent r = 0 /\ notice r = AccessDenied /\ globals r = g).
Proof.
  unfold loadPageContent.
  destruct tab as [t |];
    [| simpl; repeat split; intros; try lia; try discriminate].
  destruct (tabUrl t) as [u |] eqn:Eu;
    [| simpl; repeat split; intros; try lia; try discriminate; congruence].
  destruct (restricted u) eqn:Er.
  { simpl. repeat split; intros; try lia; try discriminate. }
  cbv beta zeta.
  destruct first as [| response].
  - destruct second as [| response]; [| destruct (usable response)]; simpl;
      repeat split; intros; try lia; try discriminate; try congruence.
  - destruct (usable response) eqn:U; simpl;
      repeat split; intros; try lia; try discriminate; try congruence.
Qed.

End PageFacts.

(** ** Failed questions and the fallback coordinator *)

Section FailureFacts.

Import Chat Fallback Failure.
Local Open Scope nat_scope.

Lemma showModelSwitchPrompt_shape (s : State) :
  (currentModelIndex s < lastIndex
   /\ exists next,
        getNextModel s = Some next
        /\ showModelSwitchPrompt s
           = (mkState (currentModelIndex s) (lastFailedQuestion s)
                      (isHandlingRateLimit s) (rateLimitPromptShown s)
                      (activeRequestId s) (lastRateLimitTime s)
                      (S (openPrompts s)),
              [SwitchPrompt (getCurrentModel s) (Some next)]))
  \/ (lastIndex <= currentModelIndex s
      /\ showModelSwitchPrompt s = (s, [FinalRateLimitMessage])).
Proof.
  unfold showModelSwitchPrompt.
  destruct (getNextModel s) as [next |] eqn:E.
  - left. split.
    + destruct (Nat.le_gt_cases lastIndex (currentModelIndex s)) as [g | l];
        [| exact l].
      rewrite (getNextModel_none s g) in E. discriminate.
    + exists next. split; reflexivity.
  - right. split; [apply getNextModel_none_iff, E | reflexivity].
Qed.

(** A failed question reaches the coordinator as a rate limit when the
    error carries status 429, on itself or on its response, or when its
    message contains "429", whatever else the message says.  Then the
    question is stored for the retry and either a switch prompt is added
    or, on the last model, the final message is shown.  A failure of any
    other kind stores nothing and shows no prompt.  In both cases the
    request is over and the model is the same. *)
Theorem failed_question_and_coordinator (s : State) (e : Error)
    (asString question : string) :
  let out := run s (events e asString question) in
  (is429 (errStatus e) = true \/ is429 (errResponseStatus e) = true
   \/ JS.includes "429" (errorMsg e asString) = true ->
   classify e asString = RateLimit)
  /\ activeRequestId (fst out) = None
  /\ currentModelIndex (fst out) = currentModelIndex s
  /\ (classify e asString = RateLimit ->
      lastFailedQuestion (fst out) = Some question
      /\ (currentModelIndex s < lastIndex ->
          openPrompts (fst out) = S (openPrompts s)
          /\ exists current next, snd out = [SwitchPrompt current (Some next)])
      /\ (lastIndex <= currentModelIndex s ->
          openPrompts (fst out) = openPrompts s
          /\ snd out = [FinalRateLimitMessage]))
  /\ (classify e asString <> RateLimit ->
      lastFailedQuestion (fst out) = lastFailedQuestion s
      /\ openPrompts (fst out) = openPrompts s
      /\ snd out = []).
Proof.
  intros out.
  split.
  { unfold classify, isRateLimit.
    intros [H | [H | H]]; rewrite H; rewrite ?orb_true_r; reflexivity. }
  subst out. unfold events.
  destruct (classify e asString) eqn:K;
    try (cbn [run step fst snd app];
         repeat split; intros; try reflexivity; congruence).
  set (s0 := mkState (currentModelIndex s) (Some question)
                     (isHandlingRateLimit s) (rateLimitPromptShown s)
                     (activeRequestId s) (lastRateLimitTime s)
                     (openPrompts s)).
  change (run s [SendRateLimited question; SendFinished])
    with (let (s1, out1) := showModelSwitchPrompt s0 in
          let (s2, out2) := run s1 [SendFinished] in (s2, out1 ++ out2)).
  destruct (showModelSwitchPrompt_shape s0) as [[L [next [_ E]]] | [L E]];
    rewrite E; cbn [run step fst snd app currentModelIndex activeRequestId
                    lastFailedQuestion openPrompts s0];
    (split; [reflexivity |]); (split; [reflexivity |]);
    (split; [| intros N; congruence]); intros _;
    (split; [reflexivity |]); simpl in L; split; intros B; try lia.
  - split; [reflexivity |]. eexists. exists next. reflexivity.
  - split; reflexivity.
Qed.

End FailureFacts.

(** ** The fallback coordinator over a whole session *)

Section SwitchFacts.

Import Fallback.
Local Open Scope nat_scope.

Definition countSwitched (l : list Shown) : nat :=
  List.length (filter (fun x => match x with ModelSwitched _ => true
                                        | _ => false end) l).

Definition countResubmitted (l : list Shown) : nat :=
  List.length (filter (fun x => match x with Resubmitted _ => true
                                        | _ => false end) l).

Lemma count_app (f : Shown -> bool) (a b : list Shown) :
  List.length (filter f (a ++ b))
  = List.length (filter f a) + List.length (filter f b).
Proof. rewrite filter_app, length_app. reflexivity. Qed.

Lemma showModelSwitchPrompt_counts (s : State) :
  countSwitched (snd (showModelSwitchPrompt s)) = 0
  /\ countResubmitted (snd (showModelSwitchPrompt s)) = 0.
Proof.
  unfold showModelSwitchPrompt. destruct (getNextModel s); split; reflexivity.
Qed.

(** A step announces a switch only when it moves the cursor, and sends a
    question again only together with a switch. *)
Lemma step_counts (s : State) (e : Event) :
  countSwitched (snd (step s e)) + currentModelIndex s
  <= currentModelIndex (fst (step s e))
  /\ countResubmitted (snd (step s e)) <= countSwitched (snd (step s e))
  /\ countResubmitted (snd (step s e)) <= 1.
Proof.
  assert (Prompt : forall x,
             countSwitched (snd (showModelSwitchPrompt x))
             + currentModelIndex s
             <= currentModelIndex s
             /\ countResubmitted (snd (showModelSwitchPrompt x))
                <= countSwitched (snd (showModelSwitchPrompt x))
             /\ countResubmitted (snd (showModelSwitchPrompt x)) <= 1).
  { intros x. destruct (showModelSwitchPrompt_counts x) as [A B].
    rewrite A, B. repeat split; lia. }
  destruct e; simpl.
  - unfold countSwitched, countResubmitted. simpl. repeat split; lia.
  - unfold onFetchResponse, countSwitched, countResubmitted.
    repeat break_if; simpl; repeat split; lia.
  - unfold onTimer.
    match goal with
    | |- context [getNextModel ?x] => destruct (getNextModel x)
    end;
      [| unfold countSwitched, countResubmitted; simpl; repeat split; lia].
    break_if;
      [| unfold countSwitched, countResubmitted; simpl; repeat split; lia].
    rewrite showModelSwitchPrompt_index. apply Prompt.
  - rewrite showModelSwitchPrompt_index. apply Prompt.
  - unfold countSwitched, countResubmitted. simpl. repeat split; lia.
  - unfold onClickSwitch.
    destruct (openPrompts s) as [| n];
      [unfold countSwitched, countResubmitted; simpl; repeat split; lia |].
    match goal with
    | |- context [switchToNextModel ?x] =>
        destruct (switchToNextModel_index x) as [[Hb [Hl Hi]] | [Hb [Hl Hi]]];
        destruct (switchToNextModel x) as [s2 b]
    end; simpl in Hb, Hl, Hi; subst b; cbv zeta iota.
    + assert (G : exists m, getCurrentModel s2 = Some m).
      { unfold getCurrentModel. rewrite Hi.
        destruct (nth_error MODEL_FALLBACK_CHAIN (S (currentModelIndex s)))
          as [m |] eqn:E; [exists m; reflexivity |].
        apply nth_error_None in E. unfold lastIndex in Hl. simpl in *. lia. }
      destruct G as [m G]. rewrite G.
      unfold countSwitched, countResubmitted.
      destruct (JS.truthyOpt (lastFailedQuestion s2));
        [destruct (lastFailedQuestion s2) |]; simpl; repeat split; lia.
    + unfold countSwitched, countResubmitted. subst s2. simpl.
      repeat split; lia.
  - unfold onClickCancel, countSwitched, countResubmitted.
    destruct (openPrompts s); simpl; repeat split; lia.
Qed.

Lemma run_counts (es : list Event) :
  forall s,
    countSwitched (snd (run s es)) + currentModelIndex s
    <= currentModelIndex (fst (run s es))
    /\ countResubmitted (snd (run s es)) <= countSwitched (snd (run s es)).
Proof.
  induction es as [| e rest IH]; intros s;
    [unfold countSwitched, countResubmitted; simpl; split; lia |].
  simpl. pose proof (step_counts s e) as [A [B _]].
  destruct (step s e) as [s1 out1]. specialize (IH s1).
  destruct (run s1 rest) as [s2 out2]. simpl in *.
  unfold countSwitched, countResubmitted in *. rewrite !count_app. lia.
Qed.

Lemma run_reachable (es : list Event) :
  forall s, Reachable s -> Reachable (fst (run s es)).
Proof.
  induction es as [| e rest IH]; intros s R; [exact R |].
  simpl. pose proof (ReachStep e R) as R1.
  destruct (step s e) as [s1 out1]. specialize (IH s1 R1).
  destruct (run s1 rest) as [s2 out2]. exact IH.
Qed.

(** Over a whole session, whatever happens and in whatever order: the
    model is switched at most three times, a question is sent again at
    most once per switch, and the current model is always one of the
    chain. *)
Theorem session_switches_bounded (es : list Event) :
  let out := run initialState es in
  countSwitched (snd out) <= 3
  /\ countSwitched (snd out) <= currentModelIndex (fst out)
  /\ countResubmitted (snd out) <= countSwitched (snd out)
  /\ exists m, getCurrentModel (fst out) = Some m
               /\ In m MODEL_FALLBACK_CHAIN.
Proof.
  intros out. subst out.
  pose proof (run_counts es initialState) as [A B].
  pose proof (reachable_in_chain (run_reachable es ReachInit)) as L.
  unfold lastIndex in L. simpl in A, L.
  split; [lia |]. split; [lia |]. split; [exact B |].
  unfold getCurrentModel.
  destruct (nth_error MODEL_FALLBACK_CHAIN
              (currentModelIndex (fst (run initialState es)))) as [m |] eqn:E.
  - exists m. split; [reflexivity | apply (nth_error_In _ _ E)].
  - apply nth_error_None in E. simpl in E. lia.
Qed.

(** Clicking "Switch Model & Continue" on a prompt while a next model
    exists and a failed question is stored: the cursor moves by one, the
    flags and the cooldown are reset, the question is sent again once and
    forgotten, so that a further click sends nothing again.  Clicking
    "Cancel" forgets the question and the request, resets the flags and
    the cooldown, keeps the model and shows nothing. *)
Theorem prompt_clicks (s : State) (question : string) :
  0 < openPrompts s ->
  lastFailedQuestion s = Some question ->
  JS.truthy question = true ->
  (currentModelIndex s < lastIndex ->
   let out := step s ClickSwitch in
   currentModelIndex (fst out) = S (currentModelIndex s)
   /\ countResubmitted (snd out) = 1
   /\ In (Resubmitted question) (snd out)
   /\ lastFailedQuestion (fst out) = None
   /\ isHandlingRateLimit (fst out) = false
   /\ rateLimitPromptShown (fst out) = false
   /\ lastRateLimitTime (fst out) = 0%Z
   /\ openPrompts (fst out) = openPrompts s - 1
   /\ countResubmitted (snd (step (fst out) ClickSwitch)) = 0)
  /\ (let out := step s ClickCancel in
      snd out = []
      /\ currentModelIndex (fst out) = currentModelIndex s
      /\ lastFailedQuestion (fst out) = None
      /\ activeRequestId (fst out) = None
      /\ isHandlingRateLimit (fst out) = false
      /\ rateLimitPromptShown (fst out) = false
      /\ lastRateLimitTime (fst out) = 0%Z
      /\ openPrompts (fst out) = openPrompts s - 1
      /\ countResubmitted (snd (step (fst out) ClickSwitch)) = 0).
Proof.
  intros Open Stored Truthy.
  assert (NoQuestion : forall s',
             lastFailedQuestion s' = None ->
             countResubmitted (snd (step s' ClickSwitch)) = 0).
  { intros s' N. simpl. unfold onClickSwitch.
    destruct (openPrompts s') as [| n]; [reflexivity |].
    unfold switchToNextModel.
    match goal with
    | |- context [getNextModel ?x] => destruct (getNextModel x)
    end; [| reflexivity].
    cbn [setIndex lastFailedQuestion JS.truthyOpt]. rewrite N.
    cbn [JS.truthyOpt].
    match goal with
    | |- context [getCurrentModel ?x] => destruct (getCurrentModel x)
    end; reflexivity. }
  split.
  - intros L out. subst out.
    assert (Q : lastFailedQuestion (fst (step s ClickSwitch)) = None
                /\ currentModelIndex (fst (step s ClickSwitch))
                   = S (currentModelIndex s)
                /\ countResubmitted (snd (step s ClickSwitch)) = 1
                /\ In (Resubmitted question) (snd (step s ClickSwitch))
                /\ isHandlingRateLimit (fst (step s ClickSwitch)) = false
                /\ rateLimitPromptShown (fst (step s ClickSwitch)) = false
                /\ lastRateLimitTime (fst (step s ClickSwitch)) = 0%Z
                /\ openPrompts (fst (step s ClickSwitch)) = openPrompts s - 1).
    { simpl. unfold onClickSwitch.
      destruct (openPrompts s) as [| n] eqn:Eo; [lia |].
      unfold switchToNextModel.
      match goal with
      | |- context [getNextModel ?x] =>
          destruct (getNextModel_some x) as [next E]; [exact L |]; rewrite E
      end.
      cbn [setIndex lastFailedQuestion currentModelIndex isHandlingRateLimit
           rateLimitPromptShown activeRequestId lastRateLimitTime openPrompts].
      rewrite Stored. cbn [JS.truthyOpt]. rewrite Truthy.
      match goal with
      | |- context [getCurrentModel ?x] => destruct (getCurrentModel x)
      end; simpl; repeat split; try lia; auto. }
    destruct Q as [Q1 [Q2 [Q3 [Q4 [Q5 [Q6 [Q7 Q8]]]]]]].
    repeat split; try assumption. apply NoQuestion, Q1.
  - intros out. subst out.
    assert (Q : step s ClickCancel
                = (mkState (currentModelIndex s) None false false None 0%Z
                           (openPrompts s - 1), [])).
    { simpl. unfold onClickCancel.
      destruct (openPrompts s) as [| n]; [lia |].
      rewrite Nat.sub_1_r. reflexivity. }
    rewrite Q. cbn [fst snd]. repeat split. apply NoQuestion. reflexivity.
Qed.

Lemma prompt_clicks_witness :
  let s := fst (step initialState (SendRateLimited "What is this page about?"))
  in
  In (Resubmitted "What is this page about?") (snd (step s ClickSwitch))
  /\ snd (step s ClickCancel) = [].
Proof.
  intros s.
  destruct (@prompt_clicks s "What is this page about?") as [A B].
  - vm_compute. lia.
  - reflexivity.
  - reflexivity.
  - split.
    + refine (proj1 (proj2 (proj2 (A _)))). vm_compute. lia.
    + exact (proj1 B).
Defined.

End SwitchFacts.

(** ** What retrieval returns *)

Section RetrievedFacts.

Import Index.
Local Open Scope nat_scope.

Lemma mapFrom_indices (X Y : Type) (index : Y -> nat) (f : X -> nat -> Y)
    (l : list X) :
  (forall x i, index (f x i) = i) ->
  forall i, map index (mapFrom f l i) = seq i (List.length l).
Proof.
  intros Hf. induction l as [| x l IH]; intros i; [reflexivity |].
  simpl. rewrite Hf, IH. reflexivity.
Qed.

Lemma NoDup_map_filter (X Y : Type) (g : X -> Y) (p : X -> bool)
    (l : list X) :
  NoDup (map g l) -> NoDup (map g (filter p l)).
Proof.
  induction l as [| x l IH]; intros N; [exact N |].
  simpl in *. inversion N as [| y ys Hn Hr]; subst.
  destruct (p x); [| apply IH, Hr].
  simpl. constructor; [| apply IH, Hr].
  intros I. apply Hn. apply in_map_iff in I. destruct I as [z [E Iz]].
  apply in_map_iff. exists z. split; [exact E |].
  apply filter_In in Iz. apply Iz.
Qed.

Lemma NoDup_map_firstn (X Y : Type) (g : X -> Y) (k : nat) (l : list X) :
  NoDup (map g l) -> NoDup (map g (firstn k l)).
Proof.
  intros N. rewrite <- (firstn_skipn k l) in N.
  rewrite map_app in N. apply NoDup_app_remove_r in N. exact N.
Qed.

Lemma content_selected_indices (vs : VectorStore) (q : Vec) (k : nat)
    (thr : float) :
  NoDup (map Content.index (Content.selected vs q k thr)).
Proof.
  unfold Content.selected. apply NoDup_map_firstn.
  apply (Permutation_NoDup
           (l := map Content.index
                     (filter (Content.passes thr)
                             (Content.similarities vs q)))).
  - apply Permutation_map. apply Permutation_sym. apply jsSort_perm.
  - apply NoDup_map_filter. unfold Content.similarities.
    rewrite mapFrom_indices by reflexivity. apply seq_NoDup.
Qed.

(** Retrieval returns nothing without an index, with an index without
    embeddings, when the query cannot be embedded, or for [k = 0].
    What it returns are non-empty chunk texts of the index, taken at
    positions that are all different: no position of the index is
    returned twice. *)
Theorem retrieved_chunks_from_store (embedQuery : string -> option Vec)
    (store : option VectorStore) (query : string) (k : nat) (thr : float) :
  let result :=
    Content.retrieveRelevantChunks embedQuery store query k thr in
  (store = None
   \/ (exists vs, store = Some vs /\ embeddings vs = [])
   \/ embedQuery query = None \/ embedQuery query = Some [] \/ k = 0 ->
   result = [])
  /\ forall vs,
       store = Some vs ->
       exists positions,
         result = map (Content.chunkAt vs) positions
         /\ NoDup positions
         /\ List.length positions <= k
         /\ Forall (fun i => i < List.length (embeddings vs)
                             /\ i < List.length (chunks vs)) positions
         /\ Forall (fun c => JS.truthy c = true /\ In c (chunks vs)) result.
Proof.
  intros result. subst result. split.
  - unfold Content.retrieveRelevantChunks.
    intros [-> | [[vs [-> E]] | [E | [E | ->]]]]; try reflexivity.
    + rewrite E. reflexivity.
    + destruct store as [vs |]; [| reflexivity].
      destruct (embeddings vs); [reflexivity |]. rewrite E. reflexivity.
    + destruct store as [vs |]; [| reflexivity].
      destruct (embeddings vs); [reflexivity |]. rewrite E. reflexivity.
    + destruct store as [vs |]; [| reflexivity].
      destruct (embeddings vs); [reflexivity |].
      destruct (embedQuery query) as [[| x q] |]; reflexivity.
  - intros vs ->. unfold Content.retrieveRelevantChunks.
    assert (Empty : exists positions : list nat,
               @nil string = map (Content.chunkAt vs) positions
               /\ NoDup positions /\ List.length positions <= k
               /\ Forall (fun i => i < List.length (embeddings vs)
                                   /\ i < List.length (chunks vs)) positions
               /\ Forall (fun c => JS.truthy c = true /\ In c (chunks vs))
                         (@nil string)).
    { exists []. repeat split; try constructor. simpl. lia. }
    destruct (embeddings vs) as [| e0 es] eqn:Ee; [exact Empty |].
    destruct (embedQuery query) as [[| x q'] |]; try exact Empty.
    set (q := x :: q'). rewrite <- Ee. clear Empty.
    set (sel := Content.selected vs q k thr).
    assert (Item : forall item,
               In item sel ->
               Content.chunk item = Content.chunkAt vs (Content.index item)
               /\ Content.index item < List.length (embeddings vs)
               /\ Content.index item < List.length (chunks vs)
               /\ JS.truthy (Content.chunk item) = true
               /\ In (Content.chunk item) (chunks vs)).
    { intros item I.
      destruct (content_selected_survivor vs q k thr item I) as [S P].
      destruct (content_similarities_item vs q item S) as [B [C _]].
      unfold Content.passes in P.
      apply andb_true_iff in P. destruct P as [P _].
      apply andb_true_iff in P. destruct P as [T _].
      assert (L : Content.index item < List.length (chunks vs)).
      { destruct (Nat.lt_ge_cases (Content.index item)
                                  (List.length (chunks vs))) as [L | G];
          [exact L |].
        rewrite C in T. unfold Content.chunkAt in T.
        rewrite (nth_overflow _ _ G) in T. discriminate. }
      repeat split; try assumption.
      rewrite C. unfold Content.chunkAt. apply nth_In, L. }
    exists (map Content.index sel).
    split; [| split; [| split; [| split]]].
    + rewrite map_map. apply map_ext_in. intros item I.
      apply (Item item I).
    + apply content_selected_indices.
    + rewrite length_map. apply firstn_length_le.
    + apply Forall_forall. intros i I. apply in_map_iff in I.
      destruct I as [item [<- I]]. destruct (Item item I) as [_ [A [B _]]].
      split; assumption.
    + apply Forall_forall. intros c I. apply in_map_iff in I.
      destruct I as [item [<- I]]. destruct (Item item I) as [_ [_ [_ A]]].
      exact A.
Qed.

(** The retrieval of the popup: nothing without an index, embeddings or
    a query embedding; otherwise at most [k] entries, each with a cosine
    similarity to the query of at least the threshold, in descending
    order of score, equal scores in index order.  An entry is whatever
    [chunks] holds at the position, which may be nothing. *)
Theorem popup_retrieved_chunks (embedQuery : string -> option Vec)
    (store : option VectorStore) (query : string) (k : nat) (thr : float) :
  let result := Popup.retrieveRelevantChunks embedQuery store query k thr in
  List.length result <= k
  /\ (store = None
      \/ (exists vs, store = Some vs /\ embeddings vs = [])
      \/ embedQuery query = None ->
      result = [])
  /\ forall vs q,
       store = Some vs -> embeddings vs <> [] -> embedQuery query = Some q ->
       let sel := Popup.selected vs q k thr in
       result = map (fun item => nth_error (chunks vs) (Popup.index item)) sel
       /\ NoDup (map Popup.index sel)
       /\ (forall item,
             In item sel ->
             Popup.index item < List.length (embeddings vs)
             /\ (thr <=? cosineSimilarity (Some q)
                           (nth (Popup.index item) (embeddings vs) None))%float
                = true)
       /\ (forall i j x y,
             i < j ->
             nth_error sel i = Some x -> nth_error sel j = Some y ->
             (Popup.score y <=? Popup.score x)%float = true
             /\ ((Popup.score x =? Popup.score y)%float = true ->
                 Popup.index x < Popup.index y)).
Proof.
  intros result. subst result. unfold Popup.retrieveRelevantChunks.
  split; [| split].
  - destruct store as [vs |]; [| simpl; lia].
    destruct (embeddings vs) eqn:Ee; [simpl; lia |].
    destruct (embedQuery query) as [q |]; [| simpl; lia].
    rewrite length_map. apply firstn_length_le.
  - intros [-> | [[vs [-> E]] | E]]; try reflexivity.
    + rewrite E. reflexivity.
    + destruct store as [vs |]; [| reflexivity].
      destruct (embeddings vs); [reflexivity |]. rewrite E. reflexivity.
  - intros vs q -> Ne Eq. rewrite Eq.
    destruct (embeddings vs) as [| e0 es] eqn:Ee; [congruence |].
    rewrite <- Ee in *. clear Ne.
    destruct (popup_retrieval vs q k thr) as [Es [_ [Perm [Thr Ord]]]].
    set (sel := Popup.selected vs q k thr) in *.
    assert (Sub : forall item, In item sel ->
                  In item (Popup.similarities vs q)
                  /\ In item (jsSort Popup.byScoreDesc
                                (filter (Popup.passes thr)
                                        (Popup.similarities vs q)))).
    { intros item I. rewrite Es in I. apply firstn_In in I.
      split; [| exact I].
      apply (Permutation_in _ Perm) in I. apply filter_In in I. apply I. }
    split; [| split; [| split]].
    + apply map_ext_in. intros item I.
      destruct (Sub item I) as [S _].
      unfold Popup.similarities in S.
      destruct (mapFrom_In _ _ _ _ S) as [n [e [_ ->]]].
      destruct e; reflexivity.
    + subst sel. unfold Popup.selected. apply NoDup_map_firstn.
      apply (Permutation_NoDup
               (l := map Popup.index
                         (filter (Popup.passes thr)
                                 (Popup.similarities vs q)))).
      * apply Permutation_map. apply Permutation_sym. apply jsSort_perm.
      * apply NoDup_map_filter. unfold Popup.similarities.
        rewrite mapFrom_indices; [apply seq_NoDup |].
        intros [e |] i; reflexivity.
    + intros item I. destruct (Sub item I) as [S J].
      split; [apply (popup_similarities_item vs q item S) | apply Thr, J].
    + intros i j x y Lt Hx Hy. rewrite Es in Hx, Hy.
      apply nth_error_firstn_inv in Hx. apply nth_error_firstn_inv in Hy.
      apply (Ord i j x y Lt Hx Hy).
Qed.

End RetrievedFacts.

(** ** Truncation over the budget *)

Section TruncationBound.

Import Chunking.
Local Open Scope Z_scope.

Variable splitMarkdown : ChunkConfig -> string -> option (list string).

Lemma len_append (a b : string) : len (a ++ b) = len a + len b.
Proof. unfold len. rewrite string_length_append. lia. Qed.

Lemma len_take (n : Z) (s : string) :
  0 <= n -> len (JS.take (Z.to_nat n) s) = Z.min n (len s).
Proof. intros H. unfold len. rewrite take_length. lia. Qed.

(** The reassembled text exceeds the budget by at most the blank line
    that follows the last whole chunk. *)
Lemma combineChunks_length (maxChars : Z) (chunks : list string) :
  forall truncated,
    len truncated <= maxChars + 2 ->
    len (combineChunks maxChars chunks truncated) <= maxChars + 2.
Proof.
  induction chunks as [| chunk rest IH]; intros truncated B; [exact B |].
  simpl.
  destruct (Z.leb_spec (len truncated + len chunk) maxChars) as [L | G].
  - apply IH. rewrite !len_append.
    change (len blankLine) with 2. lia.
  - destruct (Z.ltb_spec 500 (maxChars - len truncated)) as [R | R];
      [| exact B].
    rewrite len_append, len_take by lia. lia.
Qed.

(** A text over the budget comes back with a marker at its end, and can
    be longer than the budget: by at most 2 characters and the marker of
    54 on the normal path, by the marker of 23 when the splitter fails and
    the text is cut at the budget.  In every case the result has at most
    [maxChars + 56] characters. *)
Theorem truncateMarkdownSafely_length (markdown : string) (maxChars : Z) :
  0 <= maxChars ->
  let result := truncateMarkdownSafely splitMarkdown markdown maxChars in
  len result <= maxChars + 56
  /\ (maxChars < len markdown ->
      (forall chunks,
         splitMarkdown (getOptimalChunkConfig (len markdown) true) markdown
         = Some chunks ->
         exists body,
           result = (body ++ truncationMarker)%string
           /\ len body <= maxChars + 2)
      /\ (splitMarkdown (getOptimalChunkConfig (len markdown) true) markdown
          = None ->
          result
          = (JS.take (Z.to_nat maxChars) markdown ++ fallbackMarker)%string
          /\ len result = maxChars + 23)).
Proof.
  intros P result. subst result. unfold truncateMarkdownSafely.
  destruct (Z.leb_spec (len markdown) maxChars) as [L | G].
  { split; [lia | intros; lia]. }
  assert (B : forall chunks,
             len (combineChunks maxChars chunks EmptyString) <= maxChars + 2).
  { intros chunks. apply combineChunks_length. change (len EmptyString) with 0.
    lia. }
  destruct (splitMarkdown _ markdown) as [chunks |].
  - rewrite len_append. change (len truncationMarker) with 54.
    split; [specialize (B chunks); lia |].
    intros _. split; [| discriminate].
    intros chunks' E. injection E as <-.
    exists (combineChunks maxChars chunks EmptyString).
    split; [reflexivity | apply B].
  - rewrite len_append, len_take by lia.
    change (len fallbackMarker) with 23.
    split; [lia |]. intros _. split; [discriminate |].
    intros _. split; [reflexivity | lia].
Qed.

End TruncationBound.

Lemma truncateMarkdownSafely_length_witness :
  (Chunking.len
     (Chunking.truncateMarkdownSafely (fun _ _ => None) longPage 50000)
   <= 50000 + 56)%Z.
Proof.
  refine (proj1 (@truncateMarkdownSafely_length (fun _ _ => None) longPage
                   50000%Z _)).
  discriminate.
Defined.

(** ** Chunk configuration *)

Section ChunkConfigFacts.

Import Chunking.
Local Open Scope Z_scope.

(** For every document length, in both uses: the chunk size lies between
    500 and 5,000 and does not shrink when the document grows; the
    overlap is positive, smaller than the chunk size, and between a tenth
    and a fifth of it; the chunks used for truncation are at least as
    large as those used for retrieval. *)
Theorem chunk_config_shape (documentLength longer : Z) (large : bool) :
  let c := getOptimalChunkConfig documentLength large in
  500 <= chunkSize c <= 5000
  /\ 0 < chunkOverlap c < chunkSize c
  /\ 10 * chunkOverlap c <= 2 * chunkSize c
  /\ chunkSize c <= 10 * chunkOverlap c
  /\ (documentLength <= longer ->
      chunkSize c <= chunkSize (getOptimalChunkConfig longer large))
  /\ chunkSize (getOptimalChunkConfig documentLength false)
     <= chunkSize (getOptimalChunkConfig documentLength true).
Proof.
  intros c. subst c. unfold getOptimalChunkConfig, sizeBand.
  destruct large;
    repeat match goal with
           | |- context [(?x <? ?y)] => destruct (Z.ltb_spec x y)
           end;
    cbn [chunkSize chunkOverlap];
    repeat match goal with
           | |- context [overlapOf ?s ?p] =>
               let v := eval vm_compute in (overlapOf s p) in
               change (overlapOf s p) with v
           end;
    repeat split; intros; lia.
Qed.

End ChunkConfigFacts.

(** ** Short pages *)

Section ShortPageFacts.

Import Router Session.
Local Open Scope string_scope.

(** A page of fewer than 40,000 characters (under 10,000 estimated
    tokens) is answered directly: whatever is in the cache, the store is
    not written, the mode is Direct with the stuffing chain, and the
    providers play no part (any two sets of providers give the same
    result); without a warm cache entry no summary and no index are
    kept. *)
Theorem short_page_is_direct
    (gs gs' : string -> SizeClass -> option string)
    (rag rag' again again' : string -> option VectorStore)
    (st : Storage) (tabId url : option string) (markdown : string)
    (prev : Mode) (now : Z) :
  JS.truthy markdown = true ->
  (Chunking.len markdown < 40000)%Z ->
  let r := openPage gs rag again st tabId url (Some markdown) prev now in
  snd r = st
  /\ decisionOf (fst r) = DDirect
  /\ badge (fst r) = Some BadgeStuffing
  /\ chain (fst r) = Some ChainStuffing
  /\ openPage gs' rag' again' st tabId url (Some markdown) prev now = r
  /\ (isWarm (loadProcessingCache st tabId url) = false ->
      documentSummary (fst r) = None /\ vectorStore (fst r) = None).
Proof.
  intros T L r. subst r. unfold openPage. rewrite T. simpl negb. cbv iota zeta.
  set (t := estimatedTokens (Z.of_nat (String.length markdown))).
  assert (Lt : (t < 10000)%Q).
  { subst t. unfold Chunking.len in L.
    unfold estimatedTokens, Qlt, Qdiv, Qmult, Qinv, inject_Z.
    cbn [Qnum Qden Pos.mul]. lia. }
  assert (Cold : forall a b c,
             coldPath a b c markdown t prev
             = (mkMode false false false None None (Some BadgeStuffing)
                       (Some ChainStuffing), None)).
  { intros a b c. unfold coldPath.
    destruct (Qlt_le_dec t 10000) as [_ | G]; [reflexivity |].
    exfalso. apply (Qlt_irrefl t). apply Qlt_le_trans with (1 := Lt), G. }
  assert (Warm : forall c,
             warmPath t prev c
             = mkMode false false false (restoreSummary c)
                      (restoreVectorStore (vectorStore prev) c)
                      (Some BadgeStuffing) (Some ChainStuffing)).
  { intros c. unfold warmPath.
    destruct (Qlt_le_dec t 10000) as [_ | G]; [reflexivity |].
    exfalso. apply (Qlt_irrefl t). apply Qlt_le_trans with (1 := Lt), G. }
  rewrite !Cold.
  destruct (loadProcessingCache st tabId url) as [c |] eqn:E.
  - destruct (isWarm (Some c)) eqn:W.
    + rewrite Warm. cbn [fst snd].
      repeat split; intros; try discriminate; reflexivity.
    + cbn [fst snd]. repeat split; intros; reflexivity.
  - cbn [fst snd]. repeat split; intros; reflexivity.
Qed.

Lemma short_page_is_direct_witness :
  decisionOf
    (fst (openPage (fun _ _ => Some "summary")
            (fun _ => Some exampleStore) (fun _ => None) []
            (Some "7") (Some "https://a.example/")
            (Some "A short page.") initialMode 0))
  = DDirect.
Proof.
  refine (proj1 (proj2
            (@short_page_is_direct (fun _ _ => Some "summary")
               (fun _ _ => None) (fun _ => Some exampleStore) (fun _ => None)
               (fun _ => None) (fun _ => None) [] (Some "7")
               (Some "https://a.example/") "A short page." initialMode 0%Z
               _ _))).
  - reflexivity.
  - reflexivity.
Defined.

End ShortPageFacts.

(** ** The earlier popup *)

Section LegacyFacts.

Import Chat.
Local Open Scope nat_scope.

Variable chainStream :
  string -> option string -> option string -> string -> History
  -> StreamResult.

(** The earlier popup answers every question with one completion over
    the page text, cut blindly after 50,000 characters with a marker of 23
    characters added, and unchanged when it is not longer; an answer is
    appended to the history, which keeps its last 20 messages, and a
    failed stream leaves the history as it was. *)
Theorem legacy_send (page : Page.Response) (text question : string)
    (h : History) :
  JS.truthy question = true ->
  Page.text page = Some text ->
  let r := Legacy.handleSend chainStream true (Some page) question h in
  let stream := chainStream (Legacy.context text) (Page.title page)
                            (Page.url page) question h in
  calls (Legacy.ui r) = [Completion (Legacy.context text) question]
  /\ ((Chunking.len text <= 50000)%Z -> Legacy.context text = text)
  /\ ((50000 < Chunking.len text)%Z ->
      Legacy.context text
      = (JS.take (Z.to_nat 50000) text ++ Chunking.fallbackMarker)%string
      /\ Chunking.len (Legacy.context text) = 50023%Z)
  /\ (failure stream = None ->
      Legacy.outcome r = Legacy.Answered (received EmptyString stream)
      /\ Legacy.history r
         = trimHistory (h ++ [mkMessage Human question;
                              mkMessage AI (received EmptyString stream)])
      /\ List.length (Legacy.history r) <= 20)
  /\ (forall e, failure stream = Some e ->
      Legacy.outcome r = Legacy.Failed (Legacy.Stream e)
      /\ Legacy.history r = h).
Proof.
  intros Tq Et r stream. subst r.
  unfold Legacy.handleSend. rewrite Tq, Et. simpl negb. cbv iota zeta.
  unfold bind, show, logCall, emptyUI. cbn [calls messageDiv app].
  rewrite consume_run. fold stream.
  split.
  { destruct (failure stream); reflexivity. }
  split.
  { intros L. unfold Legacy.context.
    destruct (Z.ltb_spec 50000 (Chunking.len text)); [lia | reflexivity]. }
  split.
  { intros G. unfold Legacy.context.
    destruct (Z.ltb_spec 50000 (Chunking.len text)); [| lia].
    split; [reflexivity |].
    unfold Chunking.len in *. rewrite string_length_append, take_length.
    change (String.length "... [content truncated]") with 23. lia. }
  split.
  - intros F. rewrite F. cbn [Legacy.outcome Legacy.history].
    split; [reflexivity |]. split; [reflexivity |]. apply trimHistory_length.
  - intros e F. rewrite F. split; reflexivity.
Qed.

End LegacyFacts.

Lemma legacy_send_witness :
  Chat.calls
    (Legacy.ui
       (Legacy.handleSend (fun _ _ _ _ _ => Chat.mkStream ["Yes."%string] None)
          true
          (Some (Page.mkResponse (Some "page text"%string) None None))
          "When was the launch?"%string []))
  = [Chat.Completion "page text"%string "When was the launch?"%string].
Proof.
  exact (proj1 (@legacy_send (fun _ _ _ _ _ => Chat.mkStream ["Yes."%string] None)
                  (Page.mkResponse (Some "page text"%string) None None)
                  "page text"%string "When was the launch?"%string []
                  eq_refl eq_refl)).
Defined.

(** ** What the bubble shows and what is recorded *)

Section BubbleFacts.

Import Chat.
Local Open Scope nat_scope.

Variable chainStream : string -> string -> History -> StreamResult.
Variable retrievalStream :
  string -> string -> string -> History -> StreamResult.
Variable embedQuery : string -> option Vec.
Variable splitMarkdown : Chunking.ChunkConfig -> string -> option (list string).
Variable detailNeeded : string -> string.

Let send :=
  handleSend chainStream retrievalStream embedQuery splitMarkdown detailNeeded.

(** The bubble shows the recorded answer, or the fixed message while the
    recorded answer carries the marker. *)
Definition bubbleAgrees (answer : string) (u : UI) : Prop :=
  messageDiv u = Some answer
  \/ (messageDiv u = Some notFoundMessage
      /\ JS.includes sentinel answer = true).

Lemma drawn_received (before : option string) (r : StreamResult) :
  received EmptyString r <> EmptyString ->
  drawn before EmptyString r = Some (received EmptyString r).
Proof.
  unfold drawn, received.
  destruct (pieces r); [intros N; exfalso; apply N; reflexivity |].
  reflexivity.
Qed.

Lemma outcomeOf_done (r : StreamResult) (a : string) :
  outcomeOf r = Done a -> a = received EmptyString r.
Proof.
  unfold outcomeOf. destruct (failure r); [discriminate |].
  intros E. injection E as <-. reflexivity.
Qed.

Lemma answerSummary_run (summary question : string) (h : History) :
  answerSummary chainStream summary question h emptyUI
  = (outcomeOf (chainStream summary question h),
     mkUI [Completion summary question]
          (drawn (Some EmptyString) EmptyString
                 (chainStream summary question h))).
Proof.
  unfold answerSummary, bind, show, logCall, emptyUI. simpl.
  rewrite consume_run. reflexivity.
Qed.

(** In every mode, after an answer that is not empty the bubble shows
    exactly the text recorded in the history, with one exception: when
    the Hybrid summary stage asked for detail and nothing was retrieved,
    the bubble shows the fixed "Could not find specific details" message
    while the history records the summary-stage response with its
    marker. *)
Theorem bubble_shows_recorded_answer (mode : Router.Mode)
    (pageText : option string) (question answer : string) (h : History) :
  outcome (send mode pageText question h) = Answered answer ->
  answer <> EmptyString ->
  bubbleAgrees answer (ui (send mode pageText question h))
  /\ exists before,
       history (send mode pageText question h)
       = before ++ [mkMessage Human question; mkMessage AI answer].
Proof.
  assert (D : forall page a u,
             answerDirect chainStream splitMarkdown page question h emptyUI
             = (Done a, u) ->
             a <> EmptyString -> bubbleAgrees a u).
  { intros page a u E N.
    rewrite (answerDirect_run chainStream splitMarkdown) in E.
    injection E as Eo Eu. apply outcomeOf_done in Eo. subst a u.
    left. simpl. apply drawn_received, N. }
  assert (R : forall vs a u,
             answerRAG chainStream embedQuery vs question h emptyUI
             = (Done a, u) ->
             a <> EmptyString -> bubbleAgrees a u).
  { intros vs a u E N.
    rewrite (answerRAG_run chainStream embedQuery) in E.
    injection E as Eo Eu. apply outcomeOf_done in Eo. subst a u.
    left. simpl. apply drawn_received, N. }
  assert (S : forall s a u,
             answerSummary chainStream s question h emptyUI = (Done a, u) ->
             a <> EmptyString -> bubbleAgrees a u).
  { intros s a u E N. rewrite answerSummary_run in E.
    injection E as Eo Eu. apply outcomeOf_done in Eo. subst a u.
    left. simpl. apply drawn_received, N. }
  assert (H : forall s vs a u,
             answerHybrid chainStream retrievalStream embedQuery detailNeeded
                          s vs question h emptyUI = (Done a, u) ->
             a <> EmptyString -> bubbleAgrees a u).
  { intros s vs a u E N.
    rewrite (@answerHybrid_run chainStream retrievalStream embedQuery
               detailNeeded s vs question h) in E.
    destruct (failure (chainStream s question h)); [discriminate |].
    destruct (JS.includes sentinel
                (received EmptyString (chainStream s question h))) eqn:M.
    - destruct (JS.truthy _).
      + match type of E with
        | context [failure ?r] => destruct (failure r); [discriminate |]
        end.
        injection E as Eo Eu. subst a u.
        left. simpl. apply drawn_received, N.
      + injection E as Eo Eu. subst a u. right. split; [reflexivity | exact M].
    - injection E as Eo Eu. subst a u.
      left. simpl. apply drawn_received, N. }
  intros O N. split.
  2: { destruct (send_shape chainStream retrievalStream embedQuery
                   splitMarkdown detailNeeded mode pageText question h)
         as [[_ E] | [_ [[a [u E]] | [e [u E]]]]];
         unfold send in *; rewrite E in O |- *; cbn [outcome history] in *;
         try discriminate O.
       injection O as ->. apply trimHistory_keeps_end. }
  revert O. unfold send, handleSend.
  destruct (JS.truthy question); simpl negb; cbv iota; [| discriminate].
  destruct pageText as [page |]; [| discriminate].
  destruct (Router.chain mode); [| discriminate].
  cbv zeta.
  destruct (Router.useHybridMode mode);
    destruct (Router.documentSummary mode) as [s |];
    destruct (Router.vectorStore mode) as [vs |];
    destruct (Router.useSummaryMode mode);
    destruct (Router.isLongDocument mode);
    cbn [andb JS.truthyOpt]; try destruct (JS.truthy s); cbv iota;
    match goal with
    | |- context [?f emptyUI] =>
        destruct (f emptyUI) as [[a | e] u] eqn:E
    end;
    cbn [outcome ui]; intros O; try discriminate O;
    injection O as ->; eauto.
Qed.

End BubbleFacts.

Lemma bubble_shows_recorded_answer_witness :
  bubbleAgrees "It took place in May 2021."
    (Chat.ui (Chat.handleSend answeringChain askingDetailChain (fun _ => None)
                (fun _ _ => None) (fun s => s) directMode
                (Some "page text"%string) "When was the launch?"%string [])).
Proof.
  refine (proj1 (@bubble_shows_recorded_answer answeringChain
                   askingDetailChain (fun _ => None) (fun _ _ => None)
                   (fun s => s) directMode (Some "page text"%string)
                   "When was the launch?"%string
                   "It took place in May 2021."%string [] _ _)).
  - reflexivity.
  - discriminate.
Defined.

(** ** The fallback between 20,000 and 30,000 tokens, reopened *)

Section FallbackReopened.

Import Router Session.
Local Open Scope string_scope.

(** Between 20,000 and 30,000 estimated tokens, when the summary or the
    first index is missing but the second build of the index succeeds,
    the first processing leaves the page in Direct mode and caches the
    index without a summary; processing the same page again finds that
    entry and puts the page in retrieval mode, with the cached index.  The
    same page is thus answered from its text the first time and by
    retrieval after reopening. *)
Theorem fallback_mode_changes_on_reopen
    (gs gs' : string -> SizeClass -> option string)
    (rag again rag' again' : string -> option VectorStore)
    (st : Storage) (tabId url markdown : string) (vs : VectorStore)
    (prev prev' : Mode) (now now' : Z) :
  JS.truthy tabId = true ->
  JS.truthy url = true ->
  (20000 <= estimatedTokens (Chunking.len markdown))%Q ->
  (estimatedTokens (Chunking.len markdown) < 30000)%Q ->
  isWarm (loadProcessingCache st (Some tabId) (Some url)) = false ->
  JS.truthyOpt (gs markdown Standard) && hasStore (rag markdown) = false ->
  again markdown = Some vs ->
  let first := openPage gs rag again st (Some tabId) (Some url)
                        (Some markdown) prev now in
  let second := openPage gs' rag' again' (snd first) (Some tabId) (Some url)
                         (Some markdown) prev' now' in
  decisionOf (fst first) = DDirect
  /\ vectorStore (fst first) = Some vs
  /\ loadProcessingCache (snd first) (Some tabId) (Some url)
     = Some (mkCacheEntry None (Some (snapshot vs)) now url)
  /\ decisionOf (fst second) = DPureRetrieval
  /\ vectorStore (fst second) = Some vs
  /\ documentSummary (fst second) = None
  /\ snd second = snd first.
Proof.
  intros Tt Tu Lo Hi Cold Miss Again first second.
  assert (Tm : JS.truthy markdown = true).
  { destruct markdown; [| reflexivity]. exfalso.
    vm_compute in Lo. apply Lo. reflexivity. }
  unfold Chunking.len in Lo, Hi.
  set (t := estimatedTokens (Z.of_nat (String.length markdown))) in *.
  assert (N1 : ~ (t < 10000)%Q) by (intros L; lra).
  assert (N2 : ~ (t < 20000)%Q) by (intros L; lra).
  assert (Ec : coldPath gs rag again markdown t prev
               = (mkMode false false false (gs markdown Standard) (Some vs)
                         (Some BadgeRag) (Some ChainRAG),
                  Some (None, vs))).
  { unfold coldPath.
    destruct (Qlt_le_dec t 10000) as [L | _]; [contradiction |].
    destruct (Qlt_le_dec t 20000) as [L | _]; [contradiction |].
    destruct (Qlt_le_dec t 30000) as [_ | G]; [| exfalso; lra].
    cbv zeta. rewrite Miss, Again. reflexivity. }
  assert (Ef : first
               = (mkMode false false false (gs markdown Standard) (Some vs)
                         (Some BadgeRag) (Some ChainRAG),
                  saveProcessingCache st (Some tabId) (Some url) None
                                      (snapshot vs) now)).
  { subst first.
    rewrite (@openPage_cold gs rag again st (Some tabId) (Some url) markdown
               prev now Tm Cold).
    fold t. rewrite Ec. reflexivity. }
  assert (El : loadProcessingCache (snd first) (Some tabId) (Some url)
               = Some (mkCacheEntry None (Some (snapshot vs)) now url)).
  { rewrite Ef. cbn [snd]. apply load_after_save; assumption. }
  assert (Es : second
               = (mkMode true false false None (Some vs) (Some BadgeRag)
                         (Some ChainRAG), snd first)).
  { subst second. unfold openPage. rewrite Tm. simpl negb. cbv iota zeta.
    rewrite El. cbn [isWarm cacheVectorStore]. fold t.
    unfold warmPath. rewrite snapshot_restores.
    destruct (Qlt_le_dec t 10000) as [L | _]; [contradiction |].
    reflexivity. }
  rewrite Es. split; [rewrite Ef; reflexivity |].
  split; [rewrite Ef; reflexivity |].
  split; [exact El |]. repeat split.
Qed.

Lemma fallback_mode_changes_on_reopen_witness :
  let first := openPage (fun _ _ => None) (fun _ => Some exampleStore)
                 (fun _ => Some exampleStore) [] (Some "7")
                 (Some "https://a.example/") (Some longPage) initialMode 0 in
  decisionOf (fst first) = DDirect
  /\ decisionOf
       (fst (openPage (fun _ _ => None) (fun _ => None) (fun _ => None)
               (snd first) (Some "7") (Some "https://a.example/")
               (Some longPage) initialMode 1))
     = DPureRetrieval.
Proof.
  intros first.
  destruct (@fallback_mode_changes_on_reopen (fun _ _ => None)
              (fun _ _ => None) (fun _ => Some exampleStore)
              (fun _ => Some exampleStore) (fun _ => None) (fun _ => None)
              [] "7" "https://a.example/" longPage exampleStore
              initialMode initialMode 0%Z 1%Z)
    as [A [_ [_ [B _]]]]; try reflexivity.
  - vm_compute. discriminate.
  - split; [exact A | exact B].
Defined.

End FallbackReopened.

(** ** Truncation keeps chunks whole *)

Section TruncationShape.

Import Chunking.
Local Open Scope Z_scope.

(** The first [n] chunks, each followed by a blank line. *)
Definition wholeChunks (n : nat) (chunks : list string) : string :=
  String.concat EmptyString
    (map (fun chunk => (chunk ++ blankLine)%string) (firstn n chunks)).

Lemma concat_empty_cons (x : string) (l : list string) :
  String.concat EmptyString (x :: l)
  = (x ++ String.concat EmptyString l)%string.
Proof.
  destruct l as [| y l]; simpl.
  - induction x as [| c x IH]; simpl; [reflexivity | rewrite <- IH at 1].
    reflexivity.
  - reflexivity.
Qed.

Lemma string_append_empty_r (s : string) : (s ++ EmptyString)%string = s.
Proof.
  induction s as [| c s IH]; simpl; [reflexivity | rewrite IH; reflexivity].
Qed.

Lemma combineChunks_shape (maxChars : Z) (chunks : list string) :
  forall truncated,
    exists (n : nat) (partial : string),
      combineChunks maxChars chunks truncated
      = (truncated ++ wholeChunks n chunks ++ partial)%string
      /\ (n <= List.length chunks)%nat
      /\ (forall chunk,
            nth_error chunks n = Some chunk ->
            maxChars
            < len (truncated ++ wholeChunks n chunks)%string + len chunk
            /\ (partial = EmptyString
                \/ (500 < maxChars
                          - len (truncated ++ wholeChunks n chunks)%string
                    /\ partial
                       = JS.take
                           (Z.to_nat
                              (maxChars
                               - len (truncated ++ wholeChunks n chunks)%string))
                           chunk)))
      /\ (nth_error chunks n = None -> partial = EmptyString).
Proof.
  induction chunks as [| chunk rest IH]; intros truncated.
  - exists 0%nat, EmptyString. simpl. unfold wholeChunks. simpl.
    rewrite string_append_empty_r.
    split; [reflexivity |]. split; [lia |].
    split; [discriminate | reflexivity].
  - simpl.
    destruct (Z.leb_spec (len truncated + len chunk) maxChars) as [L | G].
    + destruct (IH (truncated ++ chunk ++ blankLine)%string)
        as [n [partial [E [B [Some_ None_]]]]].
      assert (W : forall tail,
                 ((truncated ++ chunk ++ blankLine)
                  ++ wholeChunks n rest ++ tail)%string
                 = (truncated ++ wholeChunks (S n) (chunk :: rest)
                    ++ tail)%string).
      { intros tail. unfold wholeChunks. cbn [firstn map].
        rewrite concat_empty_cons.
        rewrite !string_append_assoc. reflexivity. }
      exists (S n), partial.
      split; [rewrite E; apply W |].
      split; [simpl; lia |].
      assert (W' : (truncated ++ wholeChunks (S n) (chunk :: rest))%string
                   = ((truncated ++ chunk ++ blankLine)
                      ++ wholeChunks n rest)%string).
      { pose proof (W EmptyString) as W0.
        rewrite !string_append_empty_r in W0. symmetry. exact W0. }
      rewrite W'. split; [exact Some_ | exact None_].
    + assert (E0 : (truncated ++ wholeChunks 0 (chunk :: rest))%string
                   = truncated).
      { unfold wholeChunks. simpl. apply string_append_empty_r. }
      destruct (Z.ltb_spec 500 (maxChars - len truncated)) as [R | R].
      * exists 0%nat, (JS.take (Z.to_nat (maxChars - len truncated)) chunk).
        split; [unfold wholeChunks; reflexivity |].
        split; [simpl; lia |]. rewrite E0.
        split; [| discriminate].
        intros c Ec. injection Ec as <-. split; [lia |].
        right. split; [exact R | reflexivity].
      * exists 0%nat, EmptyString.
        split; [unfold wholeChunks; simpl;
                rewrite string_append_empty_r; reflexivity |].
        split; [simpl; lia |]. rewrite E0.
        split; [| discriminate].
        intros c Ec. injection Ec as <-. split; [lia |].
        left. reflexivity.
Qed.

Variable splitMarkdown : ChunkConfig -> string -> option (list string).

(** A text over the budget, split into chunks, comes back as the first
    [n] chunks whole and in order, each followed by a blank line, then at
    most one cut chunk, then the marker.  The cut chunk is the next one,
    cut to the room left, and is added only when more than 500 characters
    are left; the first chunk that does not fit ends the text, also when
    later chunks would fit. *)
Theorem truncateMarkdownSafely_whole_chunks (markdown : string)
    (maxChars : Z) (chunks : list string) :
  maxChars < len markdown ->
  splitMarkdown (getOptimalChunkConfig (len markdown) true) markdown
  = Some chunks ->
  exists (n : nat) (partial : string),
    truncateMarkdownSafely splitMarkdown markdown maxChars
    = (wholeChunks n chunks ++ partial ++ truncationMarker)%string
    /\ (n <= List.length chunks)%nat
    /\ (forall chunk,
          nth_error chunks n = Some chunk ->
          maxChars < len (wholeChunks n chunks) + len chunk
          /\ (partial = EmptyString
              \/ (500 < maxChars - len (wholeChunks n chunks)
                  /\ partial
                     = JS.take
                         (Z.to_nat (maxChars - len (wholeChunks n chunks)))
                         chunk)))
    /\ (nth_error chunks n = None -> partial = EmptyString).
Proof.
  intros Over Split. unfold truncateMarkdownSafely.
  destruct (Z.leb_spec (len markdown) maxChars) as [L | _]; [lia |].
  cbv zeta. rewrite Split.
  destruct (combineChunks_shape maxChars chunks EmptyString)
    as [n [partial [E [B [Some_ None_]]]]].
  exists n, partial. simpl in E, Some_.
  split; [rewrite E; rewrite string_append_assoc; reflexivity |].
  split; [exact B |]. split; [exact Some_ | exact None_].
Qed.

End TruncationShape.

Lemma truncateMarkdownSafely_whole_chunks_witness :
  exists (n : nat) (partial : string),
    Chunking.truncateMarkdownSafely
      (fun _ _ => Some ["# Title"%string; "Text"%string]) "# Title Text" 8
    = (wholeChunks n ["# Title"%string; "Text"%string] ++ partial
       ++ Chunking.truncationMarker)%string.
Proof.
  destruct (@truncateMarkdownSafely_whole_chunks
              (fun _ _ => Some ["# Title"%string; "Text"%string])
              "# Title Text" 8%Z ["# Title"%string; "Text"%string])
    as [n [partial [E _]]].
  - reflexivity.
  - reflexivity.
  - exists n, partial. exact E.
Defined.
